(** * The THPT-2025 crawler: identifier generator, skip ledger and crawl loops

    A shallow embedding of [src/registration_number_generator.py],
    [src/crawler_skip_manager.py], the statistics of [src/results_saver.py]
    and the crawl loops of [main.py] and [main_enhanced.py], followed by the
    properties established about them. *)

From Stdlib Require Import ZArith Lia Ascii QArith.
From stdpp Require Import gmap strings list fin_maps.

Close Scope Q_scope.
Local Open Scope Z_scope.

(** ** Python primitives *)

Module Py.

(** The exception classes that the modelled code raises or catches. *)
Inductive exn : Type :=
| ValueError
| OSError
| ZeroDivisionError
| Exception
| SystemExit.

(** [isinstance(e, Exception)]: what an [except Exception] clause catches. *)
Definition is_exception (e : exn) : bool :=
  match e with
  | SystemExit => false
  | _ => true
  end.

(** What a call does: it returns a value or raises. *)
Inductive outcome (A : Type) : Type :=
| Returns (a : A)
| Raises (e : exn).
Arguments Returns {A} a.
Arguments Raises {A} e.

(** [s[:n]] *)
Fixpoint str_take (n : nat) (s : string) : string :=
  match n, s with
  | S n', String c r => String c (str_take n' r)
  | _, _ => EmptyString
  end.

(** [s[n:]] *)
Fixpoint str_drop (n : nat) (s : string) : string :=
  match n, s with
  | S n', String _ r => str_drop n' r
  | _, _ => s
  end.

Definition digit_char (d : Z) : ascii := ascii_of_nat (48 + Z.to_nat d).

Definition digit_of_ascii (c : ascii) : option Z :=
  let k := Z.of_nat (nat_of_ascii c) in
  if (48 <=? k) && (k <=? 57) then Some (k - 48) else None.

(** Decimal digits of a non-negative integer, least significant first. *)
Fixpoint lsb_digits (fuel : nat) (n : Z) : list Z :=
  match fuel with
  | O => []
  | S f => (n mod 10) :: (if n / 10 =? 0 then [] else lsb_digits f (n / 10))
  end.

(** The value of a digit list read least significant digit first. *)
Definition lsb_value (ds : list Z) : Z := foldr (λ d a, d + 10 * a) 0 ds.

(** [str(n)] for [n >= 0], as a list of characters. *)
Definition dec_chars (n : Z) : list ascii :=
  digit_char <$> rev (lsb_digits (S (Z.to_nat (Z.log2 n))) n).

Definition string_of_chars (l : list ascii) : string :=
  fold_right String EmptyString l.

Fixpoint chars_of_string (s : string) : list ascii :=
  match s with
  | EmptyString => []
  | String c r => c :: chars_of_string r
  end.

(** [f"{n:0{width}d}"]: sign first, then zeros up to the width, then the
    decimal digits of the absolute value. *)
Definition format_0d (width : nat) (n : Z) : string :=
  let ds := dec_chars (Z.abs n) in
  if n <? 0
  then string_of_chars
         ("-"%char :: replicate (width - 1 - length ds)%nat "0"%char ++ ds)
  else string_of_chars (replicate (width - length ds)%nat "0"%char ++ ds).

(** [str(n)] for an integer. *)
Definition str (n : Z) : string :=
  let ds := dec_chars (Z.abs n) in
  string_of_chars (if n <? 0 then "-"%char :: ds else ds).

(** [str(e)] for a caught exception: only the class is modelled, so the text
    is the class name. *)
Definition str_exn (e : exn) : string :=
  match e with
  | ValueError => "ValueError"
  | OSError => "OSError"
  | ZeroDivisionError => "ZeroDivisionError"
  | Exception => "Exception"
  | SystemExit => "SystemExit"
  end.

(** Thousands separators over digits given least significant first; [k]
    counts the digits already in the current group. *)
Fixpoint commas (k : nat) (l : list ascii) : list ascii :=
  match l with
  | [] => []
  | c :: r =>
      match r with
      | [] => [c]
      | _ => if (k =? 2)%nat then c :: ","%char :: commas 0 r
             else c :: commas (S k) r
      end
  end.

(** [f"{n:,}"] *)
Definition format_comma (n : Z) : string :=
  let ds := rev (commas 0 (rev (dec_chars (Z.abs n)))) in
  string_of_chars (if n <? 0 then "-"%char :: ds else ds).

(** A character of a [str] is a code point below 256; strings with other
    code points are outside the model.

    The characters that [int()] skips around a number: it reads code points
    below 127 as they are and skips those for which C's [isspace] holds (9
    to 13 and 32), and it turns a white-space code point from 127 on into a
    space before it reads, of which there are two below 256 (133 and 160).
    The separators 28 to 31, which [str.strip()] removes, are not among
    them. *)
Definition is_space (c : ascii) : bool :=
  let k := nat_of_ascii c in
  ((9 <=? k)%nat && (k <=? 13)%nat) || (k =? 32)%nat
  || (k =? 133)%nat || (k =? 160)%nat.

Fixpoint lstrip (l : list ascii) : list ascii :=
  match l with
  | c :: r => if is_space c then lstrip r else l
  | [] => []
  end.

Definition strip (l : list ascii) : list ascii := rev (lstrip (rev (lstrip l))).

(** The digit part of an integer literal: decimal digits, single underscores
    allowed between two digits only. *)
Fixpoint int_digits (prev_digit : bool) (acc : Z) (l : list ascii) : option Z :=
  match l with
  | [] => if prev_digit then Some acc else None
  | c :: r =>
      match digit_of_ascii c with
      | Some d => int_digits true (10 * acc + d) r
      | None =>
          if Ascii.eqb c "_"%char && prev_digit
          then int_digits false acc r
          else None
      end
  end.

(** [int(s)]: white space around, an optional sign, then the digits; [None]
    stands for [ValueError].  No code point from 127 to 255 is a decimal
    digit, so that only ["0"] to ["9"] are read as digits. *)
Definition int (s : string) : option Z :=
  match strip (chars_of_string s) with
  | c :: r =>
      if Ascii.eqb c "-"%char then Z.opp <$> int_digits false 0 r
      else if Ascii.eqb c "+"%char then int_digits false 0 r
      else int_digits false 0 (c :: r)
  | [] => None
  end.

(** [range(a, b)] *)
Definition range (a b : Z) : list Z := seqZ a (b - a).

(** [a / b] on two integers: [ZeroDivisionError] for a zero divisor, else the
    quotient, kept exact where Python rounds it to a float. *)
Definition truediv (a b : Z) : outcome Q :=
  if b =? 0 then Raises ZeroDivisionError
  else Returns (inject_Z a / inject_Z b)%Q.

(** [l.index(x)]: the first position of [x]; [None] stands for
    [ValueError]. *)
Definition index (x : string) (l : list string) : option nat :=
  fst <$> list_find (λ y, y = x) l.

End Py.

(** ** config.py *)

Module Config.

Record registration_t := {
  council_codes : list string;
  student_number_min : Z;
  student_number_max : Z;
  total_length : Z
}.

Record crawler_t := {
  concurrency : Z;
  retry_attempts : Z;
  batch_size : Z;
  save_interval : Z
}.

Record t := {
  registration : registration_t;
  crawler : crawler_t
}.

(** [Config()] *)
Definition new : t := {|
  registration := {|
    council_codes := Py.format_0d 2 <$> Py.range 1 66;
    student_number_min := 1;
    student_number_max := 999999;
    total_length := 8 |};
  crawler := {|
    concurrency := 10;
    retry_attempts := 2;
    batch_size := 1000;
    save_interval := 100 |}
|}.

End Config.

(** ** registration_number_generator.py *)

Module RegistrationNumberGenerator.

Record t := {
  config : Config.t;
  council_codes : list string;
  student_number_min : Z;
  student_number_max : Z
}.

(** [RegistrationNumberGenerator()] *)
Definition new : t :=
  let config := Config.new in {|
  config := config;
  council_codes := Config.council_codes (Config.registration config);
  student_number_min := Config.student_number_min (Config.registration config);
  student_number_max := Config.student_number_max (Config.registration config)
|}.

Definition generate_single (self : t) (council_code : string)
    (student_number : Z) : string :=
  let padded_student_number := Py.format_0d 6 student_number in
  council_code +:+ padded_student_number.

Definition generate_for_council (self : t) (council_code : string)
    : list string :=
  fold_left (fun numbers i => numbers ++ [generate_single self council_code i])
    (Py.range (student_number_min self) (student_number_max self + 1)) [].

Definition generate_all (self : t) : list string :=
  fold_left
    (fun all_numbers council_code =>
       all_numbers ++ generate_for_council self council_code)
    (council_codes self) [].

(** The inner [for i in range(...)] of [generate_batches] for one council,
    followed by the trailing [if batch: yield batch]; the result lists the
    batches yielded, in order. *)
Fixpoint batches_loop (self : t) (batch_size : Z) (council_code : string)
    (todo : list Z) (batch : list string) : list (list string) :=
  match todo with
  | [] => match batch with [] => [] | _ => [batch] end
  | i :: rest =>
      let batch := batch ++ [generate_single self council_code i] in
      if Z.of_nat (length batch) =? batch_size
      then batch :: batches_loop self batch_size council_code rest []
      else batches_loop self batch_size council_code rest batch
  end.

(** What [generate_batches] yields while [council_code] is the loop
    variable of its outer loop. *)
Definition council_batches (self : t) (batch_size : Z) (council_code : string)
    : list (list string) :=
  batches_loop self batch_size council_code
    (Py.range (student_number_min self) (student_number_max self + 1)) [].

(** [if batch_size is None: batch_size = self.config.crawler["batch_size"]] *)
Definition effective_batch_size (self : t) (batch_size : option Z) : Z :=
  match batch_size with
  | None => Config.batch_size (Config.crawler (config self))
  | Some b => b
  end.

(** The generator [generate_batches], as the list of what it yields. *)
Definition generate_batches (self : t) (batch_size : option Z)
    : list (list string) :=
  let batch_size := effective_batch_size self batch_size in
  council_code ← council_codes self;
  council_batches self batch_size council_code.

Definition is_valid_format (self : t) (registration_number : string) : bool :=
  if negb (String.length registration_number =? 8)%nat then false
  else
    let council_code := Py.str_take 2 registration_number in
    let student_number := Py.str_drop 2 registration_number in
    if negb (bool_decide (council_code ∈ council_codes self)) then false
    else
      match Py.int student_number with
      | Some student_num =>
          if (student_num <? student_number_min self)
             || (student_num >? student_number_max self)
          then false
          else true
      | None => false
      end.

Record parsed := {
  council_code : string;
  student_number : Z;
  full : string
}.

Definition parse (self : t) (registration_number : string)
    : Py.outcome parsed :=
  if negb (is_valid_format self registration_number)
  then Py.Raises Py.ValueError
  else
    match Py.int (Py.str_drop 2 registration_number) with
    | Some n =>
        Py.Returns {| council_code := Py.str_take 2 registration_number;
                      student_number := n;
                      full := registration_number |}
    | None => Py.Raises Py.ValueError
    end.

Definition get_total_count (self : t) : Z :=
  Z.of_nat (length (council_codes self))
  * (student_number_max self - student_number_min self + 1).

(** [generate_range]: both [index] calls sit in one [try] whose handler
    raises [ValueError("Invalid council codes")].  [council_index] runs over
    [range(start_council_index, end_council_index + 1)]; it lies between two
    positions that [index] found, so [self.council_codes[council_index]]
    cannot fail and is read with a default. *)
Definition generate_range (self : t) (start_council : string)
    (start_student : Z) (end_council : string) (end_student : Z)
    : Py.outcome (list string) :=
  match Py.index start_council (council_codes self),
        Py.index end_council (council_codes self) with
  | Some start_council_index, Some end_council_index =>
      Py.Returns
        (fold_left
           (λ numbers council_index,
              let council_code :=
                default EmptyString (council_codes self !! council_index) in
              let min_student :=
                if (council_index =? start_council_index)%nat
                then start_student else student_number_min self in
              let max_student :=
                if (council_index =? end_council_index)%nat
                then end_student else student_number_max self in
              fold_left
                (λ numbers student_num,
                   numbers ++ [generate_single self council_code student_num])
                (Py.range min_student (max_student + 1)) numbers)
           (seq start_council_index
              (end_council_index + 1 - start_council_index))
           [])
  | _, _ => Py.Raises Py.ValueError
  end.

Record stats := {
  total_registration_numbers : Z;
  council_codes_count : Z;
  student_number_range_min : Z;
  student_number_range_max : Z;
  student_number_range_count : Z;
  stats_batch_size : Z;
  total_batches : Z
}.

Definition get_stats (self : t) : stats :=
  let total_count := get_total_count self in
  let size := Config.batch_size (Config.crawler (config self)) in
  let batch_count := (total_count + size - 1) `div` size in
  {| total_registration_numbers := total_count;
     council_codes_count := Z.of_nat (length (council_codes self));
     student_number_range_min := student_number_min self;
     student_number_range_max := student_number_max self;
     student_number_range_count :=
       student_number_max self - student_number_min self + 1;
     stats_batch_size := size;
     total_batches := batch_count |}.

End RegistrationNumberGenerator.

(** ** The objects of a run and the world around them *)

Module World.

(** One entry of a council's list in [skip_ranges]. *)
Record skip_range := {
  start : Z;
  end_ : Z;
  reason : string;
  added_at : string
}.

(** The fields of a [CrawlerSkipManager]; [logger] tells whether a logger
    object was passed to the constructor ([if self.logger:]). *)
Record skip_manager := {
  skip_ranges : gmap string (list skip_range);
  council_limits : gmap string Z;
  invalid_patterns : gset string;
  consecutive_failures : gmap string Z;
  last_valid_number : gmap string Z;
  failure_threshold : Z;
  logger : bool
}.

(** A found record: the dictionary the backends return. *)
Record student := {
  registration_number : string;
  scores : list (string * string)
}.

(** The fields of a [ResultsSaver]. *)
Record results_saver := {
  results : list student;
  total_processed : Z;
  successful : Z;
  failed : Z
}.

(** What [summary.txt] says under "Statistics:". *)
Record summary := {
  summary_total_processed : Z;
  summary_successful : Z;
  summary_failed : Z;
  summary_success_rate : Q
}.

(** The files the run writes, each holding the document last dumped to it;
    [None] when the file does not exist. *)
Record files := {
  skip_ranges_file : option (gmap string (list skip_range));
  council_limits_file : option (gmap string Z);
  invalid_patterns_file : option (gset string);
  json_file : option (list student);
  csv_file : option (list student);
  summary_file : option summary
}.

Inductive level := DEBUG | INFO | WARNING | ERROR.

(** [writes] scripts the environment: the outcome of each coming attempt to
    open a file for writing, [false] for one that fails with [OSError]; an
    exhausted script means success.  [scrapes] and [fetches] script the
    answers of the two backends in the same way.  [requests] records what was
    sent to a backend, [ctime] is [str(os.path.getctime(__file__))]. *)
Record t := {
  ledger : skip_manager;
  saver : results_saver;
  disk : files;
  writes : list bool;
  log : list (level * string);
  scrapes : list (Py.outcome (option student));
  fetches : list (list student);
  requests : list (list string);
  ctime : string
}.

Definition set_ledger (f : skip_manager → skip_manager) (w : t) : t :=
  {| ledger := f (ledger w); saver := saver w; disk := disk w;
     writes := writes w; log := log w; scrapes := scrapes w;
     fetches := fetches w; requests := requests w; ctime := ctime w |}.

Definition set_saver (f : results_saver → results_saver) (w : t) : t :=
  {| ledger := ledger w; saver := f (saver w); disk := disk w;
     writes := writes w; log := log w; scrapes := scrapes w;
     fetches := fetches w; requests := requests w; ctime := ctime w |}.

Definition set_disk (f : files → files) (w : t) : t :=
  {| ledger := ledger w; saver := saver w; disk := f (disk w);
     writes := writes w; log := log w; scrapes := scrapes w;
     fetches := fetches w; requests := requests w; ctime := ctime w |}.

Definition set_writes (f : list bool → list bool) (w : t) : t :=
  {| ledger := ledger w; saver := saver w; disk := disk w;
     writes := f (writes w); log := log w; scrapes := scrapes w;
     fetches := fetches w; requests := requests w; ctime := ctime w |}.

Definition set_log (f : list (level * string) → list (level * string))
    (w : t) : t :=
  {| ledger := ledger w; saver := saver w; disk := disk w;
     writes := writes w; log := f (log w); scrapes := scrapes w;
     fetches := fetches w; requests := requests w; ctime := ctime w |}.

Definition set_scrapes
    (f : list (Py.outcome (option student))
         → list (Py.outcome (option student)))
    (w : t) : t :=
  {| ledger := ledger w; saver := saver w; disk := disk w;
     writes := writes w; log := log w; scrapes := f (scrapes w);
     fetches := fetches w; requests := requests w; ctime := ctime w |}.

Definition set_fetches (f : list (list student) → list (list student))
    (w : t) : t :=
  {| ledger := ledger w; saver := saver w; disk := disk w;
     writes := writes w; log := log w; scrapes := scrapes w;
     fetches := f (fetches w); requests := requests w; ctime := ctime w |}.

Definition set_requests (f : list (list string) → list (list string))
    (w : t) : t :=
  {| ledger := ledger w; saver := saver w; disk := disk w;
     writes := writes w; log := log w; scrapes := scrapes w;
     fetches := fetches w; requests := f (requests w); ctime := ctime w |}.

End World.

(** ** Statements that read and change the world, and may raise *)

Definition M (A : Type) : Type := World.t → Py.outcome A * World.t.

#[global] Instance M_ret : MRet M := λ A a w, (Py.Returns a, w).

#[global] Instance M_bind : MBind M := λ A B f m w,
  match m w with
  | (Py.Returns a, w') => f a w'
  | (Py.Raises e, w') => (Py.Raises e, w')
  end.

Definition raise {A} (e : Py.exn) : M A := λ w, (Py.Raises e, w).

(** An expression that returns or raises without touching the world. *)
Definition lift {A} (o : Py.outcome A) : M A := λ w, (o, w).

(** [try: body except Exception as e: handler(e)] *)
Definition try_except {A} (body : M A) (handler : Py.exn → M A) : M A := λ w,
  match body w with
  | (Py.Returns a, w') => (Py.Returns a, w')
  | (Py.Raises e, w') =>
      if Py.is_exception e then handler e w' else (Py.Raises e, w')
  end.

(** [for x in l: body(x)] *)
Fixpoint for_each {A} (l : list A) (body : A → M unit) : M unit :=
  match l with
  | [] => mret tt
  | x :: r => body x;; for_each r body
  end.

Definition get : M World.t := λ w, (Py.Returns w, w).

Definition modify (f : World.t → World.t) : M unit := λ w, (Py.Returns tt, f w).

Definition when (b : bool) (m : M unit) : M unit := if b then m else mret tt.

(** [int(s)] as a statement. *)
Definition int_of (s : string) : M Z :=
  match Py.int s with
  | Some n => mret n
  | None => raise Py.ValueError
  end.

(** Opening a file for writing and dumping [doc] to it: the next scripted
    outcome decides.  A failed attempt is one in which [os.makedirs] or
    [open] raises, so that the file is left as it was; a failure after the
    file was opened, which would leave it cut short, is not modelled. *)
Definition write_file (store : World.files → World.files) : M unit := λ w,
  match World.writes w with
  | false :: rest => (Py.Raises Py.OSError, World.set_writes (λ _, rest) w)
  | _ => (Py.Returns tt,
          World.set_disk store (World.set_writes (λ l, tail l) w))
  end.

Definition logging (lvl : World.level) (message : string) : M unit :=
  modify (World.set_log (λ l, l ++ [(lvl, message)])).

(** ** crawler_skip_manager.py *)

Module CrawlerSkipManager.
Import World.

Definition set_skip_ranges (v : gmap string (list skip_range))
    (s : skip_manager) : skip_manager :=
  {| skip_ranges := v; council_limits := council_limits s;
     invalid_patterns := invalid_patterns s;
     consecutive_failures := consecutive_failures s;
     last_valid_number := last_valid_number s;
     failure_threshold := failure_threshold s; logger := logger s |}.

Definition set_council_limits (v : gmap string Z) (s : skip_manager)
    : skip_manager :=
  {| skip_ranges := skip_ranges s; council_limits := v;
     invalid_patterns := invalid_patterns s;
     consecutive_failures := consecutive_failures s;
     last_valid_number := last_valid_number s;
     failure_threshold := failure_threshold s; logger := logger s |}.

Definition set_invalid_patterns (v : gset string) (s : skip_manager)
    : skip_manager :=
  {| skip_ranges := skip_ranges s; council_limits := council_limits s;
     invalid_patterns := v;
     consecutive_failures := consecutive_failures s;
     last_valid_number := last_valid_number s;
     failure_threshold := failure_threshold s; logger := logger s |}.

Definition set_consecutive_failures (v : gmap string Z) (s : skip_manager)
    : skip_manager :=
  {| skip_ranges := skip_ranges s; council_limits := council_limits s;
     invalid_patterns := invalid_patterns s;
     consecutive_failures := v;
     last_valid_number := last_valid_number s;
     failure_threshold := failure_threshold s; logger := logger s |}.

Definition set_last_valid_number (v : gmap string Z) (s : skip_manager)
    : skip_manager :=
  {| skip_ranges := skip_ranges s; council_limits := council_limits s;
     invalid_patterns := invalid_patterns s;
     consecutive_failures := consecutive_failures s;
     last_valid_number := v;
     failure_threshold := failure_threshold s; logger := logger s |}.

(** [CrawlerSkipManager(logger)] when none of the three files exists. *)
Definition new : skip_manager := {|
  skip_ranges := ∅;
  council_limits := ∅;
  invalid_patterns := ∅;
  consecutive_failures := ∅;
  last_valid_number := ∅;
  failure_threshold := 100;
  logger := true
|}.

(** [self] *)
Definition self : M skip_manager := w ← get; mret (ledger w).

Definition log_if_logger (lvl : level) (message : string) : M unit :=
  s ← self; when (logger s) (logging lvl message).

Definition _save_skip_ranges : M unit :=
  s ← self;
  write_file (λ d,
    {| skip_ranges_file := Some (skip_ranges s);
       council_limits_file := council_limits_file d;
       invalid_patterns_file := invalid_patterns_file d;
       json_file := json_file d; csv_file := csv_file d;
       summary_file := summary_file d |}).

Definition _save_council_limits : M unit :=
  s ← self;
  write_file (λ d,
    {| skip_ranges_file := skip_ranges_file d;
       council_limits_file := Some (council_limits s);
       invalid_patterns_file := invalid_patterns_file d;
       json_file := json_file d; csv_file := csv_file d;
       summary_file := summary_file d |}).

Definition _save_invalid_patterns : M unit :=
  s ← self;
  write_file (λ d,
    {| skip_ranges_file := skip_ranges_file d;
       council_limits_file := council_limits_file d;
       invalid_patterns_file := Some (invalid_patterns s);
       json_file := json_file d; csv_file := csv_file d;
       summary_file := summary_file d |}).

(** [skip_range["start"] <= student_number <= skip_range["end"]] *)
Definition in_range (student_number : Z) (r : skip_range) : bool :=
  (start r <=? student_number) && (student_number <=? end_ r).

Definition should_skip (registration_number : string) : M bool :=
  let council_code := Py.str_take 2 registration_number in
  student_number ← int_of (Py.str_drop 2 registration_number);
  s ← self;
  if match council_limits s !! council_code with
     | Some limit => student_number >? limit
     | None => false
     end
  then mret true
  else if match skip_ranges s !! council_code with
          | Some ranges => existsb (in_range student_number) ranges
          | None => false
          end
  then mret true
  else if bool_decide (registration_number ∈ invalid_patterns s)
  then mret true
  else mret false.

Definition add_skip_range (council_code : string) (start_student : Z)
    (end_student : Z) (reason : string) : M unit :=
  w ← get;
  let s := ledger w in
  let ranges := default [] (skip_ranges s !! council_code) in
  let entry := {| start := start_student; end_ := end_student;
                  reason := reason; added_at := ctime w |} in
  modify (set_ledger
            (set_skip_ranges
               (<[council_code := ranges ++ [entry]]> (skip_ranges s))));;
  _save_skip_ranges.

Definition record_failure (registration_number : string) (error_type : string)
    : M unit :=
  let council_code := Py.str_take 2 registration_number in
  student_number ← int_of (Py.str_drop 2 registration_number);
  let key := council_code +:+ "_" +:+ Py.str student_number in
  s ← self;
  let count := default 0 (consecutive_failures s !! key) + 1 in
  modify (set_ledger
            (set_consecutive_failures
               (<[key := count]> (consecutive_failures s))));;
  modify (set_ledger
            (λ s, set_invalid_patterns
                    ({[registration_number]} ∪ invalid_patterns s) s));;
  if count >=? failure_threshold s
  then
    add_skip_range council_code student_number (student_number + 1000)
      "consecutive_failures";;
    log_if_logger WARNING
      ("Added skip range for " +:+ council_code +:+ " starting at "
       +:+ Py.str student_number +:+ " due to consecutive failures")
  else mret tt.

Definition record_success (registration_number : string) : M unit :=
  let council_code := Py.str_take 2 registration_number in
  student_number ← int_of (Py.str_drop 2 registration_number);
  s ← self;
  modify (set_ledger
            (set_last_valid_number
               (<[council_code :=
                    Z.max (default 0 (last_valid_number s !! council_code))
                          student_number]> (last_valid_number s))));;
  let key := council_code +:+ "_" +:+ Py.str student_number in
  modify (set_ledger
            (λ s, set_consecutive_failures
                    (<[key := 0]> (consecutive_failures s)) s)).

(** [current_limit = self.council_limits.get(council_code, float("inf"))]
    followed by [max_student_number < current_limit]: an absent limit is
    above every integer. *)
Definition below_limit (max_student_number : Z) (current_limit : option Z)
    : bool :=
  match current_limit with
  | Some limit => max_student_number <? limit
  | None => true
  end.

Definition set_council_limit (council_code : string) (max_student_number : Z)
    : M unit :=
  s ← self;
  let current_limit := council_limits s !! council_code in
  if below_limit max_student_number current_limit
  then
    modify (set_ledger
              (set_council_limits
                 (<[council_code := max_student_number]> (council_limits s))));;
    _save_council_limits;;
    log_if_logger INFO
      ("Updated council " +:+ council_code +:+ " limit to "
       +:+ Py.str max_student_number)
  else mret tt.

Record skip_stats := {
  councils_with_limits : nat;
  total_skip_ranges : nat;
  invalid_patterns_count : nat;
  consecutive_failures_tracked : nat;
  last_valid_numbers : nat
}.

Definition get_skip_stats : M skip_stats :=
  s ← self;
  mret {| councils_with_limits := size (council_limits s);
          total_skip_ranges :=
            map_fold (λ _ ranges n, (length ranges + n)%nat) 0%nat
              (skip_ranges s);
          invalid_patterns_count := size (invalid_patterns s);
          consecutive_failures_tracked := size (consecutive_failures s);
          last_valid_numbers := size (last_valid_number s) |}.

Definition save_all : M unit :=
  _save_skip_ranges;;
  _save_council_limits;;
  _save_invalid_patterns;;
  log_if_logger INFO "Saved all skip data to files".

(** The three [_load_*] methods, for files that are absent or hold a
    document this class dumped: an absent file gives the empty structure, a
    present one its document and an info line.  A file that cannot be read or
    parsed (the [except] branches) is outside the model. *)
Definition _load_skip_ranges (logger : bool)
    : M (gmap string (list skip_range)) :=
  w ← get;
  match skip_ranges_file (disk w) with
  | Some data =>
      when logger
        (logging INFO
           ("Loaded skip ranges for " +:+ Py.str (Z.of_nat (size data))
            +:+ " councils"));;
      mret data
  | None => mret ∅
  end.

Definition _load_council_limits (logger : bool) : M (gmap string Z) :=
  w ← get;
  match council_limits_file (disk w) with
  | Some data =>
      when logger
        (logging INFO
           ("Loaded limits for " +:+ Py.str (Z.of_nat (size data))
            +:+ " councils"));;
      mret data
  | None => mret ∅
  end.

Definition _load_invalid_patterns (logger : bool) : M (gset string) :=
  w ← get;
  match invalid_patterns_file (disk w) with
  | Some data =>
      when logger
        (logging INFO
           ("Loaded " +:+ Py.str (Z.of_nat (size data))
            +:+ " invalid patterns"));;
      mret data
  | None => mret ∅
  end.

(** [self.skip_manager = CrawlerSkipManager(logger)]: the constructor, with
    the new object taking the place of the ledger of the world. *)
Definition __init__ (logger : bool) : M unit :=
  ranges ← _load_skip_ranges logger;
  limits ← _load_council_limits logger;
  patterns ← _load_invalid_patterns logger;
  modify (set_ledger (λ _,
    {| skip_ranges := ranges;
       council_limits := limits;
       invalid_patterns := patterns;
       consecutive_failures := ∅;
       last_valid_number := ∅;
       failure_threshold := 100;
       logger := logger |})).

End CrawlerSkipManager.

(** ** results_saver.py *)

Module ResultsSaver.
Import World.

(** [ResultsSaver()] *)
Definition new : results_saver :=
  {| results := []; total_processed := 0; successful := 0; failed := 0 |}.

(** [add_result(result)]; [None] stands for a falsy argument. *)
Definition add_result (result : option student) : M unit :=
  modify (set_saver (λ s,
    match result with
    | Some d =>
        {| results := results s ++ [d];
           total_processed := total_processed s + 1;
           successful := successful s + 1;
           failed := failed s |}
    | None =>
        {| results := results s;
           total_processed := total_processed s + 1;
           successful := successful s;
           failed := failed s |}
    end)).

(** The value printed after "Success Rate:", before it is rounded to one
    decimal: [(successful / max(1, total_processed)) * 100]. *)
Definition success_rate (s : results_saver) : Py.outcome Q :=
  match Py.truediv (successful s) (Z.max 1 (total_processed s)) with
  | Py.Returns q => Py.Returns (q * 100)%Q
  | Py.Raises e => Py.Raises e
  end.

Definition save_json : M unit :=
  w ← get;
  write_file (λ d,
    {| skip_ranges_file := skip_ranges_file d;
       council_limits_file := council_limits_file d;
       invalid_patterns_file := invalid_patterns_file d;
       json_file := Some (results (saver w)); csv_file := csv_file d;
       summary_file := summary_file d |}).

(** [save_csv] returns at once, without opening the file, when there is no
    result. *)
Definition save_csv : M unit :=
  w ← get;
  match results (saver w) with
  | [] => mret tt
  | _ :: _ =>
      write_file (λ d,
        {| skip_ranges_file := skip_ranges_file d;
           council_limits_file := council_limits_file d;
           invalid_patterns_file := invalid_patterns_file d;
           json_file := json_file d; csv_file := Some (results (saver w));
           summary_file := summary_file d |})
  end.

Definition save_summary : M unit :=
  modify (set_saver (λ s,
    {| results := results s; total_processed := total_processed s;
       successful := successful s;
       failed := total_processed s - successful s |}));;
  w ← get;
  let s := saver w in
  rate ← lift (success_rate s);
  let summary_content :=
    {| summary_total_processed := total_processed s;
       summary_successful := successful s;
       summary_failed := failed s;
       summary_success_rate := rate |} in
  write_file (λ d,
    {| skip_ranges_file := skip_ranges_file d;
       council_limits_file := council_limits_file d;
       invalid_patterns_file := invalid_patterns_file d;
       json_file := json_file d; csv_file := csv_file d;
       summary_file := Some summary_content |}).

Definition save_all : M unit := save_json;; save_csv;; save_summary.

End ResultsSaver.

(** ** main.py *)

Module Main.
Import World.

(** What [crawl_registration_number] returns: [False] for a number the ledger
    says to skip, the record when one was found, [None] otherwise. *)
Inductive crawled :=
| Skipped
| Found (result : student)
| NotFound.

(** [get_available_scraper()] followed by
    [scraper.scrape_registration_number(registration_number)]: the next
    scripted answer, no record once the script is exhausted. *)
Definition scrape_registration_number (registration_number : string)
    : M (option student) := λ w,
  let w' := set_requests (λ l, l ++ [[registration_number]])
              (set_scrapes (λ l, tail l) w) in
  match scrapes w with
  | Py.Returns r :: _ => (Py.Returns r, w')
  | Py.Raises e :: _ => (Py.Raises e, w')
  | [] => (Py.Returns None, w')
  end.

Definition max_retries : Z := 2.

Definition subject_count (d : student) : nat :=
  length (filter (λ kv, kv.1 ≠ "Total Score") (scores d)).

Definition total_score (d : student) : string :=
  match list_find (λ kv, kv.1 = "Total Score") (scores d) with
  | Some (_, kv) => kv.2
  | None => "N/A"
  end.

(** The [for attempt in range(max_retries)] loop of
    [crawl_registration_number]. *)
Fixpoint attempts (registration_number : string) (todo : list Z) : M crawled :=
  match todo with
  | [] => mret NotFound
  | attempt :: rest =>
      try_except
        (result ← scrape_registration_number registration_number;
         match result with
         | Some d =>
             CrawlerSkipManager.record_success registration_number;;
             logging INFO
               ("Successfully crawled " +:+ registration_number +:+ ": "
                +:+ Py.str (Z.of_nat (subject_count d)) +:+ " subjects, Total: "
                +:+ total_score d);;
             mret (Found d)
         | None =>
             CrawlerSkipManager.record_failure registration_number "not_found";;
             logging DEBUG ("No data found for " +:+ registration_number);;
             mret NotFound
         end)
        (λ e,
           logging WARNING
             ("Attempt " +:+ Py.str (attempt + 1) +:+ " failed for "
              +:+ registration_number +:+ ": " +:+ Py.str_exn e);;
           if attempt <? max_retries - 1
           then attempts registration_number rest
           else
             CrawlerSkipManager.record_failure registration_number "error";;
             logging ERROR
               ("Error crawling " +:+ registration_number +:+ " after "
                +:+ Py.str max_retries +:+ " attempts: " +:+ Py.str_exn e);;
             mret NotFound)
  end.

Definition crawl_registration_number (registration_number : string)
    : M crawled :=
  skip ← CrawlerSkipManager.should_skip registration_number;
  if (skip : bool)
  then
    logging DEBUG
      ("Skipping " +:+ registration_number +:+ " (marked for skip)");;
    mret Skipped
  else attempts registration_number (Py.range 0 max_retries).

(** The dictionary that [process_batch] fills and returns, one field per
    key. *)
Record batch_results := {
  results_total : Z;
  results_successful : Z;
  results_failed : Z;
  results_skipped : Z;
  results_found_data : list string
}.

(** [for registration_number in batch: ...] of [process_batch]. *)
Fixpoint process_batch_loop (batch : list string) (results : batch_results)
    : M batch_results :=
  match batch with
  | [] => mret results
  | registration_number :: rest =>
      skip ← CrawlerSkipManager.should_skip registration_number;
      if (skip : bool)
      then
        process_batch_loop rest
          {| results_total := results_total results;
             results_successful := results_successful results;
             results_failed := results_failed results;
             results_skipped := results_skipped results + 1;
             results_found_data := results_found_data results |}
      else
        result ← crawl_registration_number registration_number;
        match result with
        | Found d =>
            ResultsSaver.add_result (Some d);;
            process_batch_loop rest
              {| results_total := results_total results;
                 results_successful := results_successful results + 1;
                 results_failed := results_failed results;
                 results_skipped := results_skipped results;
                 results_found_data :=
                   results_found_data results ++ [registration_number] |}
        | _ =>
            process_batch_loop rest
              {| results_total := results_total results;
                 results_successful := results_successful results;
                 results_failed := results_failed results + 1;
                 results_skipped := results_skipped results;
                 results_found_data := results_found_data results |}
        end
  end.

Definition process_batch (batch : list string) : M batch_results :=
  process_batch_loop batch
    {| results_total := Z.of_nat (length batch);
       results_successful := 0;
       results_failed := 0;
       results_skipped := 0;
       results_found_data := [] |}.

(** The counters of [main]. *)
Record locals := {
  consecutive_failures : Z;
  student_number : Z;
  council_successful : Z;
  total_processed : Z;
  total_successful : Z;
  total_failed : Z;
  total_skipped : Z;
  last_save_count : Z
}.

(** One turn of [while consecutive_failures < 10].  [if result:] holds for a
    found record only (it is never an empty dict): both [False] and [None]
    take the [else] branch. *)
Definition iteration (council_code : string) (l : locals) : M locals :=
  let registration_number :=
    council_code +:+ Py.format_0d 6 (student_number l) in
  result ← crawl_registration_number registration_number;
  l ← match result with
      | Found d =>
          ResultsSaver.add_result (Some d);;
          let l :=
            {| consecutive_failures := 0;
               student_number := student_number l;
               council_successful := council_successful l + 1;
               total_processed := total_processed l;
               total_successful := total_successful l + 1;
               total_failed := total_failed l;
               total_skipped := total_skipped l;
               last_save_count := last_save_count l |} in
          if total_successful l - last_save_count l >=? 100
          then
            logging INFO
              ("Auto-saving results after " +:+ Py.str (total_successful l)
               +:+ " successful students...");;
            ResultsSaver.save_all;;
            logging INFO "Auto-save completed";;
            mret {| consecutive_failures := consecutive_failures l;
                    student_number := student_number l;
                    council_successful := council_successful l;
                    total_processed := total_processed l;
                    total_successful := total_successful l;
                    total_failed := total_failed l;
                    total_skipped := total_skipped l;
                    last_save_count := total_successful l |}
          else mret l
      | _ =>
          mret {| consecutive_failures := consecutive_failures l + 1;
                  student_number := student_number l;
                  council_successful := council_successful l;
                  total_processed := total_processed l;
                  total_successful := total_successful l;
                  total_failed := total_failed l + 1;
                  total_skipped := total_skipped l;
                  last_save_count := last_save_count l |}
      end;
  let l :=
    {| consecutive_failures := consecutive_failures l;
       student_number := student_number l + 1;
       council_successful := council_successful l;
       total_processed := total_processed l + 1;
       total_successful := total_successful l;
       total_failed := total_failed l;
       total_skipped := total_skipped l;
       last_save_count := last_save_count l |} in
  when (student_number l `mod` 1000 =? 0)
    (logging INFO
       ("Council " +:+ council_code +:+ ": Processed "
        +:+ Py.format_comma (student_number l) +:+ " students, Found "
        +:+ Py.str (council_successful l) +:+ ", Consecutive failures: "
        +:+ Py.str (consecutive_failures l)));;
  mret l.

Definition with_consecutive_failures (v : Z) (l : locals) : locals :=
  {| consecutive_failures := v; student_number := student_number l;
     council_successful := council_successful l;
     total_processed := total_processed l;
     total_successful := total_successful l; total_failed := total_failed l;
     total_skipped := total_skipped l; last_save_count := last_save_count l |}.

Definition with_student_number (v : Z) (l : locals) : locals :=
  {| consecutive_failures := consecutive_failures l; student_number := v;
     council_successful := council_successful l;
     total_processed := total_processed l;
     total_successful := total_successful l; total_failed := total_failed l;
     total_skipped := total_skipped l; last_save_count := last_save_count l |}.

Definition with_council_successful (v : Z) (l : locals) : locals :=
  {| consecutive_failures := consecutive_failures l;
     student_number := student_number l; council_successful := v;
     total_processed := total_processed l;
     total_successful := total_successful l; total_failed := total_failed l;
     total_skipped := total_skipped l; last_save_count := last_save_count l |}.

Definition with_total_processed (v : Z) (l : locals) : locals :=
  {| consecutive_failures := consecutive_failures l;
     student_number := student_number l;
     council_successful := council_successful l; total_processed := v;
     total_successful := total_successful l; total_failed := total_failed l;
     total_skipped := total_skipped l; last_save_count := last_save_count l |}.

Definition with_total_successful (v : Z) (l : locals) : locals :=
  {| consecutive_failures := consecutive_failures l;
     student_number := student_number l;
     council_successful := council_successful l;
     total_processed := total_processed l; total_successful := v;
     total_failed := total_failed l; total_skipped := total_skipped l;
     last_save_count := last_save_count l |}.

Definition with_total_failed (v : Z) (l : locals) : locals :=
  {| consecutive_failures := consecutive_failures l;
     student_number := student_number l;
     council_successful := council_successful l;
     total_processed := total_processed l;
     total_successful := total_successful l; total_failed := v;
     total_skipped := total_skipped l; last_save_count := last_save_count l |}.

Definition with_last_save_count (v : Z) (l : locals) : locals :=
  {| consecutive_failures := consecutive_failures l;
     student_number := student_number l;
     council_successful := council_successful l;
     total_processed := total_processed l;
     total_successful := total_successful l; total_failed := total_failed l;
     total_skipped := total_skipped l; last_save_count := v |}.

(** A statement of the turn: an assignment to the counters, or a call. *)
Inductive statement :=
| Assign (f : locals → locals)
| Call (m : locals → M unit).

(** The statements of a turn that follow the probe, one by one and in the
    order of the source: the four of [if result:], the four of the auto-save
    inside it, the two of [else:], and the three that close the turn. *)
Definition found_steps (result : student) : list statement :=
  [ Assign (λ l, with_council_successful (council_successful l + 1) l);
    Assign (with_consecutive_failures 0);
    Call (λ _, ResultsSaver.add_result (Some result));
    Assign (λ l, with_total_successful (total_successful l + 1) l) ].

Definition auto_save_steps : list statement :=
  [ Call (λ l, logging INFO
                 ("Auto-saving results after "
                  +:+ Py.str (total_successful l)
                  +:+ " successful students..."));
    Call (λ _, ResultsSaver.save_all);
    Assign (λ l, with_last_save_count (total_successful l) l);
    Call (λ _, logging INFO "Auto-save completed") ].

Definition missed_steps : list statement :=
  [ Assign (λ l, with_consecutive_failures (consecutive_failures l + 1) l);
    Assign (λ l, with_total_failed (total_failed l + 1) l) ].

Definition closing_steps (council_code : string) : list statement :=
  [ Assign (λ l, with_total_processed (total_processed l + 1) l);
    Assign (λ l, with_student_number (student_number l + 1) l);
    Call (λ l, when (student_number l `mod` 1000 =? 0)
                 (logging INFO
                    ("Council " +:+ council_code +:+ ": Processed "
                     +:+ Py.format_comma (student_number l)
                     +:+ " students, Found "
                     +:+ Py.str (council_successful l)
                     +:+ ", Consecutive failures: "
                     +:+ Py.str (consecutive_failures l)))) ].

(** The first [n] statements of a list, or all of them when there are fewer;
    the result tells how many of the [n] are left. *)
Fixpoint run_steps (n : nat) (todo : list statement) (l : locals)
    : M (locals * nat) :=
  match n, todo with
  | S n', Assign f :: rest => run_steps n' rest (f l)
  | S n', Call m :: rest => m l;; run_steps n' rest l
  | _, _ => mret (l, n)
  end.

(** What the assignments among some statements make of the counters. *)
Definition assigned (todo : list statement) (l : locals) : locals :=
  foldl (λ l s, match s with Assign f => f l | Call _ => l end) l todo.

(** A turn that the [KeyboardInterrupt] cuts: the probe has returned and
    [point] more statements of the turn have run when it arrives.  The
    result is the counters as the handler finds them.  The interrupt is
    taken between two statements of the turn; a call among them is not
    cut. *)
Definition interrupted_iteration (point : nat) (council_code : string)
    (l : locals) : M locals :=
  let registration_number :=
    council_code +:+ Py.format_0d 6 (student_number l) in
  result ← crawl_registration_number registration_number;
  '(l, n) ← match result with
            | Found d =>
                '(l, n) ← run_steps point (found_steps d) l;
                if total_successful l - last_save_count l >=? 100
                then run_steps n auto_save_steps l
                else mret (l, n)
            | _ => run_steps point missed_steps l
            end;
  '(l, _) ← run_steps n (closing_steps council_code) l;
  mret l.

(** [while consecutive_failures < 10: ...].  The user interrupts the run
    after [budget] whole turns: at the head of the next turn when [point] is
    0, and else in that turn, [point - 1] statements after its probe.  The
    result tells the budget left and whether the [KeyboardInterrupt]
    arrived.  An interrupt that arrives inside a probe or while a council is
    closed finds the counters as one between two turns does, and is not
    modelled apart. *)
Fixpoint while_loop (budget point : nat) (council_code : string) (l : locals)
    : M (locals * nat * bool) :=
  if consecutive_failures l <? 10
  then
    match budget with
    | O =>
        match point with
        | O => mret (l, O, true)
        | S point' =>
            l ← interrupted_iteration point' council_code l;
            mret (l, O, true)
        end
    | S budget' =>
        l ← iteration council_code l;
        while_loop budget' point council_code l
    end
  else mret (l, budget, false).

(** The body of [for council_num in range(1, 66)], then the rest of the
    loop. *)
Fixpoint councils (budget point : nat) (todo : list Z) (l : locals)
    : M (locals * bool) :=
  match todo with
  | [] => mret (l, false)
  | council_num :: rest =>
      let council_code := Py.format_0d 2 council_num in
      logging INFO ("Starting council " +:+ council_code);;
      let l :=
        {| consecutive_failures := 0;
           student_number := 1;
           council_successful := 0;
           total_processed := total_processed l;
           total_successful := total_successful l;
           total_failed := total_failed l;
           total_skipped := total_skipped l;
           last_save_count := last_save_count l |} in
      '(l, budget, interrupted) ← while_loop budget point council_code l;
      if (interrupted : bool) then mret (l, true)
      else
        logging INFO
          ("Council " +:+ council_code +:+ " completed: "
           +:+ Py.str (council_successful l) +:+ " students found after "
           +:+ Py.str (student_number l - 1)
           +:+ " attempts, stopped after 10 consecutive failures");;
        logging INFO
          ("Saving results after completing council " +:+ council_code
           +:+ "...");;
        ResultsSaver.save_all;;
        let l :=
          {| consecutive_failures := consecutive_failures l;
             student_number := student_number l;
             council_successful := council_successful l;
             total_processed := total_processed l;
             total_successful := total_successful l;
             total_failed := total_failed l;
             total_skipped := total_skipped l;
             last_save_count := total_successful l |} in
        logging INFO "Council results saved";;
        when (council_num <? 65)
          (logging INFO
             ("Moving to next council " +:+ Py.format_0d 2 (council_num + 1)));;
        councils budget point rest l
  end.

(** The metadata logged with "Simple crawler completed";
    [overall_success_rate] is
    [(total_successful / max(1, total_processed - total_skipped)) * 100],
    the value before it is rounded to one decimal and printed with a percent
    sign. *)
Record final_statistics := {
  stat_total_processed : Z;
  stat_total_successful : Z;
  stat_total_failed : Z;
  stat_total_skipped : Z;
  overall_success_rate : Q;
  councils_processed : Z
}.

Definition final_stats (l : locals) : Py.outcome final_statistics :=
  match Py.truediv (total_successful l)
          (Z.max 1 (total_processed l - total_skipped l)) with
  | Py.Returns q =>
      Py.Returns
        {| stat_total_processed := total_processed l;
           stat_total_successful := total_successful l;
           stat_total_failed := total_failed l;
           stat_total_skipped := total_skipped l;
           overall_success_rate := (q * 100)%Q;
           councils_processed := 65 |}
  | Py.Raises e => Py.Raises e
  end.

(** [main()], from the initialisation of the counters on; the scraper pool
    is taken as initialised, and the log lines of its set-up and clean-up are
    left out.  An exception that is not the interrupt leaves through the
    outer handler, which logs it and exits with status 1. *)
Definition main (budget point : nat) : M final_statistics :=
  try_except
    (let l :=
       {| consecutive_failures := 0; student_number := 1;
          council_successful := 0;
          total_processed := 0; total_successful := 0; total_failed := 0;
          total_skipped := 0; last_save_count := 0 |} in
     logging INFO
       "Starting simple crawl with consecutive failure detection...";;
     logging INFO
       "Processing all councils (01-65) with 10 consecutive failure limit";;
     logging INFO "Auto-saving results every 100 successful students";;
     '(l, interrupted) ← councils budget point (Py.range 1 66) l;
     (if (interrupted : bool)
      then
        logging INFO "Crawler interrupted by user";;
        logging INFO "Saving remaining results...";;
        ResultsSaver.save_all;;
        logging INFO "Emergency save completed"
      else logging INFO "All councils (01-65) processed successfully!");;
     logging INFO "Performing final save...";;
     ResultsSaver.save_all;;
     logging INFO "Final save completed";;
     stats ← lift (final_stats l);
     logging INFO "Simple crawler completed";;
     CrawlerSkipManager.save_all;;
     _ ← CrawlerSkipManager.get_skip_stats;
     logging INFO "Simple crawler completed successfully!";;
     mret stats)
    (λ e, logging ERROR (Py.str_exn e);; raise Py.SystemExit).

End Main.

(** ** main_enhanced.py *)

Module MainEnhanced.
Import World.

(** The fields of an [ApiCrawler] that the crawl reads and updates:
    [api_scraper] tells whether the scraper was initialised (it is [None]
    before), the rest is the [stats] dictionary. *)
Record api_crawler := {
  api_scraper : bool;
  total_processed : Z;
  total_successful : Z;
  total_failed : Z;
  last_save_count : Z
}.

(** [ApiCrawler()] after [initialize_scraper()] *)
Definition new : api_crawler :=
  {| api_scraper := true; total_processed := 0; total_successful := 0;
     total_failed := 0; last_save_count := 0 |}.

(** [self.api_scraper.fetch_batch(valid_numbers)]: the next scripted answer,
    the empty list once the script is exhausted; the scraper catches its own
    exceptions and returns the empty list for them. *)
Definition fetch_batch (registration_numbers : list string)
    : M (list student) := λ w,
  let w' := set_requests (λ l, l ++ [registration_numbers])
              (set_fetches (λ l, tail l) w) in
  (Py.Returns (default [] (head (fetches w))), w').

(** [[num for num in registration_numbers
      if not self.skip_manager.should_skip(num)]] *)
Fixpoint valid_numbers_of (registration_numbers : list string)
    : M (list string) :=
  match registration_numbers with
  | [] => mret []
  | num :: rest =>
      skip ← CrawlerSkipManager.should_skip num;
      valid ← valid_numbers_of rest;
      mret (if (skip : bool) then valid else num :: valid)
  end.

Definition crawl_batch_api (self : api_crawler)
    (registration_numbers : list string) : M (list student) :=
  if negb (api_scraper self) then mret []
  else
    valid_numbers ← valid_numbers_of registration_numbers;
    match valid_numbers with
    | [] => mret []
    | _ =>
        try_except
          (results ← fetch_batch valid_numbers;
           let found_numbers : gset string :=
             list_to_set (registration_number <$> results) in
           for_each valid_numbers (λ num,
             if bool_decide (num ∈ found_numbers)
             then CrawlerSkipManager.record_success num
             else CrawlerSkipManager.record_failure num "not_found");;
           mret results)
          (λ e,
             logging ERROR ("Batch API crawl failed: " +:+ Py.str_exn e);;
             mret [])
    end.

(** The counters of [crawl_council_fast], with the crawler they update. *)
Record locals := {
  self : api_crawler;
  consecutive_failures : Z;
  student_number : Z;
  council_successful : Z
}.

Definition batch_size : Z := 100.

(** [for i in range(batch_size): ...], building the batch. *)
Fixpoint create_batch (todo : list Z) (council_code : string)
    (consecutive_failures : Z) (student_number : Z) (batch : list string)
    : list string * Z :=
  match todo with
  | [] => (batch, student_number)
  | _ :: rest =>
      if consecutive_failures >=? 1000 then (batch, student_number)
      else
        let reg_num := council_code +:+ Py.format_0d 6 student_number in
        create_batch rest council_code consecutive_failures
          (student_number + 1) (batch ++ [reg_num])
  end.

Definition with_stats (c : api_crawler) (processed successful failed saved : Z)
    : api_crawler :=
  {| api_scraper := api_scraper c; total_processed := processed;
     total_successful := successful; total_failed := failed;
     last_save_count := saved |}.

(** One turn of [while consecutive_failures < 1000] for a batch that is not
    empty: the batch is fetched and reconciled, then the auto-save check and
    the progress update. *)
Definition process_batch (council_code : string) (batch : list string)
    (l : locals) : M locals :=
  results ← crawl_batch_api (self l) batch;
  l ← match results with
      | _ :: _ =>
          for_each results (λ result, ResultsSaver.add_result (Some result));;
          let found := Z.of_nat (length results) in
          let c := self l in
          let l :=
            {| self := with_stats c (total_processed c)
                         (total_successful c + found) (total_failed c)
                         (last_save_count c);
               consecutive_failures := 0;
               student_number := student_number l;
               council_successful := council_successful l + found |} in
          logging INFO
            ("Council " +:+ council_code +:+ ": Found " +:+ Py.str found
             +:+ " students in batch (Numbers: "
             +:+ default "" (registration_number <$> head results) +:+ "-"
             +:+ default "" (registration_number <$> last results) +:+ ")");;
          mret l
      | [] =>
          let c := self l in
          let missed := Z.of_nat (length batch) in
          mret {| self := with_stats c (total_processed c) (total_successful c)
                            (total_failed c + missed) (last_save_count c);
                  consecutive_failures := consecutive_failures l + missed;
                  student_number := student_number l;
                  council_successful := council_successful l |}
      end;
  let c := self l in
  let c := with_stats c (total_processed c + Z.of_nat (length batch))
             (total_successful c) (total_failed c) (last_save_count c) in
  c ← (if total_successful c - last_save_count c >=? 10000
       then
         logging INFO
           ("Auto-saving results after " +:+ Py.str (total_successful c)
            +:+ " successful students...");;
         ResultsSaver.save_all;;
         logging INFO "Auto-save completed";;
         mret (with_stats c (total_processed c) (total_successful c)
                 (total_failed c) (total_successful c))
       else mret c);
  when (student_number l `mod` 2000 =? 0)
    (logging INFO
       ("Council " +:+ council_code +:+ ": Processed "
        +:+ Py.format_comma (student_number l) +:+ " students, Found "
        +:+ Py.str (council_successful l) +:+ ", Consecutive failures: "
        +:+ Py.str (consecutive_failures l)));;
  mret {| self := c; consecutive_failures := consecutive_failures l;
          student_number := student_number l;
          council_successful := council_successful l |}.

(** [while consecutive_failures < 1000: ...]; [fuel] bounds the number of
    turns, [None] is returned when it runs out. *)
Fixpoint while_loop (fuel : nat) (council_code : string) (l : locals)
    : M (option locals) :=
  if consecutive_failures l <? 1000
  then
    match fuel with
    | O => mret None
    | S fuel' =>
        let '(batch, student_number') :=
          create_batch (Py.range 0 batch_size) council_code
            (consecutive_failures l) (student_number l) [] in
        let l :=
          {| self := self l; consecutive_failures := consecutive_failures l;
             student_number := student_number';
             council_successful := council_successful l |} in
        match batch with
        | [] => mret (Some l)
        | _ =>
            l ← process_batch council_code batch l;
            while_loop fuel' council_code l
        end
    end
  else mret (Some l).

Definition crawl_council_fast (fuel : nat) (c : api_crawler)
    (council_code : string) (start_number : Z)
    : M (option (api_crawler * Z)) :=
  logging INFO
    ("Starting fast crawl for council " +:+ council_code +:+ " from number "
     +:+ Py.format_0d 6 start_number);;
  r ← while_loop fuel council_code
        {| self := c; consecutive_failures := 0;
           student_number := start_number; council_successful := 0 |};
  match r with
  | None => mret None
  | Some l =>
      logging INFO
        ("Council " +:+ council_code +:+ " completed: "
         +:+ Py.str (council_successful l) +:+ " students found");;
      mret (Some (self l, council_successful l))
  end.

End MainEnhanced.

(** The world at the start of a first run: a fresh ledger and sink, no file
    written yet, nothing scripted. *)
Definition first_run : World.t := {|
  World.ledger := CrawlerSkipManager.new;
  World.saver := ResultsSaver.new;
  World.disk :=
    {| World.skip_ranges_file := None; World.council_limits_file := None;
       World.invalid_patterns_file := None; World.json_file := None;
       World.csv_file := None; World.summary_file := None |};
  World.writes := [];
  World.log := [];
  World.scrapes := [];
  World.fetches := [];
  World.requests := [];
  World.ctime := "1751328000.0"
|}.

(** The world after a statement, whatever its outcome. *)
Definition exec {A} (m : M A) (w : World.t) : World.t := (m w).2.

(** A later run that found a limit of 500 for council 01 in
    [data/council_limits.json]. *)
Definition limited_run : World.t :=
  World.set_ledger
    (CrawlerSkipManager.set_council_limits {["01" := 500]}) first_run.

(** A run that has counted 99 failures of 01000005 and whose next write
    fails. *)
Definition failing_disk_run : World.t :=
  World.set_writes (λ _, [false])
    (Nat.iter 99
       (exec (CrawlerSkipManager.record_failure "01000005" "not_found"))
       first_run).

(** The key under which [record_failure] counts. *)
Definition failure_key (id : string) (n : Z) : string :=
  Py.str_take 2 id +:+ "_" +:+ Py.str n.

(** The consecutive failures counted so far for that key. *)
Definition failure_count (w : World.t) (id : string) (n : Z) : Z :=
  default 0 (World.consecutive_failures (World.ledger w) !! failure_key id n).

(** The entry that [record_failure] appends for a number [n]. *)
Definition promoted_range (w : World.t) (n : Z) : World.skip_range :=
  {| World.start := n; World.end_ := n + 1000;
     World.reason := "consecutive_failures";
     World.added_at := World.ctime w |}.

(** A later run whose invalid set, loaded from
    [data/invalid_patterns.json], holds 01000001. *)
Definition skipping_run : World.t :=
  World.set_ledger
    (CrawlerSkipManager.set_invalid_patterns {["01000001"]}) first_run.

(** The counters of [main] when council 01 begins in a fresh process. *)
Definition council_start : Main.locals :=
  {| Main.consecutive_failures := 0; Main.student_number := 1;
     Main.council_successful := 0; Main.total_processed := 0;
     Main.total_successful := 0; Main.total_failed := 0;
     Main.total_skipped := 0; Main.last_save_count := 0 |}.

(** The second ledger skips at least what the first one skips: limits are
    at most as high, the ranges of every council are kept and the invalid set
    is kept. *)
Definition skips_no_less (s s' : World.skip_manager) : Prop :=
  (∀ c limit, World.council_limits s !! c = Some limit →
     ∃ limit', World.council_limits s' !! c = Some limit' ∧ limit' <= limit)
  ∧ (∀ c ranges, World.skip_ranges s !! c = Some ranges →
       ∃ ranges', World.skip_ranges s' !! c = Some ranges'
                  ∧ ∀ r, r ∈ ranges → r ∈ ranges')
  ∧ World.invalid_patterns s ⊆ World.invalid_patterns s'.

(** A statement that sends nothing to a backend and leaves the result sink
    alone, whatever its outcome. *)
Definition quiet {A} (m : M A) : Prop :=
  ∀ w, World.requests (exec m w) = World.requests w
       ∧ World.saver (exec m w) = World.saver w.

(** A statement that sends [id] to the backend between [lo] and [hi] times,
    sends nothing else and leaves the result sink alone, whatever its
    outcome. *)
Definition sends {A} (lo hi : nat) (id : string) (m : M A) : Prop :=
  ∀ w, ∃ k, (lo <= k <= hi)%nat
            ∧ World.requests (exec m w) = World.requests w ++ replicate k [id]
            ∧ World.saver (exec m w) = World.saver w.

(** An identifier whose characters after the second read as an integer. *)
Definition well_formed (id : string) : Prop :=
  is_Some (Py.int (Py.str_drop 2 id)).

(** The ledger answers [False] for the identifier. *)
Definition unskipped (w : World.t) (id : string) : bool :=
  match (CrawlerSkipManager.should_skip id w).1 with
  | Py.Returns false => true
  | _ => false
  end.

(** The two counts of the sink that [add_result] keeps. *)
Definition sink_counts (w : World.t) : Z * Z :=
  (World.total_processed (World.saver w), World.successful (World.saver w)).

(** A run in which the site has the first two candidates of council 01. *)
Definition two_found_run : World.t :=
  World.set_scrapes
    (λ _, [Py.Returns (Some {| World.registration_number := "01000001";
                               World.scores := [] |});
           Py.Returns (Some {| World.registration_number := "01000002";
                               World.scores := [] |})])
    first_run.

(** A later run that skips 01000001 and in which the site has 01000002. *)
Definition skipped_then_found_run : World.t :=
  World.set_scrapes
    (λ _, [Py.Returns (Some {| World.registration_number := "01000002";
                               World.scores := [] |})])
    skipping_run.

(** The loop of [crawl_batch_api] that records the outcome of each
    identifier asked for, given the answer of the backend. *)
Definition record_results (results : list World.student)
    (valid_numbers : list string) : M unit :=
  for_each valid_numbers (λ num,
    if bool_decide (num ∈ (list_to_set (World.registration_number <$> results)
                            : gset string))
    then CrawlerSkipManager.record_success num
    else CrawlerSkipManager.record_failure num "not_found").

(** The sink has been given no failure: every [add_result] it counted
    brought a record. *)
Definition sink_sees_no_failure (w : World.t) : Prop :=
  (sink_counts w).1 = (sink_counts w).2.

(** * Properties *)

(** Unfolding the sequencing of statements. *)
Ltac run :=
  cbv beta iota zeta delta
    [mbind M_bind mret M_ret get modify when raise lift logging
     CrawlerSkipManager.self CrawlerSkipManager.log_if_logger].

(** ** The two rates *)

Section Rates.
Import Py World.

(** A divisor that [max(1, ...)] guards is never zero. *)
Lemma truediv_max_returns (a b : Z) :
  truediv a (Z.max 1 b) = Returns (inject_Z a / inject_Z (Z.max 1 b))%Q.
Proof.
  unfold truediv. destruct (Z.eqb_spec (Z.max 1 b) 0) as [Hz | _]; [lia | done].
Qed.

Lemma success_rate_returns (s : results_saver) :
  ResultsSaver.success_rate s
  = Returns (inject_Z (successful s)
             / inject_Z (Z.max 1 (total_processed s)) * 100)%Q.
Proof. unfold ResultsSaver.success_rate. by rewrite truediv_max_returns. Qed.

Lemma final_stats_returns (l : Main.locals) :
  Main.final_stats l
  = Returns
      {| Main.stat_total_processed := Main.total_processed l;
         Main.stat_total_successful := Main.total_successful l;
         Main.stat_total_failed := Main.total_failed l;
         Main.stat_total_skipped := Main.total_skipped l;
         Main.overall_success_rate :=
           (inject_Z (Main.total_successful l)
            / inject_Z (Z.max 1 (Main.total_processed l
                                  - Main.total_skipped l)) * 100)%Q;
         Main.councils_processed := 65 |}.
Proof. unfold Main.final_stats. by rewrite truediv_max_returns. Qed.

End Rates.

(** ** Decimal formatting and [int()] *)

Section Decimal.
Import Py.

Lemma digit_of_digit_char (d : Z) :
  0 <= d <= 9 → digit_of_ascii (digit_char d) = Some d.
Proof.
  intros Hd.
  assert (Hcases : d = 0 ∨ d = 1 ∨ d = 2 ∨ d = 3 ∨ d = 4 ∨ d = 5 ∨ d = 6
                   ∨ d = 7 ∨ d = 8 ∨ d = 9) by lia.
  repeat (destruct Hcases as [-> | Hcases]; [reflexivity |]).
  subst d. reflexivity.
Qed.

Lemma digit_char_not_space (d : Z) :
  0 <= d <= 9 → is_space (digit_char d) = false.
Proof.
  intros Hd.
  assert (Hcases : d = 0 ∨ d = 1 ∨ d = 2 ∨ d = 3 ∨ d = 4 ∨ d = 5 ∨ d = 6
                   ∨ d = 7 ∨ d = 8 ∨ d = 9) by lia.
  repeat (destruct Hcases as [-> | Hcases]; [reflexivity |]).
  subst d. reflexivity.
Qed.

Lemma digit_char_not_sign (d : Z) :
  0 <= d <= 9 →
  Ascii.eqb (digit_char d) "-" = false ∧ Ascii.eqb (digit_char d) "+" = false.
Proof.
  intros Hd.
  assert (Hcases : d = 0 ∨ d = 1 ∨ d = 2 ∨ d = 3 ∨ d = 4 ∨ d = 5 ∨ d = 6
                   ∨ d = 7 ∨ d = 8 ∨ d = 9) by lia.
  repeat (destruct Hcases as [-> | Hcases]; [split; reflexivity |]).
  subst d. split; reflexivity.
Qed.

(** The digits that [lsb_digits] produces are decimal digits. *)
Lemma lsb_digits_range (fuel : nat) (n : Z) :
  Forall (λ d, 0 <= d <= 9) (lsb_digits fuel n).
Proof.
  revert n. induction fuel as [| f IH]; intros n; simpl; [constructor |].
  constructor.
  - pose proof (Z.mod_pos_bound n 10). lia.
  - destruct (n / 10 =? 0); [constructor | apply IH].
Qed.

Lemma lsb_value_digits (fuel : nat) (n : Z) :
  0 <= n < 2 ^ Z.of_nat fuel → lsb_value (lsb_digits fuel n) = n.
Proof.
  revert n. induction fuel as [| f IH]; intros n Hn.
  - simpl in *. lia.
  - cbn [lsb_digits lsb_value foldr].
    rewrite Nat2Z.inj_succ, Z.pow_succ_r in Hn by lia.
    pose proof (Z.div_mod n 10 ltac:(lia)) as Hdm.
    pose proof (Z.mod_pos_bound n 10 ltac:(lia)) as Hm.
    destruct (Z.eqb_spec (n / 10) 0) as [Hz | Hnz].
    + simpl. lia.
    + fold (lsb_value (lsb_digits f (n / 10))).
      rewrite IH; [lia |].
      split; [apply Z.div_pos; lia |].
      apply Z.div_lt_upper_bound; lia.
Qed.

Lemma lsb_digits_length (fuel : nat) (n : Z) (k : nat) :
  0 <= n < 10 ^ Z.of_nat (S k) → (length (lsb_digits fuel n) ≤ S k)%nat.
Proof.
  revert n k. induction fuel as [| f IH]; intros n k Hn; simpl; [lia |].
  destruct (Z.eqb_spec (n / 10) 0) as [Hz | Hnz]; simpl; [lia |].
  destruct k as [| k].
  - exfalso. apply Hnz. apply Z.div_small. simpl in Hn. lia.
  - apply le_n_S, IH.
    rewrite Nat2Z.inj_succ, Z.pow_succ_r in Hn by lia.
    split; [apply Z.div_pos; lia |].
    apply Z.div_lt_upper_bound; lia.
Qed.

Lemma lsb_digits_nonempty (fuel : nat) (n : Z) : lsb_digits (S fuel) n ≠ [].
Proof. simpl. discriminate. Qed.

(** Reading a list of decimal digits, most significant first. *)
Lemma int_digits_digits (ds : list Z) (prev : bool) (acc : Z) :
  Forall (λ d, 0 <= d <= 9) ds →
  ds ≠ [] ∨ prev = true →
  int_digits prev acc (digit_char <$> ds)
  = Some (foldl (λ a d, 10 * a + d) acc ds).
Proof.
  intros Hds. revert prev acc.
  induction Hds as [| d ds Hd Hds IH]; intros prev acc Hne.
  - destruct Hne as [Hne | ->]; [done | reflexivity].
  - cbn [fmap list_fmap int_digits foldl].
    rewrite digit_of_digit_char by done.
    apply IH. by right.
Qed.

Lemma foldl_digits_zeros (k : nat) (ds : list Z) :
  foldl (λ a d, 10 * a + d) 0 (replicate k 0 ++ ds)
  = foldl (λ a d, 10 * a + d) 0 ds.
Proof. induction k as [| k IH]; [done | simpl; apply IH]. Qed.

Lemma foldl_digits_rev (ds : list Z) :
  foldl (λ a d, 10 * a + d) 0 (rev ds) = lsb_value ds.
Proof.
  unfold lsb_value. induction ds as [| d ds IH]; [done |].
  simpl. rewrite foldl_app. simpl. rewrite IH. lia.
Qed.

Lemma lstrip_no_space (l : list ascii) :
  Forall (λ c, is_space c = false) l → lstrip l = l.
Proof. intros [| c r Hc _]; [done |]. simpl. by rewrite Hc. Qed.

Lemma strip_no_space (l : list ascii) :
  Forall (λ c, is_space c = false) l → strip l = l.
Proof.
  intros Hl. unfold strip. rewrite (lstrip_no_space l Hl).
  rewrite lstrip_no_space; [apply rev_involutive |].
  by apply Forall_rev.
Qed.

End Decimal.

Section Strings.
Import Py.

Lemma chars_of_string_of_chars (l : list ascii) :
  chars_of_string (string_of_chars l) = l.
Proof. induction l as [| c l IH]; [done | simpl; by rewrite IH]. Qed.

Lemma length_string_of_chars (l : list ascii) :
  String.length (string_of_chars l) = length l.
Proof. induction l as [| c l IH]; [done | simpl; by rewrite IH]. Qed.

Lemma length_append (a b : string) :
  String.length (a +:+ b) = (String.length a + String.length b)%nat.
Proof. induction a as [| c a IH]; [done | simpl; by rewrite IH]. Qed.

Lemma str_take_append (a b : string) (k : nat) :
  String.length a = k → str_take k (a +:+ b) = a.
Proof.
  intros <-. induction a as [| c a IH]; [by destruct b | simpl; by rewrite IH].
Qed.

Lemma str_drop_append (a b : string) (k : nat) :
  String.length a = k → str_drop k (a +:+ b) = b.
Proof. intros <-. induction a as [| c a IH]; [by destruct b | done]. Qed.

(** The characters of [str(n)], [n >= 0], are the decimal digits of [n]. *)
Lemma dec_chars_digits (n : Z) :
  0 <= n →
  ∃ ds, dec_chars n = digit_char <$> ds ∧ Forall (λ d, 0 <= d <= 9) ds
        ∧ ds ≠ [] ∧ foldl (λ a d, 10 * a + d) 0 ds = n.
Proof.
  intros Hn. unfold dec_chars.
  set (fuel := S (Z.to_nat (Z.log2 n))).
  exists (rev (lsb_digits fuel n)). split; [done |].
  split; [apply Forall_rev, lsb_digits_range |].
  split.
  - intros Hnil. apply (f_equal (@rev Z)) in Hnil.
    rewrite rev_involutive in Hnil. by apply lsb_digits_nonempty in Hnil.
  - rewrite foldl_digits_rev. apply lsb_value_digits.
    split; [done |]. unfold fuel.
    rewrite Nat2Z.inj_succ, Z2Nat.id by apply Z.log2_nonneg.
    destruct (Z.eq_dec n 0) as [-> | Hnz]; [done |].
    apply Z.log2_spec. lia.
Qed.

Lemma dec_chars_length (n : Z) (k : nat) :
  0 <= n < 10 ^ Z.of_nat (S k) → (length (dec_chars n) ≤ S k)%nat.
Proof.
  intros Hn. unfold dec_chars.
  rewrite length_fmap, length_rev. by apply lsb_digits_length.
Qed.

(** [int()] reads back what the zero-padded format wrote. *)
Lemma int_format_0d (width : nat) (n : Z) :
  0 <= n → int (format_0d width n) = Some n.
Proof.
  intros Hn. unfold format_0d, int.
  destruct (Z.ltb_spec n 0) as [? | _]; [lia |].
  rewrite Z.abs_eq by done.
  destruct (dec_chars_digits n Hn) as (ds & -> & Hds & Hne & Hval).
  set (k := (width - length (digit_char <$> ds))%nat).
  assert (Hall : replicate k "0"%char ++ (digit_char <$> ds)
                 = digit_char <$> (replicate k 0 ++ ds)).
  { rewrite fmap_app, fmap_replicate. done. }
  rewrite Hall, chars_of_string_of_chars.
  assert (Hds' : Forall (λ d, 0 <= d <= 9) (replicate k 0 ++ ds)).
  { apply Forall_app. split; [| done]. apply Forall_replicate. lia. }
  assert (Hne' : replicate k 0 ++ ds ≠ []).
  { destruct k; simpl; [done | discriminate]. }
  rewrite strip_no_space.
  2: { apply Forall_fmap. eapply Forall_impl; [exact Hds' |].
       intros d Hd. by apply digit_char_not_space. }
  pose proof (int_digits_digits _ false 0 Hds' (or_introl Hne')) as Hint.
  rewrite foldl_digits_zeros, Hval in Hint.
  destruct (replicate k 0 ++ ds) as [| d rest] eqn:Hl; [done |].
  cbn [fmap list_fmap] in *.
  apply Forall_cons in Hds' as [Hd _].
  destruct (digit_char_not_sign d Hd) as [-> ->].
  exact Hint.
Qed.

Lemma length_format_0d (k : nat) (n : Z) :
  0 <= n < 10 ^ Z.of_nat (S k) → String.length (format_0d (S k) n) = S k.
Proof.
  intros Hn. unfold format_0d.
  destruct (Z.ltb_spec n 0) as [? | _]; [lia |].
  rewrite Z.abs_eq by lia.
  pose proof (dec_chars_length n k Hn).
  rewrite length_string_of_chars, length_app, length_replicate. lia.
Qed.

(** The same for every integer: a negative number is written with its sign
    first. *)
Lemma int_format_0d_signed (width : nat) (n : Z) :
  int (format_0d width n) = Some n.
Proof.
  destruct (Z.le_gt_cases 0 n) as [Hn | Hn]; [by apply int_format_0d |].
  unfold format_0d, int.
  destruct (Z.ltb_spec n 0) as [_ | ?]; [| lia].
  destruct (dec_chars_digits (Z.abs n) ltac:(lia)) as (ds & -> & Hds & Hne & Hval).
  set (k := (width - 1 - length (digit_char <$> ds))%nat).
  assert (Hall : replicate k "0"%char ++ (digit_char <$> ds)
                 = digit_char <$> (replicate k 0 ++ ds)).
  { rewrite fmap_app, fmap_replicate. done. }
  rewrite Hall, chars_of_string_of_chars.
  assert (Hds' : Forall (λ d, 0 <= d <= 9) (replicate k 0 ++ ds)).
  { apply Forall_app. split; [| done]. apply Forall_replicate. lia. }
  assert (Hne' : replicate k 0 ++ ds ≠ []).
  { destruct k; simpl; [done | discriminate]. }
  rewrite strip_no_space.
  2: { constructor; [done |]. apply Forall_fmap.
       eapply Forall_impl; [exact Hds' |].
       intros d Hd. by apply digit_char_not_space. }
  cbn [Ascii.eqb Bool.eqb]. cbn.
  rewrite (int_digits_digits _ false 0 Hds' (or_introl Hne')).
  rewrite foldl_digits_zeros, Hval. cbn. f_equal. lia.
Qed.

(** The zero-padded format never writes fewer characters than the width. *)
Lemma length_format_0d_at_least (width : nat) (n : Z) :
  (width ≤ String.length (format_0d width n))%nat.
Proof.
  unfold format_0d. destruct (n <? 0);
    rewrite length_string_of_chars; cbn [length];
    rewrite length_app, length_replicate; lia.
Qed.

End Strings.

(** ** The identifier generator *)

Section Generator.
Import Py RegistrationNumberGenerator.

Lemma council_codes_length :
  Forall (λ c, String.length c = 2%nat) (council_codes new).
Proof. apply (bool_decide_unpack _). vm_compute. exact I. Qed.

Lemma generate_single_length (self : t) (c : string) (n : Z) :
  0 <= n < 10 ^ 6 →
  String.length (generate_single self c n) = (String.length c + 6)%nat.
Proof.
  intros Hn. unfold generate_single.
  rewrite length_append, (length_format_0d 5) by (simpl; lia). done.
Qed.

Lemma is_valid_format_generate_single (c : string) (n : Z) :
  c ∈ council_codes new →
  student_number_min new <= n <= student_number_max new →
  is_valid_format new (generate_single new c n) = true.
Proof.
  intros Hc Hn. cbn in Hn.
  pose proof (proj1 (Forall_forall _ _) council_codes_length c Hc) as Hlen.
  unfold is_valid_format.
  rewrite generate_single_length by lia. rewrite Hlen. cbn [Nat.add Nat.eqb negb].
  unfold generate_single. cbv zeta.
  rewrite (str_take_append c _ 2 Hlen), (str_drop_append c _ 2 Hlen).
  rewrite bool_decide_eq_true_2 by done. cbn [negb].
  rewrite int_format_0d by lia.
  cbn [student_number_min student_number_max new Config.new
       Config.registration Config.student_number_min
       Config.student_number_max].
  destruct (Z.ltb_spec n 1); [lia |].
  destruct (Z.gtb_spec n 999999); [lia | done].
Qed.

(** C3: parsing the identifier built by [generate_single] from a configured
    council code and a student number within the configured bounds gives back
    the council code and the number.  [parse] raises [ValueError] (its
    "Invalid registration number format" error) on every string whose length
    is not 8, whose first two characters are not a configured council code,
    or whose remaining characters do not read as a number within the bounds,
    and on no other string: every other string is parsed into its first two
    characters, the number that the rest reads as, and itself. *)
Theorem parse_generate_single_roundtrip :
  (∀ (c : string) (n : Z),
      c ∈ council_codes new →
      student_number_min new <= n <= student_number_max new →
      parse new (generate_single new c n)
      = Returns {| council_code := c; student_number := n;
                   full := generate_single new c n |})
  ∧ (∀ s : string,
      (String.length s ≠ 8%nat
       ∨ str_take 2 s ∉ council_codes new
       ∨ (∀ n, int (str_drop 2 s) = Some n →
               n < student_number_min new ∨ student_number_max new < n))
      ↔ parse new s = Raises ValueError)
  ∧ (∀ s : string,
      parse new s ≠ Raises ValueError →
      ∃ n, int (str_drop 2 s) = Some n
           ∧ student_number_min new <= n <= student_number_max new
           ∧ parse new s
             = Returns {| council_code := str_take 2 s; student_number := n;
                          full := s |}).
Proof.
  assert (Hparse : ∀ s : string,
    (String.length s ≠ 8%nat
     ∨ str_take 2 s ∉ council_codes new
     ∨ (∀ n, int (str_drop 2 s) = Some n →
             n < student_number_min new ∨ student_number_max new < n))
    ∧ parse new s = Raises ValueError
    ∨ String.length s = 8%nat
      ∧ str_take 2 s ∈ council_codes new
      ∧ ∃ n, int (str_drop 2 s) = Some n
             ∧ student_number_min new <= n <= student_number_max new
             ∧ parse new s
               = Returns {| council_code := str_take 2 s;
                            student_number := n; full := s |}).
  { intros s. unfold parse, is_valid_format.
    destruct (Nat.eqb_spec (String.length s) 8) as [Hlen | Hlen];
      [| left; split; [by left | done]].
    cbn [negb].
    destruct (decide (str_take 2 s ∈ council_codes new)) as [Hin | Hin].
    2: { rewrite bool_decide_eq_false_2 by done.
         left. split; [right; by left | done]. }
    rewrite bool_decide_eq_true_2 by done. cbn [negb].
    destruct (int (str_drop 2 s)) as [n |] eqn:Hint.
    2: { left. split; [right; right; by intros n [=] | done]. }
    destruct (Z.ltb_spec n (student_number_min new)) as [Hlow | Hlow].
    { left. split; [| done]. right; right. intros n' [= <-]. by left. }
    destruct (Z.gtb_spec n (student_number_max new)) as [Hhigh | Hhigh].
    { left. split; [| done]. right; right. intros n' [= <-]. right. lia. }
    right. split; [done |]. split; [done |]. exists n.
    split; [done |]. split; [lia | done]. }
  split; [| split].
  - intros c n Hc Hn. unfold parse.
    rewrite is_valid_format_generate_single by done. cbn [negb].
    pose proof (proj1 (Forall_forall _ _) council_codes_length c Hc) as Hlen.
    cbn in Hn. unfold generate_single. cbv zeta.
    rewrite (str_drop_append c _ 2 Hlen), int_format_0d by lia.
    by rewrite (str_take_append c _ 2 Hlen).
  - intros s. split.
    + intros Hbad.
      destruct (Hparse s) as [[_ Hraises] | (Hlen & Hin & n & Hint & Hn & _)];
        [done |].
      destruct Hbad as [Hbad | [Hbad | Hbad]]; [done | done |].
      specialize (Hbad n Hint). lia.
    + intros Hraises.
      destruct (Hparse s) as [[Hbad _] | (_ & _ & n & _ & _ & Hreturns)];
        [done |].
      rewrite Hreturns in Hraises. discriminate.
  - intros s Hreturns.
    destruct (Hparse s) as [[_ Hraises] | (_ & _ & Hn)]; [done | exact Hn].
Qed.

Lemma parse_generate_single_roundtrip_witness :
  parse new (generate_single new "07" 42)
  = Returns {| council_code := "07"; student_number := 42;
               full := generate_single new "07" 42 |}
  ∧ parse new "6600004" = Raises ValueError
  ∧ parse new ("01" +:+ String (ascii_of_nat 31) "12345") = Raises ValueError
  ∧ parse new ("01" +:+ String (ascii_of_nat 160) "12345")
    = Returns {| council_code := "01"; student_number := 12345;
                 full := "01" +:+ String (ascii_of_nat 160) "12345" |}.
Proof.
  destruct parse_generate_single_roundtrip as (Hround & Hbad & Hgood).
  split; [| split; [| split]].
  - apply Hround; [| cbn; lia].
    apply (bool_decide_unpack _). vm_compute. exact I.
  - apply Hbad. left. cbn. lia.
  - apply Hbad. right; right. intros n Hint. vm_compute in Hint. discriminate.
  - destruct (Hgood ("01" +:+ String (ascii_of_nat 160) "12345"))
      as (n & Hint & _ & Hreturns).
    + vm_compute. discriminate.
    + vm_compute in Hint. injection Hint as <-. exact Hreturns.
Defined.

(** [generate_single] checks neither argument: for a council code outside the
    configured set and a student number outside the bounds it returns a
    string. *)
Lemma generate_single_does_not_validate :
  ("99" ∉ council_codes new)
  ∧ (¬ (student_number_min new <= 0 <= student_number_max new))
  ∧ (Returns (generate_single new "99" 0) : outcome string)
    = Returns "99000000"
  ∧ (Returns (generate_single new "99" 0) : outcome string)
    ≠ Raises ValueError.
Proof.
  split; [| split; [| split]].
  - intros Hin. apply (bool_decide_pack _) in Hin. vm_compute in Hin. exact Hin.
  - cbn. lia.
  - reflexivity.
  - discriminate.
Qed.

(** C7, amended: [generate_single] validates neither argument.  For every
    string given as council code and every integer, inside the configured set
    and bounds or not, its result begins with the council code and goes on
    with the number padded with zeros to at least six characters, which read
    back as the number; for a number within the configured bounds the padding
    is exactly six characters, and for a configured council code the result
    then has eight. *)
Theorem generate_single_pads_and_concatenates (c : string) (n : Z) :
  str_take (String.length c) (generate_single new c n) = c
  ∧ str_drop (String.length c) (generate_single new c n) = format_0d 6 n
  ∧ (6 ≤ String.length (format_0d 6 n))%nat
  ∧ int (str_drop (String.length c) (generate_single new c n)) = Some n
  ∧ (student_number_min new <= n <= student_number_max new →
     String.length (format_0d 6 n) = 6%nat
     ∧ (c ∈ council_codes new →
        String.length (generate_single new c n) = 8%nat)).
Proof.
  unfold generate_single. cbv zeta.
  rewrite (str_take_append c _ _ eq_refl), (str_drop_append c _ _ eq_refl).
  split; [done |]. split; [done |].
  split; [apply length_format_0d_at_least |].
  split; [apply int_format_0d_signed |].
  intros Hn. cbn in Hn.
  assert (Hsix : String.length (format_0d 6 n) = 6%nat)
    by (apply (length_format_0d 5); simpl; lia).
  split; [done |]. intros Hc.
  pose proof (proj1 (Forall_forall _ _) council_codes_length c Hc) as Hlen.
  by rewrite length_append, Hlen, Hsix.
Qed.

Lemma generate_single_pads_and_concatenates_witness :
  str_take 2 (generate_single new "99" (-7)) = "99"
  ∧ str_drop 2 (generate_single new "99" (-7)) = "-00007"
  ∧ int (str_drop 2 (generate_single new "99" 1000000)) = Some 1000000
  ∧ String.length (generate_single new "07" 42) = 8%nat.
Proof.
  destruct (generate_single_pads_and_concatenates "99" (-7))
    as (Htake & Hdrop & _).
  destruct (generate_single_pads_and_concatenates "99" 1000000)
    as (_ & _ & _ & Hint & _).
  destruct (generate_single_pads_and_concatenates "07" 42)
    as (_ & _ & _ & _ & Hbounds).
  split; [exact Htake |]. split; [exact Hdrop |]. split; [exact Hint |].
  apply Hbounds; [cbn; lia |].
  apply (bool_decide_unpack _). vm_compute. exact I.
Defined.

End Generator.

(** ** Batches *)

Section Batches.
Import Py RegistrationNumberGenerator.

Lemma foldl_snoc_map {A B} (f : A → B) (l : list A) (acc : list B) :
  fold_left (λ numbers i, numbers ++ [f i]) l acc = acc ++ (f <$> l).
Proof.
  revert acc. induction l as [| x l IH]; intros acc; simpl.
  - by rewrite app_nil_r.
  - rewrite IH. by rewrite <- app_assoc.
Qed.

Lemma foldl_extend_concat {A B} (f : A → list B) (l : list A) (acc : list B) :
  fold_left (λ all x, all ++ f x) l acc = acc ++ concat (f <$> l).
Proof.
  revert acc. induction l as [| x l IH]; intros acc; simpl.
  - by rewrite app_nil_r.
  - rewrite IH. by rewrite <- app_assoc.
Qed.

Lemma generate_for_council_map (self : t) (c : string) :
  generate_for_council self c
  = generate_single self c
    <$> range (student_number_min self) (student_number_max self + 1).
Proof. unfold generate_for_council. by rewrite foldl_snoc_map. Qed.

Lemma generate_all_concat (self : t) :
  generate_all self = concat (generate_for_council self <$> council_codes self).
Proof. unfold generate_all. by rewrite foldl_extend_concat. Qed.

Lemma generate_batches_concat (self : t) (batch_size : option Z) :
  generate_batches self batch_size
  = concat (council_batches self (effective_batch_size self batch_size)
            <$> council_codes self).
Proof.
  unfold generate_batches. cbv zeta.
  generalize (effective_batch_size self batch_size). intros size.
  induction (council_codes self) as [| c l IH]; [done |].
  cbn. by rewrite <- IH.
Qed.

(** Chaining what the loop yields gives the pending batch followed by the
    identifiers still to come. *)
Lemma batches_loop_concat (self : t) (size : Z) (c : string)
    (todo : list Z) (batch : list string) :
  concat (batches_loop self size c todo batch)
  = batch ++ (generate_single self c <$> todo).
Proof.
  revert batch. induction todo as [| i rest IH]; intros batch; simpl.
  - destruct batch; simpl; by rewrite ?app_nil_r.
  - destruct (_ =? size); simpl; rewrite IH; simpl; by rewrite <- app_assoc.
Qed.

(** Every batch that is followed by another one is full, and every batch
    has between one and [size] identifiers. *)
Lemma batches_loop_lengths (self : t) (size : Z) (c : string)
    (todo : list Z) (batch : list string) :
  Z.of_nat (length batch) < size →
  ∀ pre b post,
    batches_loop self size c todo batch = pre ++ b :: post →
    (post ≠ [] → Z.of_nat (length b) = size)
    ∧ 0 < Z.of_nat (length b) <= size.
Proof.
  revert batch. induction todo as [| i rest IH]; intros batch Hlt pre b post Heq.
  - simpl in Heq. destruct batch as [| x batch]; [by destruct pre |].
    destruct pre as [| p pre]; [| by destruct pre].
    injection Heq as <- <-. split; [done |]. simpl in *. lia.
  - simpl in Heq.
    destruct (Z.eqb_spec (Z.of_nat (length (batch ++ [generate_single self c i])))
                size) as [Hfull | Hnot].
    + destruct pre as [| p pre].
      * injection Heq as <- _. split; [done | lia].
      * injection Heq as _ Heq. apply (IH [] ltac:(simpl; lia)) in Heq. done.
    + apply (IH (batch ++ [generate_single self c i])) in Heq; [done |].
      rewrite length_app in *. simpl in *. lia.
Qed.

(** The last batch holds what remains after the full ones. *)
Lemma batches_loop_last (self : t) (size : Z) (c : string)
    (todo : list Z) (batch : list string) :
  Z.of_nat (length batch) < size →
  ∀ b, last (batches_loop self size c todo batch) = Some b →
    (Z.of_nat (length b)) `mod` size
    = (Z.of_nat (length batch + length todo)) `mod` size.
Proof.
  revert batch. induction todo as [| i rest IH]; intros batch Hlt b Hlast.
  - simpl in Hlast. destruct batch as [| x batch]; [done |].
    injection Hlast as <-. by rewrite Nat.add_0_r.
  - simpl in Hlast.
    destruct (Z.eqb_spec (Z.of_nat (length (batch ++ [generate_single self c i])))
                size) as [Hfull | Hnot].
    + rewrite length_app in Hfull. simpl in Hfull.
      destruct (batches_loop self size c rest []) as [| b' bs] eqn:Hrest.
      * injection Hlast as <-.
        assert (Hnil : rest = []).
        { destruct rest as [| j rest']; [done |].
          apply (f_equal (@concat string)) in Hrest.
          rewrite batches_loop_concat in Hrest. done. }
        subst rest. rewrite length_app. simpl. f_equal; lia.
      * rewrite last_cons_cons in Hlast. rewrite <- Hrest in Hlast.
        apply (IH [] ltac:(simpl; lia)) in Hlast. rewrite Hlast. simpl.
        replace (Z.of_nat (length batch + S (length rest)))
          with (Z.of_nat (length rest) + 1 * size) by lia.
        by rewrite Z.mod_add by lia.
    + apply (IH (batch ++ [generate_single self c i])) in Hlast.
      * rewrite Hlast, length_app. simpl. f_equal. lia.
      * rewrite length_app in *. simpl in *. lia.
Qed.

Lemma council_batches_nonempty (self : t) (size : Z) (c : string) :
  student_number_min self <= student_number_max self →
  council_batches self size c ≠ [].
Proof.
  intros Hle Hnil. apply (f_equal (@concat string)) in Hnil.
  unfold council_batches in Hnil. rewrite batches_loop_concat in Hnil.
  apply (f_equal length) in Hnil. simpl in Hnil.
  unfold range in Hnil. rewrite length_fmap, length_seqZ in Hnil. lia.
Qed.

End Batches.

Section BatchClaims.
Import Py RegistrationNumberGenerator.

Lemma council_batches_concat (self : t) (size : Z) (c : string) :
  concat (council_batches self size c) = generate_for_council self c.
Proof.
  unfold council_batches. by rewrite batches_loop_concat, generate_for_council_map.
Qed.

Lemma concat_council_batches (self : t) (size : Z) (codes : list string) :
  concat (concat (council_batches self size <$> codes))
  = concat (generate_for_council self <$> codes).
Proof.
  induction codes as [| c codes IH]; [done |].
  cbn [fmap list_fmap concat]. fold (@fmap list _ _ _ (council_batches self size) codes).
  fold (@fmap list _ _ _ (generate_for_council self) codes).
  by rewrite concat_app, IH, council_batches_concat.
Qed.

(** When a council's identifiers do not fill a whole number of batches, the
    last batch of the first council is short although more batches follow. *)
Lemma short_batch_between_councils (self : t) (batch_size : option Z)
    (c1 c2 : string) (codes : list string) :
  council_codes self = c1 :: c2 :: codes →
  student_number_min self <= student_number_max self →
  0 < effective_batch_size self batch_size →
  (student_number_max self - student_number_min self + 1)
    `mod` effective_batch_size self batch_size ≠ 0 →
  ∃ pre b post,
    generate_batches self batch_size = pre ++ b :: post
    ∧ post ≠ []
    ∧ Z.of_nat (length b) ≠ effective_batch_size self batch_size.
Proof.
  intros Hcodes Hbounds Hsize Hmod.
  rewrite generate_batches_concat, Hcodes.
  set (size := effective_batch_size self batch_size) in *.
  cbn [fmap list_fmap concat].
  pose proof (council_batches_nonempty self size c1 Hbounds) as Hne1.
  pose proof (council_batches_nonempty self size c2 Hbounds) as Hne2.
  apply last_is_Some in Hne1 as [b Hb].
  pose proof Hb as Hlast. apply last_Some in Hlast as [pre Hpre].
  exists pre, b. eexists. split; [| split].
  - rewrite Hpre, <- app_assoc. reflexivity.
  - intros Hnil. apply app_eq_nil in Hnil as [Hnil _]. exact (Hne2 Hnil).
  - unfold council_batches in Hb.
    apply batches_loop_last in Hb; [| simpl; lia].
    unfold range in Hb. rewrite length_seqZ in Hb. simpl in Hb.
    intros Hfull. rewrite Hfull, Z.mod_same in Hb by lia.
    apply Hmod. rewrite Hb. f_equal. lia.
Qed.

(** With the default batch size of 1000 and the configured bounds, the last
    batch of council 01 has fewer than 1000 identifiers although the batches
    of council 02 follow it. *)
Lemma generate_batches_short_batch_before_the_end :
  ∃ pre b post,
    generate_batches new None = pre ++ b :: post
    ∧ post ≠ []
    ∧ Z.of_nat (length b) ≠ 1000.
Proof.
  apply (short_batch_between_councils new None "01" "02"
           (drop 2 (council_codes new))).
  - vm_compute. reflexivity.
  - vm_compute. discriminate.
  - reflexivity.
  - vm_compute. discriminate.
Qed.

(** C5, amended: for every positive batch size the batches chained together
    are the full council-by-council enumeration, in order; batching starts
    afresh at every council, so within the batches of one council every batch
    holds exactly [size] identifiers except possibly the last of that
    council, which is shorter exactly when the number of identifiers of a
    council is not a multiple of [size]. *)
Theorem generate_batches_partitions_each_council (self : t) (size : Z) :
  0 < size →
  concat (generate_batches self (Some size)) = generate_all self
  ∧ generate_batches self (Some size)
    = concat (council_batches self size <$> council_codes self)
  ∧ ∀ c : string,
      concat (council_batches self size c) = generate_for_council self c
      ∧ (∀ pre b post,
           council_batches self size c = pre ++ b :: post →
           (post ≠ [] → Z.of_nat (length b) = size)
           ∧ 0 < Z.of_nat (length b) <= size)
      ∧ (∀ b,
           last (council_batches self size c) = Some b →
           Z.of_nat (length b) < size
           ↔ Z.of_nat (length (generate_for_council self c)) `mod` size ≠ 0).
Proof.
  intros Hsize. split; [| split; [apply generate_batches_concat |]].
  - rewrite generate_batches_concat. cbn [effective_batch_size].
    by rewrite concat_council_batches, generate_all_concat.
  - intros c. split; [apply council_batches_concat |]. split.
    + intros pre b post Heq.
      by apply (batches_loop_lengths self size c _ [] ltac:(simpl; lia)) in Heq.
    + intros b Hb.
      pose proof Hb as Hlast. apply last_Some in Hlast as [pre Hpre].
      destruct (batches_loop_lengths self size c _ [] ltac:(simpl; lia)
                  pre b [] Hpre) as [_ Hrange].
      unfold council_batches in Hb.
      apply batches_loop_last in Hb; [| simpl; lia].
      rewrite generate_for_council_map, length_fmap. simpl in Hb.
      rewrite <- Hb. split.
      * intros Hlt. rewrite Z.mod_small by lia. lia.
      * intros Hmod.
        destruct (Z.eq_dec (Z.of_nat (length b)) size) as [Heq | Hneq]; [| lia].
        rewrite Heq, Z.mod_same in Hmod by lia. done.
Qed.

Lemma generate_batches_partitions_each_council_witness :
  concat (generate_batches new (Some 1000)) = generate_all new
  ∧ generate_batches new (Some 1000)
    = concat (council_batches new 1000 <$> council_codes new)
  ∧ ∀ c : string,
      concat (council_batches new 1000 c) = generate_for_council new c
      ∧ (∀ pre b post,
           council_batches new 1000 c = pre ++ b :: post →
           (post ≠ [] → Z.of_nat (length b) = 1000)
           ∧ 0 < Z.of_nat (length b) <= 1000)
      ∧ (∀ b,
           last (council_batches new 1000 c) = Some b →
           Z.of_nat (length b) < 1000
           ↔ Z.of_nat (length (generate_for_council new c)) `mod` 1000 ≠ 0).
Proof. apply (generate_batches_partitions_each_council new 1000). lia. Defined.

End BatchClaims.

(** ** The skip ledger *)

Section Ledger.
Import Py World CrawlerSkipManager.

Lemma parse_returns (id : string) (p : RegistrationNumberGenerator.parsed) :
  RegistrationNumberGenerator.parse RegistrationNumberGenerator.new id
  = Returns p →
  int (str_drop 2 id) = Some (RegistrationNumberGenerator.student_number p)
  ∧ RegistrationNumberGenerator.council_code p = str_take 2 id.
Proof.
  unfold RegistrationNumberGenerator.parse.
  destruct (RegistrationNumberGenerator.is_valid_format _ id); [| done].
  cbn [negb]. destruct (int (str_drop 2 id)) as [n |]; [| done].
  intros [= <-]. done.
Qed.

Lemma in_range_spec (n : Z) (r : skip_range) :
  in_range n r = true ↔ start r <= n <= end_ r.
Proof. unfold in_range. rewrite andb_true_iff, !Z.leb_le. done. Qed.

Lemma existsb_in_range (n : Z) (ranges : list skip_range) :
  existsb (in_range n) ranges = true
  ↔ ∃ r, r ∈ ranges ∧ start r <= n <= end_ r.
Proof.
  rewrite existsb_exists. split.
  - intros (r & Hin & Hr). exists r. by rewrite list_elem_of_In, <- in_range_spec.
  - intros (r & Hin & Hr). exists r. by rewrite <- list_elem_of_In, in_range_spec.
Qed.

(** What [should_skip] decides for an identifier whose digits read as [n]. *)
Lemma should_skip_decision (w : World.t) (id : string) (n : Z) :
  int (str_drop 2 id) = Some n →
  ∃ b, should_skip id w = (Returns b, w)
       ∧ (b = true ↔
          (∃ limit, council_limits (ledger w) !! str_take 2 id = Some limit
                    ∧ limit < n)
          ∨ (∃ ranges r, skip_ranges (ledger w) !! str_take 2 id = Some ranges
                         ∧ r ∈ ranges ∧ start r <= n <= end_ r)
          ∨ id ∈ invalid_patterns (ledger w)).
Proof.
  intros Hint. unfold should_skip, int_of. rewrite Hint. run.
  assert (Hlimit :
    match council_limits (ledger w) !! str_take 2 id with
    | Some limit => n >? limit
    | None => false
    end = true
    ↔ ∃ limit, council_limits (ledger w) !! str_take 2 id = Some limit
               ∧ limit < n).
  { destruct (council_limits (ledger w) !! str_take 2 id) as [limit |].
    - rewrite Z.gtb_ltb, Z.ltb_lt. split; [by exists limit |].
      by intros (l & [= <-] & Hl).
    - split; [done | by intros (l & [=] & _)]. }
  assert (Hranges :
    match skip_ranges (ledger w) !! str_take 2 id with
    | Some ranges => existsb (in_range n) ranges
    | None => false
    end = true
    ↔ ∃ ranges r, skip_ranges (ledger w) !! str_take 2 id = Some ranges
                  ∧ r ∈ ranges ∧ start r <= n <= end_ r).
  { destruct (skip_ranges (ledger w) !! str_take 2 id) as [ranges |].
    - rewrite existsb_in_range. split.
      + intros (r & Hin & Hr). by exists ranges, r.
      + intros (rs & r & [= <-] & Hin & Hr). by exists r.
    - split; [done | by intros (rs & r & [=] & _)]. }
  destruct (match council_limits (ledger w) !! str_take 2 id with
            | Some limit => n >? limit | None => false end).
  { exists true. split; [done |]. split; [| done]. intros _. left. by apply Hlimit. }
  destruct (match skip_ranges (ledger w) !! str_take 2 id with
            | Some ranges => existsb (in_range n) ranges | None => false end).
  { exists true. split; [done |]. split; [| done]. intros _. right. left.
    by apply Hranges. }
  destruct (decide (id ∈ invalid_patterns (ledger w))) as [Hin | Hin].
  { rewrite bool_decide_eq_true_2 by done. exists true. split; [done |].
    split; [| done]. intros _. by right; right. }
  rewrite bool_decide_eq_false_2 by done. exists false. split; [done |].
  split; [done |]. intros [H | [H | H]].
  - by apply Hlimit in H.
  - by apply Hranges in H.
  - done.
Qed.

(** C4: for every well-formed identifier (one that [parse] accepts),
    [should_skip] returns, leaves everything as it was, and answers true
    exactly when the student number is strictly above the limit recorded for
    its council, or lies in one of the closed intervals recorded as skip
    ranges for its council, or the identifier is in the invalid set. *)
Theorem should_skip_exactly_when (w : World.t) (id : string)
    (p : RegistrationNumberGenerator.parsed) :
  RegistrationNumberGenerator.parse RegistrationNumberGenerator.new id
  = Returns p →
  let c := RegistrationNumberGenerator.council_code p in
  let n := RegistrationNumberGenerator.student_number p in
  ∃ b, should_skip id w = (Returns b, w)
       ∧ (b = true ↔
          (∃ limit, council_limits (ledger w) !! c = Some limit ∧ limit < n)
          ∨ (∃ ranges r, skip_ranges (ledger w) !! c = Some ranges
                         ∧ r ∈ ranges ∧ start r <= n <= end_ r)
          ∨ id ∈ invalid_patterns (ledger w)).
Proof.
  intros Hparse c n. apply parse_returns in Hparse as [Hint Hc].
  subst c n. rewrite Hc. by apply should_skip_decision.
Qed.

Lemma should_skip_exactly_when_witness :
  ∃ b, should_skip "01000501" limited_run = (Returns b, limited_run)
       ∧ (b = true ↔
          (∃ limit, council_limits (ledger limited_run) !! "01" = Some limit
                    ∧ limit < 501)
          ∨ (∃ ranges r, skip_ranges (ledger limited_run) !! "01" = Some ranges
                         ∧ r ∈ ranges ∧ start r <= 501 <= end_ r)
          ∨ "01000501" ∈ invalid_patterns (ledger limited_run)).
Proof.
  apply (should_skip_exactly_when limited_run "01000501"
           {| RegistrationNumberGenerator.council_code := "01";
              RegistrationNumberGenerator.student_number := 501;
              RegistrationNumberGenerator.full := "01000501" |}).
  vm_compute. reflexivity.
Defined.

(** [set_council_limit] with a value that is not below the recorded limit
    changes nothing and writes nothing. *)
Lemma set_council_limit_keeps (w : World.t) (c : string) (v limit : Z) :
  council_limits (ledger w) !! c = Some limit → limit <= v →
  set_council_limit c v w = (Returns tt, w).
Proof.
  intros Hlimit Hle. unfold set_council_limit. run. rewrite Hlimit.
  unfold below_limit. destruct (Z.ltb_spec v limit); [lia | done].
Qed.

(** [set_council_limit] with a value below the recorded limit, or for a
    council without one, records the value and attempts the write. *)
Lemma set_council_limit_lowers (w : World.t) (c : string) (v : Z) :
  below_limit v (council_limits (ledger w) !! c) = true →
  ∃ o w',
    set_council_limit c v w = (o, w')
    ∧ council_limits (ledger w') = <[c := v]> (council_limits (ledger w))
    ∧ writes w' = tail (writes w)
    ∧ (head (writes w) = Some false →
       o = Raises OSError ∧ disk w' = disk w)
    ∧ (head (writes w) ≠ Some false →
       o = Returns tt
       ∧ council_limits_file (disk w')
         = Some (<[c := v]> (council_limits (ledger w)))).
Proof.
  intros Hbelow. unfold set_council_limit. run. rewrite Hbelow.
  unfold _save_council_limits, write_file. run. cbn.
  destruct (writes w) as [| [|] rest] eqn:Hw; cbn.
  - destruct (logger (ledger w)); do 2 eexists; (split; [reflexivity |]); cbn;
      rewrite ?Hw; repeat split; done.
  - destruct (logger (ledger w)); do 2 eexists; (split; [reflexivity |]); cbn;
      rewrite ?Hw; repeat split; done.
  - do 2 eexists. split; [reflexivity |]. cbn. rewrite ?Hw. repeat split; done.
Qed.

(** C6: the limit recorded by [set_council_limit] never goes up.  A call with
    a value greater than or equal to the recorded limit leaves the ledger,
    the files and everything else as they were (nothing is written); a call
    with a smaller value, or for a council without a limit, records the value
    and writes the limits file in the same call.  In particular, for a
    council without a limit, 500 then 800 leaves 500, and 200 after that
    makes it 200. *)
Theorem set_council_limit_never_raises_the_limit
    (w : World.t) (c : string) (v : Z) :
  let before := council_limits (ledger w) !! c in
  (∀ limit, before = Some limit → limit <= v →
     set_council_limit c v w = (Returns tt, w))
  ∧ (before = None ∨ (∃ limit, before = Some limit ∧ v < limit) →
     ∃ o w',
       set_council_limit c v w = (o, w')
       ∧ council_limits (ledger w') = <[c := v]> (council_limits (ledger w))
       ∧ writes w' = tail (writes w)
       ∧ (head (writes w) ≠ Some false →
          o = Returns tt
          ∧ council_limits_file (disk w') = Some (council_limits (ledger w'))))
  ∧ (before = None →
     let w1 := exec (set_council_limit c 500) w in
     let w2 := exec (set_council_limit c 800) w1 in
     let w3 := exec (set_council_limit c 200) w2 in
     council_limits (ledger w1) !! c = Some 500
     ∧ w2 = w1
     ∧ council_limits (ledger w3) !! c = Some 200).
Proof.
  intros before. split; [| split].
  - intros limit Hlimit Hle. by apply set_council_limit_keeps with limit.
  - intros Hbelow.
    assert (Hb : below_limit v before = true).
    { destruct Hbelow as [-> | (limit & -> & Hlt)]; [done |].
      by apply Z.ltb_lt. }
    destruct (set_council_limit_lowers w c v Hb)
      as (o & w' & Hrun & Hmem & Hwrites & _ & Hok).
    exists o, w'. repeat split; try done.
    + by apply Hok.
    + rewrite Hmem. by apply Hok.
  - intros Hnone w1 w2 w3.
    destruct (set_council_limit_lowers w c 500) as (o1 & w1' & Hrun1 & Hmem1 & _).
    { subst before. by rewrite Hnone. }
    assert (Hw1 : w1 = w1') by (subst w1; unfold exec; by rewrite Hrun1).
    assert (Hl1 : council_limits (ledger w1) !! c = Some 500).
    { rewrite Hw1, Hmem1. apply lookup_insert_eq. }
    assert (Hw2 : w2 = w1).
    { subst w2. unfold exec.
      by rewrite (set_council_limit_keeps w1 c 800 500 Hl1 ltac:(lia)). }
    split; [done |]. split; [done |].
    destruct (set_council_limit_lowers w2 c 200) as (o3 & w3' & Hrun3 & Hmem3 & _).
    { by rewrite Hw2, Hl1. }
    subst w3. unfold exec. rewrite Hrun3. cbn. rewrite Hmem3.
    apply lookup_insert_eq.
Qed.

Lemma set_council_limit_never_raises_the_limit_witness :
  set_council_limit "01" 800 limited_run = (Returns tt, limited_run)
  ∧ (∃ o w',
       set_council_limit "01" 200 limited_run = (o, w')
       ∧ council_limits (ledger w') !! "01" = Some 200
       ∧ o = Returns tt
       ∧ council_limits_file (disk w') = Some (council_limits (ledger w')))
  ∧ council_limits
      (ledger (exec (set_council_limit "02" 200)
                 (exec (set_council_limit "02" 800)
                    (exec (set_council_limit "02" 500) limited_run))))
    !! "02" = Some 200.
Proof.
  split; [| split].
  - destruct (set_council_limit_never_raises_the_limit limited_run "01" 800)
      as [Hkeep _].
    apply (Hkeep 500); [reflexivity | lia].
  - destruct (set_council_limit_never_raises_the_limit limited_run "01" 200)
      as (_ & Hlower & _).
    destruct Hlower as (o & w' & Hrun & Hmem & _ & Hok).
    { right. exists 500. split; [reflexivity | lia]. }
    exists o, w'. split; [done |]. split.
    + rewrite Hmem. apply lookup_insert_eq.
    + apply Hok. discriminate.
  - destruct (set_council_limit_never_raises_the_limit limited_run "02" 0)
      as (_ & _ & Hexample).
    apply Hexample. reflexivity.
Defined.

(** A failure below the threshold is counted and remembered; nothing else
    changes. *)
Lemma record_failure_below (w : World.t) (id e : string) (n : Z) :
  int (str_drop 2 id) = Some n →
  failure_count w id n + 1 < failure_threshold (ledger w) →
  ∃ w',
    record_failure id e w = (Returns tt, w')
    ∧ failure_count w' id n = failure_count w id n + 1
    ∧ invalid_patterns (ledger w') = {[id]} ∪ invalid_patterns (ledger w)
    ∧ skip_ranges (ledger w') = skip_ranges (ledger w)
    ∧ failure_threshold (ledger w') = failure_threshold (ledger w)
    ∧ disk w' = disk w ∧ writes w' = writes w ∧ log w' = log w
    ∧ ctime w' = ctime w.
Proof.
  intros Hint Hlt. unfold failure_count, failure_key in *.
  unfold record_failure, int_of. rewrite Hint. run.
  destruct (Z.geb_spec
              (default 0 (consecutive_failures (ledger w)
                          !! (str_take 2 id +:+ "_" +:+ str n)) + 1)
              (failure_threshold (ledger w))) as [Hge | _]; [lia |].
  eexists. split; [reflexivity |]. cbn.
  rewrite lookup_insert_eq. repeat split; done.
Qed.

Lemma record_failure_below_iter
    (k : nat) (w : World.t) (id e : string) (n : Z) :
  int (str_drop 2 id) = Some n →
  failure_count w id n + Z.of_nat k < failure_threshold (ledger w) →
  let w' := Nat.iter k (exec (record_failure id e)) w in
  failure_count w' id n = failure_count w id n + Z.of_nat k
  ∧ skip_ranges (ledger w') = skip_ranges (ledger w)
  ∧ failure_threshold (ledger w') = failure_threshold (ledger w)
  ∧ disk w' = disk w ∧ writes w' = writes w ∧ log w' = log w
  ∧ ctime w' = ctime w.
Proof.
  intros Hint. induction k as [| k IH]; intros Hlt.
  - cbn. repeat split; try done. lia.
  - cbv zeta.
    destruct IH as (Hcount & Hranges & Hthr & Hdisk & Hwrites & Hlog & Hctime);
      [lia |].
    set (wk := Nat.iter k (exec (record_failure id e)) w) in *.
    destruct (record_failure_below wk id e n Hint)
      as (w' & Hrun & Hc' & _ & Hr' & Ht' & Hd' & Hw' & Hl' & Hct'); [lia |].
    assert (Hstep : exec (record_failure id e) wk = w')
      by (unfold exec; by rewrite Hrun).
    rewrite !Nat.iter_succ. fold wk. rewrite Hstep.
    repeat split; try congruence. lia.
Qed.

(** The failure that reaches the threshold appends the range and attempts
    the write; when the write fails the exception leaves [record_failure]
    before the warning is logged. *)
Lemma record_failure_at_threshold (w : World.t) (id e : string) (n : Z) :
  int (str_drop 2 id) = Some n →
  failure_threshold (ledger w) <= failure_count w id n + 1 →
  ∃ o w',
    record_failure id e w = (o, w')
    ∧ skip_ranges (ledger w')
      = <[str_take 2 id :=
            default [] (skip_ranges (ledger w) !! str_take 2 id)
            ++ [promoted_range w n]]> (skip_ranges (ledger w))
    ∧ council_limits (ledger w') = council_limits (ledger w)
    ∧ writes w' = tail (writes w)
    ∧ (head (writes w) = Some false →
       o = Raises OSError ∧ disk w' = disk w ∧ log w' = log w)
    ∧ (head (writes w) ≠ Some false →
       o = Returns tt
       ∧ skip_ranges_file (disk w') = Some (skip_ranges (ledger w'))).
Proof.
  intros Hint Hge. unfold failure_count, failure_key in *.
  unfold record_failure, int_of. rewrite Hint. run.
  destruct (Z.geb_spec
              (default 0 (consecutive_failures (ledger w)
                          !! (str_take 2 id +:+ "_" +:+ str n)) + 1)
              (failure_threshold (ledger w))) as [_ | Hlt]; [| lia].
  unfold add_skip_range, _save_skip_ranges, write_file. run. cbn.
  destruct (writes w) as [| [|] rest] eqn:Hw; cbn.
  - destruct (logger (ledger w)); do 2 eexists; (split; [reflexivity |]); cbn;
      rewrite ?Hw; repeat split; done.
  - destruct (logger (ledger w)); do 2 eexists; (split; [reflexivity |]); cbn;
      rewrite ?Hw; repeat split; done.
  - do 2 eexists. split; [reflexivity |]. cbn. rewrite ?Hw. repeat split; done.
Qed.

(** A save whose three writes succeed leaves every file equal to its part of
    the ledger. *)
Lemma save_all_writes_ledger (w : World.t) :
  (∀ b, b ∈ take 3 (writes w) → b = true) →
  ∃ w',
    save_all w = (Returns tt, w')
    ∧ ledger w' = ledger w
    ∧ skip_ranges_file (disk w') = Some (skip_ranges (ledger w))
    ∧ council_limits_file (disk w') = Some (council_limits (ledger w))
    ∧ invalid_patterns_file (disk w') = Some (invalid_patterns (ledger w)).
Proof.
  intros Hok. unfold save_all, _save_skip_ranges, _save_council_limits,
    _save_invalid_patterns, write_file. run.
  destruct w as [l sv d wr lg sc fe rq ct]. cbn in *.
  destruct wr as [| b1 [| b2 [| b3 rest]]]; cbn in *.
  - destruct (logger l); eexists; (split; [reflexivity |]); done.
  - rewrite (Hok b1) by set_solver. cbn.
    destruct (logger l); eexists; (split; [reflexivity |]); done.
  - rewrite (Hok b1), (Hok b2) by set_solver. cbn.
    destruct (logger l); eexists; (split; [reflexivity |]); done.
  - rewrite (Hok b1), (Hok b2), (Hok b3) by set_solver. cbn.
    destruct (logger l); eexists; (split; [reflexivity |]); done.
Qed.

(** One hundred failures of 01000005 in a first run: the range recorded for
    council 01 is written to the file, but it starts at the failing number 5
    itself, so it is not the interval of the 1000 numbers after it. *)
Lemma promoted_range_starts_at_the_failing_number :
  ∃ r,
    skip_ranges
      (ledger (Nat.iter 100 (exec (record_failure "01000005" "not_found"))
                 first_run)) !! "01" = Some [r]
    ∧ start r = 5 ∧ end_ r = 1005
    ∧ in_range 5 r = true
    ∧ ¬ (∀ k, in_range k r = true ↔ 5 < k <= 1005).
Proof.
  exists {| start := 5; end_ := 1005; reason := "consecutive_failures";
            added_at := ctime first_run |}.
  split; [vm_compute; reflexivity |]. split; [done |]. split; [done |].
  split; [done |]. intros Hexact. destruct (Hexact 5) as [Hin _].
  specialize (Hin eq_refl). lia.
Qed.

(** C2, amended: from a counter at zero and with the default threshold of
    100, the first 99 calls of [record_failure] for an identifier add no skip
    range and write nothing; the 100th call appends to the ranges of the
    identifier's council a range tagged "consecutive_failures" whose closed
    interval runs from the failing number itself to that number plus 1000,
    and writes the skip-range file in that same call. *)
Theorem record_failure_promotes_at_the_threshold
    (w : World.t) (id : string) (n : Z) :
  int (str_drop 2 id) = Some n →
  failure_threshold (ledger w) = 100 →
  failure_count w id n = 0 →
  head (writes w) ≠ Some false →
  let w99 := Nat.iter 99 (exec (record_failure id "not_found")) w in
  skip_ranges (ledger w99) = skip_ranges (ledger w)
  ∧ disk w99 = disk w
  ∧ ∃ w100,
      record_failure id "not_found" w99 = (Returns tt, w100)
      ∧ skip_ranges (ledger w100)
        = <[str_take 2 id :=
              default [] (skip_ranges (ledger w) !! str_take 2 id)
              ++ [{| start := n; end_ := n + 1000;
                     reason := "consecutive_failures";
                     added_at := ctime w |}]]> (skip_ranges (ledger w))
      ∧ skip_ranges_file (disk w100) = Some (skip_ranges (ledger w100)).
Proof.
  intros Hint Hthr Hzero Hwrite w99.
  destruct (record_failure_below_iter 99 w id "not_found" n Hint)
    as (Hcount & Hranges & Hthr' & Hdisk & Hwrites & _ & Hctime); [lia |].
  fold w99 in Hcount, Hranges, Hthr', Hdisk, Hwrites, Hctime.
  split; [done |]. split; [done |].
  destruct (record_failure_at_threshold w99 id "not_found" n Hint)
    as (o & w100 & Hrun & Hmem & _ & _ & _ & Hok); [lia |].
  destruct Hok as [-> Hfile]; [by rewrite Hwrites |].
  exists w100. split; [done |]. split; [| done].
  rewrite Hmem, Hranges. unfold promoted_range. by rewrite Hctime.
Qed.

Lemma record_failure_promotes_at_the_threshold_witness :
  skip_ranges
    (ledger (Nat.iter 99 (exec (record_failure "01000005" "not_found"))
               first_run))
  = skip_ranges (ledger first_run)
  ∧ ∃ w100,
      record_failure "01000005" "not_found"
        (Nat.iter 99 (exec (record_failure "01000005" "not_found")) first_run)
      = (Returns tt, w100)
      ∧ skip_ranges_file (disk w100) = Some (skip_ranges (ledger w100)).
Proof.
  destruct (record_failure_promotes_at_the_threshold first_run "01000005" 5)
    as (Hsame & _ & w100 & Hrun & _ & Hfile).
  - reflexivity.
  - reflexivity.
  - reflexivity.
  - discriminate.
  - split; [exact Hsame |]. exists w100. by split.
Defined.

(** In a run that has counted 99 failures of 01000005 and whose next write
    fails, the 100th [record_failure] raises [OSError] to its caller. *)
Lemma record_failure_raises_when_the_write_fails :
  (record_failure "01000005" "not_found"
     (set_writes (λ _, [false])
        (Nat.iter 99 (exec (record_failure "01000005" "not_found"))
           first_run))).1
  = Raises OSError.
Proof. vm_compute. reflexivity. Qed.

(** C8, amended: when the write of the skip-range file fails during the
    promotion, [record_failure] does not catch the error: [OSError] reaches
    the caller, nothing is written and the warning is not logged.  The range
    has already been appended to the in-memory list of the council, and the
    next [save_all] whose writes succeed puts it in the file. *)
Theorem record_failure_lets_the_write_failure_through
    (w : World.t) (id e : string) (n : Z) (rest : list bool) :
  int (str_drop 2 id) = Some n →
  failure_threshold (ledger w) <= failure_count w id n + 1 →
  writes w = false :: rest →
  (∀ b, b ∈ take 3 rest → b = true) →
  ∃ w',
    record_failure id e w = (Raises OSError, w')
    ∧ disk w' = disk w
    ∧ log w' = log w
    ∧ (∃ ranges,
         skip_ranges (ledger w') !! str_take 2 id = Some ranges
         ∧ {| start := n; end_ := n + 1000; reason := "consecutive_failures";
              added_at := ctime w |} ∈ ranges)
    ∧ ∃ w'',
        save_all w' = (Returns tt, w'')
        ∧ skip_ranges_file (disk w'') = Some (skip_ranges (ledger w')).
Proof.
  intros Hint Hge Hwrites Hrest.
  destruct (record_failure_at_threshold w id e n Hint Hge)
    as (o & w' & Hrun & Hmem & _ & Hw' & Hfail & _).
  destruct Hfail as (-> & Hdisk & Hlog); [by rewrite Hwrites |].
  exists w'. split; [done |]. split; [done |]. split; [done |]. split.
  - eexists. split; [rewrite Hmem; apply lookup_insert_eq |].
    apply elem_of_app. right. by apply list_elem_of_singleton.
  - destruct (save_all_writes_ledger w') as (w'' & Hsave & _ & Hfile & _).
    { by rewrite Hw', Hwrites. }
    by exists w''.
Qed.

Lemma record_failure_lets_the_write_failure_through_witness :
  ∃ w',
    record_failure "01000005" "not_found" failing_disk_run
    = (Raises OSError, w')
    ∧ disk w' = disk failing_disk_run
    ∧ ∃ w'',
        save_all w' = (Returns tt, w'')
        ∧ skip_ranges_file (disk w'') = Some (skip_ranges (ledger w')).
Proof.
  destruct (record_failure_lets_the_write_failure_through
              failing_disk_run "01000005" "not_found" 5 [])
    as (w' & Hrun & Hdisk & _ & _ & Hsave).
  - reflexivity.
  - vm_compute. discriminate.
  - reflexivity.
  - intros b Hb. by apply elem_of_nil in Hb.
  - exists w'. by repeat split.
Defined.

End Ledger.

(** ** The single-probe loop *)

Section SingleProbe.
Import Py World Main.

(** [should_skip] only reads. *)
Lemma should_skip_reads_only (id : string) (w : World.t) :
  (CrawlerSkipManager.should_skip id w).2 = w.
Proof.
  unfold CrawlerSkipManager.should_skip, int_of.
  destruct (int (str_drop 2 id)) as [n |]; run; [| done].
  repeat match goal with |- context [if ?b then _ else _] => destruct b end;
    done.
Qed.

Lemma should_skip_returns (id : string) (w : World.t) (b : bool) :
  (CrawlerSkipManager.should_skip id w).1 = Returns b →
  CrawlerSkipManager.should_skip id w = (Returns b, w).
Proof.
  intros Hb. pose proof (should_skip_reads_only id w) as Hw.
  destruct (CrawlerSkipManager.should_skip id w) as [o w']. cbn in *.
  by subst.
Qed.

(** C1 fails on the code: when the ledger says to skip the identifier of the
    current turn, the turn of [main]'s loop contacts no backend and leaves
    the ledger alone, yet adds one to the consecutive-failure counter and one
    to the failed total (and nothing to the skipped total): the [False] that
    [crawl_registration_number] returns takes the [else] branch of
    [if result:]. *)
Theorem skipped_identifier_is_counted_as_a_failure
    (council_code : string) (l : locals) (w : World.t) :
  (CrawlerSkipManager.should_skip
     (council_code +:+ format_0d 6 (student_number l)) w).1 = Returns true →
  ∃ l' w',
    iteration council_code l w = (Returns l', w')
    ∧ consecutive_failures l' = consecutive_failures l + 1
    ∧ total_failed l' = total_failed l + 1
    ∧ total_skipped l' = total_skipped l
    ∧ total_successful l' = total_successful l
    ∧ total_processed l' = total_processed l + 1
    ∧ student_number l' = student_number l + 1
    ∧ requests w' = requests w
    ∧ ledger w' = ledger w.
Proof.
  intros Hskip. apply should_skip_returns in Hskip.
  unfold iteration, crawl_registration_number. run. rewrite Hskip. cbn.
  destruct (_ =? 0); do 2 eexists; (split; [reflexivity |]); done.
Qed.

Lemma skipped_identifier_is_counted_as_a_failure_witness :
  ∃ l' w',
    iteration "01" council_start skipping_run = (Returns l', w')
    ∧ consecutive_failures l' = 1
    ∧ total_failed l' = 1
    ∧ total_skipped l' = 0
    ∧ requests w' = [].
Proof.
  destruct (skipped_identifier_is_counted_as_a_failure
              "01" council_start skipping_run)
    as (l' & w' & Hrun & Hcf & Hfailed & Hskipped & _ & _ & _ & Hreq & _).
  - vm_compute. reflexivity.
  - exists l', w'. by repeat split.
Defined.

End SingleProbe.

(** ** The batched loop *)

Section Batched.
Import Py World MainEnhanced.

(** Whatever its outcome, [ResultsSaver.save_all] touches neither the
    ledger nor the backends. *)
Lemma results_save_all_frame (w w' : World.t) (o : outcome unit) :
  ResultsSaver.save_all w = (o, w') →
  ledger w' = ledger w ∧ requests w' = requests w ∧ fetches w' = fetches w
  ∧ scrapes w' = scrapes w.
Proof.
  unfold ResultsSaver.save_all, ResultsSaver.save_json, ResultsSaver.save_csv,
    ResultsSaver.save_summary, write_file. run.
  destruct w as [l [res p s f] d wr lg sc fe rq ct]. cbn.
  destruct res as [| r res];
    destruct wr as [| [|] [| [|] [| [|] rest]]]; cbn;
    rewrite ?success_rate_returns; cbn; intros [= <- <-]; done.
Qed.

(** As long as the loop runs, the batch it builds has [batch_size]
    identifiers. *)
Lemma create_batch_length (todo : list Z) (council_code : string)
    (failures number : Z) (batch : list string) :
  failures < 1000 →
  length (create_batch todo council_code failures number batch).1
  = (length batch + length todo)%nat.
Proof.
  intros Hlt. revert number batch.
  induction todo as [| i rest IH]; intros number batch; cbn [create_batch].
  - cbn. lia.
  - destruct (Z.geb_spec failures 1000); [lia |].
    rewrite IH, length_app. cbn. lia.
Qed.

Lemma valid_numbers_of_all_skipped (batch : list string) (w : World.t) :
  (∀ id, id ∈ batch → (CrawlerSkipManager.should_skip id w).1 = Returns true) →
  valid_numbers_of batch w = (Returns [], w).
Proof.
  induction batch as [| id batch IH]; intros Hall; [done |].
  cbn [valid_numbers_of]. run.
  rewrite (should_skip_returns id w true) by (apply Hall; left).
  rewrite IH; [done |]. intros id' Hin. apply Hall. by right.
Qed.

(** C10: when the ledger says to skip every identifier of a batch,
    [crawl_batch_api] returns the empty list and sends nothing to the
    backend; the turn of [crawl_council_fast]'s loop that processes the batch
    then leaves ledger and backend untouched whatever its outcome, and when
    it completes it has added the size of the batch to the
    consecutive-failure counter and to the failed total, as for a batch that
    was fetched and had no hit.  It completes whenever no auto-save is
    due. *)
Theorem all_skipped_batch_counts_as_failures
    (council_code : string) (batch : list string) (l : locals)
    (w : World.t) :
  (∀ id, id ∈ batch → (CrawlerSkipManager.should_skip id w).1 = Returns true) →
  crawl_batch_api (self l) batch w = (Returns [], w)
  ∧ (∀ o w',
       process_batch council_code batch l w = (o, w') →
       requests w' = requests w ∧ fetches w' = fetches w
       ∧ ledger w' = ledger w
       ∧ ∀ l', o = Returns l' →
           consecutive_failures l'
           = consecutive_failures l + Z.of_nat (length batch)
           ∧ total_failed (self l')
             = total_failed (self l) + Z.of_nat (length batch)
           ∧ total_processed (self l')
             = total_processed (self l) + Z.of_nat (length batch)
           ∧ total_successful (self l') = total_successful (self l)
           ∧ council_successful l' = council_successful l)
  ∧ (total_successful (self l) - last_save_count (self l) < 10000 →
     ∃ l' w', process_batch council_code batch l w = (Returns l', w')).
Proof.
  intros Hall.
  assert (Hcrawl : crawl_batch_api (self l) batch w = (Returns [], w)).
  { unfold crawl_batch_api. destruct (api_scraper (self l)); [| done].
    cbn [negb]. run. by rewrite valid_numbers_of_all_skipped. }
  split; [done |].
  unfold process_batch. run. rewrite Hcrawl. unfold with_stats. cbn.
  destruct (Z.geb_spec (total_successful (self l) - last_save_count (self l))
              10000) as [Hdue | Hnot].
  - split; [| lia]. intros o w'.
    destruct (ResultsSaver.save_all _) as [[[] | e] w1] eqn:Hsave;
      apply results_save_all_frame in Hsave as (Hl & Hr & Hf & _);
      cbn in Hl, Hr, Hf.
    + destruct (_ =? 0); intros [= <- <-]; cbn;
        (split; [done |]); (split; [done |]); (split; [done |]);
        intros l' [= <-]; done.
    + intros [= <- <-]. done.
  - split.
    + intros o w'.
      destruct (_ =? 0); intros [= <- <-]; cbn;
        (split; [done |]); (split; [done |]); (split; [done |]);
        intros l' [= <-]; done.
    + intros _. destruct (_ =? 0); by do 2 eexists.
Qed.

Lemma all_skipped_batch_counts_as_failures_witness :
  crawl_batch_api new ["01000001"] skipping_run = (Returns [], skipping_run)
  ∧ ∃ l' w',
      process_batch "01" ["01000001"]
        {| self := new; consecutive_failures := 0; student_number := 2;
           council_successful := 0 |} skipping_run
      = (Returns l', w')
      ∧ consecutive_failures l' = 1
      ∧ total_failed (self l') = 1
      ∧ requests w' = [].
Proof.
  destruct (all_skipped_batch_counts_as_failures "01" ["01000001"]
              {| self := new; consecutive_failures := 0; student_number := 2;
                 council_successful := 0 |} skipping_run)
    as (Hcrawl & Hturn & Hcompletes).
  - intros id Hid. apply list_elem_of_singleton in Hid as ->.
    vm_compute. reflexivity.
  - split; [exact Hcrawl |].
    destruct Hcompletes as (l' & w' & Hrun); [cbn; lia |].
    destruct (Hturn _ _ Hrun) as (Hreq & _ & _ & Hcount).
    destruct (Hcount l' eq_refl) as (Hcf & Hfailed & _).
    exists l', w'. repeat split; done.
Defined.

End Batched.

(** ** The final report *)

Section Report.
Import Py World Main.

Lemma bind_returns {A B} (m : M A) (f : A → M B) (w w' : World.t) (b : B) :
  (m ≫= f) w = (Returns b, w') →
  ∃ a w1, m w = (Returns a, w1) ∧ f a w1 = (Returns b, w').
Proof.
  unfold mbind, M_bind. destruct (m w) as [[a | e] w1]; [| done].
  intros Hf. by exists a, w1.
Qed.

Lemma ret_returns {A} (a b : A) (w w' : World.t) :
  (mret a : M A) w = (Returns b, w') → a = b ∧ w = w'.
Proof. by intros [= -> ->]. Qed.

(** A turn of the loop never touches [total_skipped]. *)
Lemma iteration_total_skipped (council_code : string) (l l' : locals)
    (w w' : World.t) :
  iteration council_code l w = (Returns l', w') →
  total_skipped l' = total_skipped l.
Proof.
  unfold iteration. intros Hrun.
  apply bind_returns in Hrun as (result & w1 & _ & Hrun).
  apply bind_returns in Hrun as (l1 & w2 & Hbranch & Hrun).
  apply bind_returns in Hrun as ([] & w3 & _ & Hrun).
  apply ret_returns in Hrun as [<- _]. cbn.
  destruct result as [| d |].
  - by apply ret_returns in Hbranch as [<- _].
  - apply bind_returns in Hbranch as ([] & w4 & _ & Hbranch).
    cbv zeta in Hbranch.
    match type of Hbranch with
    | (if ?c then _ else _) _ = _ => destruct c
    end.
    + apply bind_returns in Hbranch as ([] & w5 & _ & Hbranch).
      apply bind_returns in Hbranch as ([] & w6 & _ & Hbranch).
      apply bind_returns in Hbranch as ([] & w7 & _ & Hbranch).
      by apply ret_returns in Hbranch as [<- _].
    + by apply ret_returns in Hbranch as [<- _].
  - by apply ret_returns in Hbranch as [<- _].
Qed.

(** Statements that return have made the assignments among them, and
    nothing else, of the counters. *)
Lemma run_steps_returns (todo : list statement) :
  ∀ (n : nat) (l l' : locals) (n' : nat) (w w' : World.t),
    run_steps n todo l w = (Returns (l', n'), w') →
    l' = assigned (take n todo) l ∧ n' = (n - length todo)%nat.
Proof.
  induction todo as [| s rest IH]; intros n l l' n' w w' Hrun.
  - destruct n; apply ret_returns in Hrun as [[= <- <-] _]; cbn;
      (split; [done | lia]).
  - destruct n as [| n].
    + apply ret_returns in Hrun as [[= <- <-] _]. done.
    + cbn [run_steps] in Hrun. destruct s as [f | m].
      * apply IH in Hrun as [-> ->]. done.
      * apply bind_returns in Hrun as ([] & w1 & _ & Hrun).
        apply IH in Hrun as [-> ->]. done.
Qed.

(** The counters at the interrupt: those of the start of the turn after the
    assignments among the statements that ran. *)
Lemma interrupted_iteration_returns (point : nat) (council_code : string)
    (l l' : locals) (w w' : World.t) :
  interrupted_iteration point council_code l w = (Returns l', w') →
  ∃ first mid,
    ((∃ d, first = found_steps d) ∧ (mid = auto_save_steps ∨ mid = [])
     ∨ first = missed_steps ∧ mid = [])
    ∧ l' = assigned
             (take (point - length first - length mid)
                (closing_steps council_code))
             (assigned (take (point - length first) mid)
                (assigned (take point first) l)).
Proof.
  unfold interrupted_iteration. intros Hrun.
  apply bind_returns in Hrun as (result & w1 & _ & Hrun).
  apply bind_returns in Hrun as ([l2 n2] & w2 & Hbranch & Hrun).
  apply bind_returns in Hrun as ([l3 n3] & w3 & Hclosing & Hrun).
  apply ret_returns in Hrun as [<- _].
  apply run_steps_returns in Hclosing as [-> _].
  assert (Hmissed :
    run_steps point missed_steps l w1 = (Returns (l2, n2), w2) →
    ∃ first mid,
      ((∃ d, first = found_steps d) ∧ (mid = auto_save_steps ∨ mid = [])
       ∨ first = missed_steps ∧ mid = [])
      ∧ assigned (take n2 (closing_steps council_code)) l2
        = assigned
            (take (point - length first - length mid)
               (closing_steps council_code))
            (assigned (take (point - length first) mid)
               (assigned (take point first) l))).
  { intros Hsteps. apply run_steps_returns in Hsteps as [-> ->].
    exists missed_steps, []. split; [by right |].
    by rewrite take_nil, Nat.sub_0_r. }
  destruct result as [| d |]; [by apply Hmissed | | by apply Hmissed].
  clear Hmissed.
  apply bind_returns in Hbranch as ([l1 n1] & w4 & Hfound & Hbranch).
  apply run_steps_returns in Hfound as [-> ->].
  match type of Hbranch with
  | (if ?c then _ else _) _ = _ => destruct c
  end.
  - apply run_steps_returns in Hbranch as [-> ->].
    exists (found_steps d), auto_save_steps.
    split; [left; split; [by exists d | by left] | done].
  - apply ret_returns in Hbranch as [[= <- <-] _].
    exists (found_steps d), []. split; [left; split; [by exists d | by right] |].
    by rewrite take_nil, Nat.sub_0_r.
Qed.

(** No statement of a turn assigns to [total_skipped]. *)
Lemma interrupted_iteration_total_skipped (point : nat)
    (council_code : string) (l l' : locals) (w w' : World.t) :
  interrupted_iteration point council_code l w = (Returns l', w') →
  total_skipped l' = total_skipped l.
Proof.
  intros Hrun.
  apply interrupted_iteration_returns in Hrun as (first & mid & Hshape & ->).
  assert (Hkeep : ∀ (todo : list statement) (n : nat) (l0 : locals),
    Forall (λ s, match s with
                 | Assign f => ∀ l1, total_skipped (f l1) = total_skipped l1
                 | Call _ => True
                 end) todo →
    total_skipped (assigned (take n todo) l0) = total_skipped l0).
  { intros todo. induction todo as [| s rest IH]; intros n l0 Hall.
    - by rewrite take_nil.
    - destruct n as [| n]; [done |]. apply Forall_cons in Hall as [Hs Hall].
      cbn. unfold assigned in IH. rewrite IH by done. by destruct s. }
  rewrite !Hkeep; [done | | |].
  - destruct Hshape as [[[d ->] _] | [-> _]]; by repeat constructor.
  - destruct Hshape as [[_ [-> | ->]] | [_ ->]]; by repeat constructor.
  - by repeat constructor.
Qed.

Lemma while_loop_total_skipped (budget point : nat) (council_code : string)
    (l l' : locals) (w w' : World.t) (left : nat) (interrupted : bool) :
  while_loop budget point council_code l w
  = (Returns (l', left, interrupted), w') →
  total_skipped l' = total_skipped l.
Proof.
  revert l w. induction budget as [| budget IH]; intros l w; cbn [while_loop].
  - destruct (_ <? 10).
    + destruct point as [| point]; intros Hrun.
      * by apply ret_returns in Hrun as [[= <- _ _] _].
      * apply bind_returns in Hrun as (l1 & w1 & Hturn & Hrun).
        apply ret_returns in Hrun as [[= <- _ _] _].
        by apply interrupted_iteration_total_skipped in Hturn.
    + intros Hrun. by apply ret_returns in Hrun as [[= <- _ _] _].
  - destruct (_ <? 10).
    + intros Hrun. apply bind_returns in Hrun as (l1 & w1 & Hturn & Hrun).
      apply IH in Hrun. apply iteration_total_skipped in Hturn. congruence.
    + intros Hrun. by apply ret_returns in Hrun as [[= <- _ _] _].
Qed.

Lemma councils_total_skipped (todo : list Z) (budget point : nat)
    (l l' : locals) (w w' : World.t) (interrupted : bool) :
  councils budget point todo l w = (Returns (l', interrupted), w') →
  total_skipped l' = total_skipped l.
Proof.
  revert budget l w. induction todo as [| council_num rest IH];
    intros budget l w; cbn [councils].
  - intros Hrun. by apply ret_returns in Hrun as [[= <- _] _].
  - intros Hrun. cbv zeta in Hrun.
    apply bind_returns in Hrun as ([] & w1 & _ & Hrun).
    apply bind_returns in Hrun as ([[l1 left] stop] & w2 & Hloop & Hrun).
    apply while_loop_total_skipped in Hloop. cbn in Hloop.
    destruct stop.
    + by apply ret_returns in Hrun as [[= <- _] _].
    + apply bind_returns in Hrun as ([] & w3 & _ & Hrun).
      apply bind_returns in Hrun as ([] & w4 & _ & Hrun).
      apply bind_returns in Hrun as ([] & w5 & _ & Hrun).
      apply bind_returns in Hrun as ([] & w6 & _ & Hrun).
      apply bind_returns in Hrun as ([] & w7 & _ & Hrun).
      apply IH in Hrun. cbn in Hrun. congruence.
Qed.

(** Whatever its outcome, [ResultsSaver.save_all] leaves the results and
    the two counts that [add_result] keeps as they are. *)
Lemma results_save_all_counts (w w' : World.t) (o : outcome unit) :
  ResultsSaver.save_all w = (o, w') →
  sink_counts w' = sink_counts w ∧ results (saver w') = results (saver w).
Proof.
  unfold ResultsSaver.save_all, ResultsSaver.save_json, ResultsSaver.save_csv,
    ResultsSaver.save_summary, write_file, sink_counts. run.
  destruct w as [l [res p s f] d wr lg sc fe rq ct]. cbn.
  destruct res as [| r res];
    destruct wr as [| [|] [| [|] [| [|] rest]]]; cbn;
    rewrite ?success_rate_returns; cbn; intros [= <- <-]; done.
Qed.

(** A [ResultsSaver.save_all] that returns has written the summary of the
    counts of the sink. *)
Lemma results_save_all_summary (w w' : World.t) :
  ResultsSaver.save_all w = (Returns tt, w') →
  ∃ s, summary_file (disk w') = Some s
       ∧ summary_total_processed s = World.total_processed (saver w)
       ∧ summary_successful s = World.successful (saver w)
       ∧ summary_failed s
         = World.total_processed (saver w) - World.successful (saver w)
       ∧ summary_success_rate s
         = (inject_Z (World.successful (saver w))
            / inject_Z (Z.max 1 (World.total_processed (saver w))) * 100)%Q.
Proof.
  unfold ResultsSaver.save_all, ResultsSaver.save_json, ResultsSaver.save_csv,
    ResultsSaver.save_summary, write_file. run.
  destruct w as [l [res p s f] d wr lg sc fe rq ct]. cbn.
  destruct res as [| r res];
    destruct wr as [| [|] [| [|] [| [|] rest]]]; cbn;
    rewrite ?success_rate_returns; cbn; intros [= <-]; cbn;
    eexists; (split; [reflexivity |]); done.
Qed.

(** The save of the ledger touches neither the sink nor its summary. *)
Lemma ledger_save_all_frame (w w' : World.t) (o : outcome unit) :
  CrawlerSkipManager.save_all w = (o, w') →
  saver w' = saver w ∧ summary_file (disk w') = summary_file (disk w).
Proof.
  unfold CrawlerSkipManager.save_all, CrawlerSkipManager._save_skip_ranges,
    CrawlerSkipManager._save_council_limits,
    CrawlerSkipManager._save_invalid_patterns, write_file. run.
  destruct w as [l sv d wr lg sc fe rq ct]. cbn.
  destruct wr as [| [|] [| [|] [| [|] rest]]]; cbn; destruct (logger l); cbn;
    intros [= <- <-]; done.
Qed.

(** [ResultsSaver.save_all] logs nothing, and the save of the ledger only
    adds to the log. *)
Lemma results_save_all_log (w w' : World.t) (o : outcome unit) :
  ResultsSaver.save_all w = (o, w') → log w' = log w.
Proof.
  unfold ResultsSaver.save_all, ResultsSaver.save_json, ResultsSaver.save_csv,
    ResultsSaver.save_summary, write_file. run.
  destruct w as [l [res p s f] d wr lg sc fe rq ct]. cbn.
  destruct res as [| r res];
    destruct wr as [| [|] [| [|] [| [|] rest]]]; cbn;
    rewrite ?success_rate_returns; cbn; intros [= <- <-]; done.
Qed.

Lemma ledger_save_all_log (w w' : World.t) (o : outcome unit) :
  CrawlerSkipManager.save_all w = (o, w') → log w ⊆ log w'.
Proof.
  unfold CrawlerSkipManager.save_all, CrawlerSkipManager._save_skip_ranges,
    CrawlerSkipManager._save_council_limits,
    CrawlerSkipManager._save_invalid_patterns, write_file. run.
  destruct w as [l sv d wr lg sc fe rq ct]. cbn.
  destruct wr as [| [|] [| [|] [| [|] rest]]]; cbn; destruct (logger l); cbn;
    intros [= <- <-]; cbn; set_solver.
Qed.

(** The run of [main] up to its final statistics: the counters that the
    loop over the councils left, the final save and the statistics made of
    the counters. *)
Lemma main_returns (budget point : nat) (w w' : World.t)
    (stats : final_statistics) :
  main budget point w = (Returns stats, w') →
  ∃ l stop w1 w2 w3 w4,
    councils budget point (range 1 66)
      {| consecutive_failures := 0; student_number := 1;
         council_successful := 0;
         total_processed := 0; total_successful := 0; total_failed := 0;
         total_skipped := 0; last_save_count := 0 |} w1
    = (Returns (l, stop), w2)
    ∧ saver w1 = saver w
    ∧ ResultsSaver.save_all w3 = (Returns tt, w4)
    ∧ sink_counts w3 = sink_counts w2
    ∧ summary_file (disk w') = summary_file (disk w4)
    ∧ sink_counts w' = sink_counts w3
    ∧ final_stats l = Returns stats
    ∧ (stop = true → (INFO, "Crawler interrupted by user") ∈ log w').
Proof.
  unfold main, try_except.
  match goal with |- context [let (_, _) := ?body w in _] =>
    destruct (body w) as [[a | e] w0] eqn:Hbody end.
  2: { destruct (is_exception e); [| done]. run. done. }
  intros [= -> ->].
  cbv zeta in Hbody.
  apply bind_returns in Hbody as ([] & wa & Ha & Hbody).
  apply bind_returns in Hbody as ([] & wb & Hb & Hbody).
  apply bind_returns in Hbody as ([] & w1 & Hc & Hbody).
  apply bind_returns in Hbody as ([l stop] & w2 & Hcouncils & Hbody).
  apply bind_returns in Hbody as ([] & wd & Hhandler & Hbody).
  apply bind_returns in Hbody as ([] & w3 & He & Hbody).
  apply bind_returns in Hbody as ([] & w4 & Hsave & Hbody).
  apply bind_returns in Hbody as ([] & wf & Hf & Hbody).
  apply bind_returns in Hbody as (stats' & wg & Hstats & Hbody).
  apply bind_returns in Hbody as ([] & wh & Hh & Hbody).
  apply bind_returns in Hbody as ([] & wi & Hledger & Hbody).
  apply bind_returns in Hbody as (skip_stats & wj & Hskip & Hbody).
  apply bind_returns in Hbody as ([] & wk & Hk & Hbody).
  apply ret_returns in Hbody as [-> ->].
  exists l, stop, w1, w2, w3, w4.
  injection Ha as <-. injection Hb as <-. injection Hc as <-.
  injection He as <-. injection Hf as <-. injection Hh as <-.
  injection Hk as <-. injection Hskip as _ <-.
  injection Hstats as Hstats <-.
  pose proof (ledger_save_all_log _ _ _ Hledger) as Hlog.
  pose proof (results_save_all_log _ _ _ Hsave) as Hlog'.
  apply ledger_save_all_frame in Hledger as [Hsaver Hsummary].
  split; [done |]. split; [done |]. split; [done |].
  assert (Hline : stop = true →
                  (INFO, "Crawler interrupted by user") ∈ log wd).
  { intros ->.
    apply bind_returns in Hhandler as ([] & wl & Hl & Hhandler).
    apply bind_returns in Hhandler as ([] & wm & Hm & Hhandler).
    apply bind_returns in Hhandler as ([] & wn & Hn & Hhandler).
    injection Hl as <-. injection Hm as <-. injection Hhandler as <-.
    apply results_save_all_log in Hn. cbn. rewrite Hn. cbn.
    apply elem_of_app. left. apply elem_of_app. left.
    apply elem_of_app. right. apply list_elem_of_singleton. done. }
  assert (Hmid : sink_counts wd = sink_counts w2).
  { destruct stop.
    - apply bind_returns in Hhandler as ([] & wl & Hl & Hhandler).
      apply bind_returns in Hhandler as ([] & wm & Hm & Hhandler).
      apply bind_returns in Hhandler as ([] & wn & Hn & Hhandler).
      injection Hl as <-. injection Hm as <-. injection Hhandler as <-.
      by apply results_save_all_counts in Hn as [Hn _].
    - by injection Hhandler as <-. }
  split; [done |]. split; [done |].
  split.
  { apply results_save_all_counts in Hsave as [Hsave _]. rewrite <- Hsave.
    unfold sink_counts. cbn in *. congruence. }
  split; [done |]. intros Hstop. specialize (Hline Hstop).
  cbn in *. apply elem_of_app. left. apply Hlog. cbn.
  apply elem_of_app. left. apply elem_of_app. left. rewrite Hlog'. cbn.
  apply elem_of_app. by left.
Qed.

End Report.

(** ** More on the identifier generator *)

Section Enumeration.
Import Py RegistrationNumberGenerator.

(** What [generate_all] enumerates. *)
Lemma elem_of_generate_for_council (self : t) (c x : string) :
  x ∈ generate_for_council self c
  ↔ ∃ n, student_number_min self <= n <= student_number_max self
         ∧ x = generate_single self c n.
Proof.
  rewrite generate_for_council_map, list_elem_of_fmap. unfold range.
  split.
  - intros (n & -> & Hn). apply elem_of_seqZ in Hn. exists n. split; [lia | done].
  - intros (n & Hn & ->). exists n. split; [done |]. apply elem_of_seqZ. lia.
Qed.

Lemma elem_of_concat {A} (x : A) (ls : list (list A)) :
  x ∈ concat ls ↔ ∃ l, x ∈ l ∧ l ∈ ls.
Proof.
  induction ls as [| l ls IH]; cbn [concat].
  - split; [by intros ?%elem_of_nil | by intros (l & _ & ?%elem_of_nil)].
  - rewrite elem_of_app, IH. split.
    + intros [Hx | (l' & Hx & Hl')]; [exists l; split; [done | by left] |].
      exists l'. split; [done | by right].
    + intros (l' & Hx & Hl'). apply elem_of_cons in Hl' as [-> | Hl'];
        [by left | right; by exists l'].
Qed.

Lemma elem_of_generate_all (self : t) (x : string) :
  x ∈ generate_all self
  ↔ ∃ c n, c ∈ council_codes self
           ∧ student_number_min self <= n <= student_number_max self
           ∧ x = generate_single self c n.
Proof.
  rewrite generate_all_concat, elem_of_concat. split.
  - intros (l & Hx & Hl). apply list_elem_of_fmap in Hl as (c & -> & Hc).
    apply elem_of_generate_for_council in Hx as (n & Hn & ->). by exists c, n.
  - intros (c & n & Hc & Hn & ->). exists (generate_for_council self c).
    split; [apply elem_of_generate_for_council; by exists n |].
    apply list_elem_of_fmap. by exists c.
Qed.

(** [get_total_count] is the number of identifiers that [generate_all]
    enumerates, as long as the bounds are not inverted by more than one. *)
Theorem get_total_count_is_length_of_generate_all (self : t) :
  student_number_min self <= student_number_max self + 1 →
  Z.of_nat (length (generate_all self)) = get_total_count self.
Proof.
  intros Hbounds. rewrite generate_all_concat. unfold get_total_count.
  induction (council_codes self) as [| c codes IH]; [cbn; lia |].
  cbn [fmap list_fmap concat length].
  fold (@fmap list _ _ _ (generate_for_council self) codes).
  rewrite length_app, Nat2Z.inj_add, IH, generate_for_council_map, length_fmap.
  unfold range. rewrite length_seqZ. lia.
Qed.

Lemma get_total_count_is_length_of_generate_all_witness :
  Z.of_nat (length (generate_all new)) = get_total_count new.
Proof.
  apply get_total_count_is_length_of_generate_all. vm_compute. discriminate.
Defined.

(** Every identifier that [generate_all] enumerates for the configured
    space is accepted by [is_valid_format], and [parse] gives back the
    council code and number it was built from. *)
Theorem generate_all_identifiers_parse (x : string) :
  x ∈ generate_all new →
  is_valid_format new x = true
  ∧ ∃ c n, c ∈ council_codes new ∧ 1 <= n <= 999999
           ∧ parse new x
             = Returns {| council_code := c; student_number := n; full := x |}.
Proof.
  intros Hx. apply elem_of_generate_all in Hx as (c & n & Hc & Hn & ->).
  split; [by apply is_valid_format_generate_single |].
  exists c, n. split; [done |]. split; [exact Hn |].
  unfold parse. rewrite is_valid_format_generate_single by done. cbn [negb].
  pose proof (proj1 (Forall_forall _ _) council_codes_length c Hc) as Hlen.
  cbn in Hn. unfold generate_single. cbv zeta.
  rewrite (str_drop_append c _ 2 Hlen), int_format_0d by lia.
  by rewrite (str_take_append c _ 2 Hlen).
Qed.

Lemma generate_all_identifiers_parse_witness :
  is_valid_format new "01000001" = true
  ∧ ∃ c n, c ∈ council_codes new ∧ 1 <= n <= 999999
           ∧ parse new "01000001"
             = Returns {| council_code := c; student_number := n;
                          full := "01000001" |}.
Proof.
  apply (generate_all_identifiers_parse "01000001").
  apply elem_of_generate_all. exists "01", 1.
  split; [apply (bool_decide_unpack _); vm_compute; exact I |].
  split; [vm_compute; split; discriminate | reflexivity].
Defined.

(** Two identifiers built from council codes of one length and from
    non-negative numbers are equal only when both parts are. *)
Lemma generate_single_inj (self : t) (c c' : string) (n n' : Z) :
  String.length c = String.length c' → 0 <= n → 0 <= n' →
  generate_single self c n = generate_single self c' n' →
  c = c' ∧ n = n'.
Proof.
  intros Hlen Hn Hn' Heq. unfold generate_single in Heq. cbv zeta in Heq.
  pose proof (f_equal (str_take (String.length c)) Heq) as Htake.
  rewrite (str_take_append c _ _ eq_refl) in Htake.
  rewrite (str_take_append c' _ _ (eq_sym Hlen)) in Htake.
  pose proof (f_equal (λ s, int (str_drop (String.length c) s)) Heq) as Hdrop.
  cbv beta in Hdrop.
  rewrite (str_drop_append c _ _ eq_refl) in Hdrop.
  rewrite (str_drop_append c' _ _ (eq_sym Hlen)) in Hdrop.
  rewrite !int_format_0d in Hdrop by done.
  split; [done | congruence].
Qed.

(** [generate_all] enumerates no identifier twice when the council codes
    are distinct and of one length and the lower bound is not negative. *)
Theorem generate_all_has_no_duplicates (self : t) (k : nat) :
  NoDup (council_codes self) →
  Forall (λ c, String.length c = k) (council_codes self) →
  0 <= student_number_min self →
  NoDup (generate_all self).
Proof.
  intros Hnodup Hlen Hmin. rewrite generate_all_concat.
  induction Hnodup as [| c codes Hc Hnodup IH]; [constructor |].
  apply Forall_cons in Hlen as [Hlenc Hlen].
  cbn [fmap list_fmap concat].
  fold (@fmap list _ _ _ (generate_for_council self) codes).
  apply NoDup_app. split; [| split; [| by apply IH]].
  - rewrite generate_for_council_map.
    apply NoDup_fmap_2_strong; [| apply NoDup_seqZ].
    intros n n' Hn Hn' Heq. unfold range in *.
    apply elem_of_seqZ in Hn. apply elem_of_seqZ in Hn'.
    by apply generate_single_inj in Heq as [_ ?]; [| done | lia | lia].
  - intros x Hx Hx'.
    apply elem_of_generate_for_council in Hx as (n & Hn & ->).
    apply elem_of_concat in Hx' as (l & Hx' & Hl).
    apply list_elem_of_fmap in Hl as (c' & -> & Hc').
    apply elem_of_generate_for_council in Hx' as (n' & Hn' & Heq).
    pose proof (proj1 (Forall_forall _ _) Hlen c' Hc') as Hlenc'.
    apply generate_single_inj in Heq as [-> _]; [done | congruence | lia | lia].
Qed.

Lemma council_codes_nodup : NoDup (council_codes new).
Proof. apply (bool_decide_unpack _). vm_compute. exact I. Qed.

Lemma generate_all_has_no_duplicates_witness : NoDup (generate_all new).
Proof.
  apply (generate_all_has_no_duplicates new 2).
  - exact council_codes_nodup.
  - exact council_codes_length.
  - vm_compute. discriminate.
Defined.

(** The number of batches that the loop yields for one council is the
    number of its identifiers divided by the batch size, rounded up. *)
Lemma batches_loop_count (self : t) (size : Z) (c : string)
    (todo : list Z) (batch : list string) :
  Z.of_nat (length batch) < size →
  Z.of_nat (length (batches_loop self size c todo batch))
  = (Z.of_nat (length batch + length todo) + size - 1) `div` size.
Proof.
  revert batch. induction todo as [| i rest IH]; intros batch Hlt.
  - rewrite Nat.add_0_r. destruct batch as [| x batch]; cbn [batches_loop length].
    + symmetry. apply Z.div_small. lia.
    + symmetry. cbn [length] in Hlt.
      replace (Z.of_nat (S (length batch)) + size - 1)
        with (Z.of_nat (length batch) + 1 * size) by lia.
      rewrite Z.div_add by lia. rewrite Z.div_small by lia. done.
  - cbn [batches_loop].
    destruct (Z.eqb_spec (Z.of_nat (length (batch ++ [generate_single self c i])))
                size) as [Hfull | Hnot]; rewrite length_app in *; cbn [length] in *.
    + rewrite Nat2Z.inj_succ, (IH []) by (cbn; lia). cbn [length Nat.add].
      replace (Z.of_nat (length batch + S (length rest)) + size - 1)
        with (Z.of_nat (length rest) + size - 1 + 1 * size) by lia.
      rewrite Z.div_add by lia. lia.
    + rewrite IH by (rewrite length_app; cbn; lia).
      rewrite length_app. cbn [length]. f_equal; lia.
Qed.

(** The batches of all councils, counted. *)
Lemma council_batches_total (self : t) (size : Z) :
  0 < size →
  student_number_min self <= student_number_max self + 1 →
  Z.of_nat (length (concat (council_batches self size <$> council_codes self)))
  = Z.of_nat (length (council_codes self))
    * ((student_number_max self - student_number_min self + 1 + size - 1)
         `div` size).
Proof.
  intros Hsize Hbounds.
  induction (council_codes self) as [| c codes IH]; [cbn; lia |].
  cbn [fmap list_fmap concat length].
  fold (@fmap list _ _ _ (council_batches self size) codes).
  rewrite length_app, Nat2Z.inj_add, IH. unfold council_batches.
  rewrite batches_loop_count by (cbn; lia). unfold range.
  rewrite length_seqZ. cbn [length Nat.add].
  replace (Z.of_nat (Z.to_nat (student_number_max self + 1
                               - student_number_min self)))
    with (student_number_max self - student_number_min self + 1) by lia.
  lia.
Qed.

(** For a positive batch size, [generate_batches] yields for every council
    as many batches as its identifiers need, rounded up; the total is that
    number times the number of councils. *)
Theorem generate_batches_count (self : t) (size : Z) :
  0 < size →
  student_number_min self <= student_number_max self + 1 →
  Z.of_nat (length (generate_batches self (Some size)))
  = Z.of_nat (length (council_codes self))
    * ((student_number_max self - student_number_min self + 1 + size - 1)
         `div` size).
Proof.
  intros Hsize Hbounds. rewrite generate_batches_concat.
  cbn [effective_batch_size]. by apply council_batches_total.
Qed.

Lemma generate_batches_count_witness :
  Z.of_nat (length (generate_batches new (Some 1000))) = 65 * 1000.
Proof.
  rewrite (generate_batches_count new 1000);
    [| lia | vm_compute; discriminate].
  vm_compute. reflexivity.
Defined.

(** [get_stats] never reports more batches than [generate_batches] yields
    with the default size: it rounds the whole space up once, while the
    generator rounds up once per council. *)
Theorem get_stats_total_batches_at_most_generated (self : t) :
  0 < Config.batch_size (Config.crawler (config self)) →
  student_number_min self <= student_number_max self + 1 →
  total_batches (get_stats self)
  <= Z.of_nat (length (generate_batches self None)).
Proof.
  intros Hsize Hbounds.
  rewrite generate_batches_concat. cbn [effective_batch_size].
  rewrite (council_batches_total self _ Hsize Hbounds). unfold get_stats, get_total_count. cbn [total_batches].
  assert (Hc : 0 <= student_number_max self - student_number_min self + 1)
    by lia.
  assert (Hk : 0 <= Z.of_nat (length (council_codes self))) by lia.
  revert Hc Hk Hsize.
  generalize (Config.batch_size (Config.crawler (config self))).
  generalize (student_number_max self - student_number_min self + 1).
  generalize (Z.of_nat (length (council_codes self))).
  clear. intros k count size Hc Hk Hsize.
  replace (count + size - 1) with (count + (size - 1)) by lia.
  replace (k * count + size - 1) with (k * count + (size - 1)) by lia.
  set (q := (count + (size - 1)) `div` size).
  assert (Hq : count <= q * size).
  { pose proof (Z.div_mod (count + (size - 1)) size ltac:(lia)) as Hdm.
    pose proof (Z.mod_pos_bound (count + (size - 1)) size ltac:(lia)).
    fold q in Hdm. lia. }
  apply Z.lt_succ_r, Z.div_lt_upper_bound; [lia |].
  assert (Hkq : k * count <= k * (q * size)) by (apply Z.mul_le_mono_nonneg_l; lia).
  lia.
Qed.

Lemma get_stats_total_batches_at_most_generated_witness :
  total_batches (get_stats new) <= Z.of_nat (length (generate_batches new None)).
Proof.
  apply get_stats_total_batches_at_most_generated.
  - vm_compute. reflexivity.
  - vm_compute. discriminate.
Defined.

End Enumeration.

(** ** [generate_range] *)

Section Range.
Import Py RegistrationNumberGenerator.

Lemma index_None (x : string) (l : list string) : index x l = None ↔ x ∉ l.
Proof.
  unfold index. rewrite fmap_None, list_find_None, Forall_forall. split.
  - intros Hall Hin. by apply (Hall x).
  - intros Hnot y Hy ->. done.
Qed.

Lemma index_Some (x : string) (l : list string) (i : nat) :
  index x l = Some i ↔ l !! i = Some x ∧ ∀ j, (j < i)%nat → l !! j ≠ Some x.
Proof.
  unfold index. rewrite fmap_Some. split.
  - intros ([j y] & Hfind & ->). apply list_find_Some in Hfind as (Hl & -> & Hmin).
    cbn. split; [done |]. intros k Hk Hlk. by apply (Hmin k x).
  - intros [Hl Hmin]. exists (i, x). split; [| done].
    apply list_find_Some. split; [done |]. split; [done |].
    intros j y Hj Hlt ->. by apply (Hmin j).
Qed.

Lemma index_elem_of (x : string) (l : list string) :
  x ∈ l → ∃ i, index x l = Some i ∧ l !! i = Some x.
Proof.
  intros Hin. destruct (index x l) as [i |] eqn:Hi.
  - exists i. split; [done |]. by apply index_Some in Hi as [? _].
  - by apply index_None in Hi.
Qed.

(** In a list without duplicates [index] finds the position of every
    element. *)
Lemma index_lookup_nodup (x : string) (l : list string) (i : nat) :
  NoDup l → l !! i = Some x → index x l = Some i.
Proof.
  intros Hnodup Hl. apply index_Some. split; [done |].
  intros j Hj Hlj. pose proof (NoDup_lookup l i j x Hnodup Hl Hlj). lia.
Qed.

(** [generate_range] raises [ValueError] exactly when one of the two council
    codes is not configured. *)
Theorem generate_range_invalid_council (self : t) (start_council : string)
    (start_student : Z) (end_council : string) (end_student : Z) :
  generate_range self start_council start_student end_council end_student
  = Raises ValueError
  ↔ start_council ∉ council_codes self ∨ end_council ∉ council_codes self.
Proof.
  unfold generate_range. rewrite <- !index_None.
  destruct (index start_council (council_codes self)),
           (index end_council (council_codes self)); split; try done.
  - intros [? | ?]; done.
  - by right.
  - by left.
  - by left.
Qed.

(** Within one configured council, [generate_range] gives the identifiers of
    the numbers from [start_student] to [end_student], both included and
    whatever the configured bounds; nothing when they are inverted. *)
Theorem generate_range_one_council (self : t) (c : string) (a b : Z) :
  c ∈ council_codes self →
  generate_range self c a c b
  = Returns (generate_single self c <$> range a (b + 1))
  ∧ (b < a → generate_range self c a c b = Returns []).
Proof.
  intros Hc. apply index_elem_of in Hc as (i & Hi & Hl).
  assert (Hrun : generate_range self c a c b
                 = Returns (generate_single self c <$> range a (b + 1))).
  { unfold generate_range. rewrite Hi.
    replace (i + 1 - i)%nat with 1%nat by lia. cbn [seq fold_left].
    rewrite Hl, Nat.eqb_refl. cbn [default]. by rewrite foldl_snoc_map. }
  split; [done |]. intros Hlt. rewrite Hrun. unfold range.
  by rewrite seqZ_nil by lia.
Qed.

Lemma generate_range_one_council_witness :
  generate_range new "07" 5 "07" 7
  = Returns (generate_single new "07" <$> range 5 (7 + 1))
  ∧ (7 < 5 → generate_range new "07" 5 "07" 7 = Returns []).
Proof.
  apply (generate_range_one_council new "07" 5 7).
  apply (bool_decide_unpack _). vm_compute. exact I.
Defined.

Lemma fold_left_pointwise {A B} (f g : A → B → A) (l : list B) (acc : A) :
  (∀ a b, f a b = g a b) → fold_left f l acc = fold_left g l acc.
Proof.
  intros Hfg. revert acc. induction l as [| x l IH]; intros acc; [done |].
  cbn. by rewrite Hfg, IH.
Qed.

(** Reading a list through its positions. *)
Lemma fold_left_positions {A} (f : A → string → A) (pre suf : list string)
    (acc : A) :
  fold_left (λ a i, f a (default EmptyString ((pre ++ suf) !! i)))
    (seq (length pre) (length suf)) acc
  = fold_left f suf acc.
Proof.
  revert pre acc. induction suf as [| x suf IH]; intros pre acc; [done |].
  cbn [length seq fold_left].
  rewrite (lookup_app_r pre) by lia. rewrite Nat.sub_diag. cbn [lookup default].
  specialize (IH (pre ++ [x]) (f acc x)).
  rewrite <- app_assoc, length_app in IH. cbn in IH.
  rewrite Nat.add_1_r in IH. exact IH.
Qed.

(** From the first council and the lower bound to the last council and the
    upper bound, [generate_range] is [generate_all], provided no council code
    is configured twice. *)
Theorem generate_range_whole_space (self : t) (first final : string) :
  NoDup (council_codes self) →
  head (council_codes self) = Some first →
  last (council_codes self) = Some final →
  generate_range self first (student_number_min self)
    final (student_number_max self)
  = Returns (generate_all self).
Proof.
  intros Hnodup Hfirst Hfinal. unfold generate_range.
  assert (Hi : index first (council_codes self) = Some 0%nat).
  { apply index_lookup_nodup; [done |]. by rewrite <- head_lookup. }
  assert (Hj : index final (council_codes self)
               = Some (pred (length (council_codes self)))).
  { apply index_lookup_nodup; [done |]. by rewrite <- last_lookup. }
  rewrite Hi, Hj. f_equal.
  assert (Hlen : (pred (length (council_codes self)) + 1 - 0
                  = length (council_codes self))%nat).
  { destruct (council_codes self); [done | cbn; lia]. }
  rewrite Hlen. unfold generate_all.
  rewrite <- (fold_left_positions
                (λ all c, all ++ generate_for_council self c)
                [] (council_codes self) []).
  cbn [length app]. apply fold_left_pointwise. intros numbers i.
  rewrite generate_for_council_map, <- foldl_snoc_map.
  by destruct (i =? 0)%nat, (i =? pred (length (council_codes self)))%nat.
Qed.

Lemma generate_range_whole_space_witness :
  generate_range new "01" (student_number_min new)
    "65" (student_number_max new)
  = Returns (generate_all new).
Proof.
  apply generate_range_whole_space.
  - exact council_codes_nodup.
  - vm_compute. reflexivity.
  - vm_compute. reflexivity.
Defined.

End Range.

(** ** More on the skip ledger *)

Section LedgerGrowth.
Import Py World CrawlerSkipManager.

Lemma skips_no_less_refl (s : skip_manager) : skips_no_less s s.
Proof.
  split; [| split]; [intros c limit ?; exists limit; split; [done | lia]
                    | intros c ranges ?; by exists ranges | done].
Qed.

(** [should_skip] answers true in a ledger that skips no less. *)
Lemma should_skip_mono (w w' : World.t) (id : string) :
  skips_no_less (ledger w) (ledger w') →
  (should_skip id w).1 = Returns true →
  (should_skip id w').1 = Returns true.
Proof.
  intros (Hlimits & Hranges & Hinvalid) Hskip.
  destruct (int (str_drop 2 id)) as [n |] eqn:Hint.
  2: { unfold should_skip, int_of in Hskip. rewrite Hint in Hskip. done. }
  destruct (should_skip_decision w id n Hint) as (b & Hrun & Hb).
  destruct (should_skip_decision w' id n Hint) as (b' & Hrun' & Hb').
  rewrite Hrun in Hskip. rewrite Hrun'. cbn in *. injection Hskip as ->.
  f_equal. apply Hb'. destruct (proj1 Hb eq_refl) as [H | [H | H]].
  - left. destruct H as (limit & Hl & Hlt).
    destruct (Hlimits _ _ Hl) as (limit' & Hl' & Hle). exists limit'.
    split; [done | lia].
  - right; left. destruct H as (ranges & r & Hr & Hin & Hn).
    destruct (Hranges _ _ Hr) as (ranges' & Hr' & Hsub).
    exists ranges', r. split; [done |]. split; [by apply Hsub | done].
  - right; right. by apply Hinvalid.
Qed.

(** A ledger whose limits and invalid set are kept or grown and whose
    ranges are kept or extended at one council. *)
Ltac grows c :=
  split; [| split]; cbn;
  [ intros ? limit ?; exists limit; split; [done | lia]
  | intros c' ranges Hc';
    first
      [ by exists ranges
      | destruct (decide (c = c')) as [<- | Hne];
        [ rewrite lookup_insert_eq, Hc'; eexists; split; [done |]; cbn;
          intros r ?; apply elem_of_app; by left
        | rewrite lookup_insert_ne by done; by exists ranges ] ]
  | set_solver ].

Lemma record_failure_grows (w w' : World.t) (id e : string) (o : outcome unit) :
  record_failure id e w = (o, w') →
  skips_no_less (ledger w) (ledger w')
  ∧ (is_Some (int (str_drop 2 id)) → id ∈ invalid_patterns (ledger w')).
Proof.
  unfold record_failure, int_of.
  destruct (int (str_drop 2 id)) as [n |] eqn:Hint; run.
  2: { intros [= <- <-]. split; [apply skips_no_less_refl | by intros [? [=]]]. }
  unfold add_skip_range, _save_skip_ranges, write_file. run.
  generalize (str_take 2 id +:+ "_" +:+ str n). intros key.
  generalize (str_take 2 id). intros c.
  destruct w as [l sv d wr lg sc fe rq ct]. cbn.
  destruct (_ >=? _).
  - destruct wr as [| [|] rest]; cbn; destruct (logger l); cbn;
      intros [= <- <-]; cbn; (split; [grows c | set_solver]).
  - intros [= <- <-]. cbn. split; [grows c | set_solver].
Qed.

Lemma record_success_frame (w w' : World.t) (id : string) (o : outcome unit) :
  record_success id w = (o, w') →
  skip_ranges (ledger w') = skip_ranges (ledger w)
  ∧ council_limits (ledger w') = council_limits (ledger w)
  ∧ invalid_patterns (ledger w') = invalid_patterns (ledger w)
  ∧ disk w' = disk w ∧ writes w' = writes w ∧ log w' = log w
  ∧ requests w' = requests w.
Proof.
  unfold record_success, int_of.
  destruct (int (str_drop 2 id)) as [n |]; run; intros [= <- <-]; done.
Qed.

Lemma set_council_limit_grows (w w' : World.t) (c : string) (v : Z)
    (o : outcome unit) :
  set_council_limit c v w = (o, w') →
  skips_no_less (ledger w) (ledger w').
Proof.
  unfold set_council_limit. run.
  destruct (below_limit v (council_limits (ledger w) !! c)) eqn:Hbelow.
  2: { intros [= <- <-]. apply skips_no_less_refl. }
  unfold _save_council_limits, write_file. run.
  destruct w as [l sv d wr lg sc fe rq ct]. cbn in *.
  assert (Hgrow : skips_no_less l
            (set_council_limits (<[c := v]> (council_limits l)) l)).
  { split; [| split]; cbn; [| intros c' ranges ?; by exists ranges | done].
    intros c' limit Hc'. destruct (decide (c = c')) as [<- | Hne].
    - rewrite lookup_insert_eq. exists v. split; [done |].
      rewrite Hc' in Hbelow. cbn in Hbelow. lia.
    - rewrite lookup_insert_ne by done. exists limit. split; [done | lia]. }
  destruct wr as [| [|] rest]; cbn; destruct (logger l); cbn;
    intros [= <- <-]; exact Hgrow.
Qed.

Lemma add_skip_range_grows (w w' : World.t) (c reason : string) (a b : Z)
    (o : outcome unit) :
  add_skip_range c a b reason w = (o, w') →
  skips_no_less (ledger w) (ledger w')
  ∧ ∃ ranges, skip_ranges (ledger w') !! c = Some ranges
              ∧ {| start := a; end_ := b; reason := reason;
                   added_at := ctime w |} ∈ ranges.
Proof.
  unfold add_skip_range, _save_skip_ranges, write_file. run.
  destruct w as [l sv d wr lg sc fe rq ct]. cbn.
  destruct wr as [| [|] rest]; cbn; intros [= <- <-]; cbn;
    (split; [grows c |]); eexists;
    (split; [apply lookup_insert_eq |]); apply elem_of_app; right;
    by apply list_elem_of_singleton.
Qed.

(** Once the ledger says to skip an identifier it keeps saying so, whatever
    is recorded afterwards and whether or not the writes succeed: none of the
    recording operations makes the ledger forget. *)
Theorem skipped_stays_skipped (w : World.t) (id : string) :
  (should_skip id w).1 = Returns true →
  (∀ id' e o w', record_failure id' e w = (o, w') →
     (should_skip id w').1 = Returns true)
  ∧ (∀ id' o w', record_success id' w = (o, w') →
       (should_skip id w').1 = Returns true)
  ∧ (∀ c v o w', set_council_limit c v w = (o, w') →
       (should_skip id w').1 = Returns true)
  ∧ (∀ c a b reason o w', add_skip_range c a b reason w = (o, w') →
       (should_skip id w').1 = Returns true).
Proof.
  intros Hskip. split; [| split; [| split]].
  - intros id' e o w' Hrun. apply record_failure_grows in Hrun as [Hgrow _].
    by apply (should_skip_mono w).
  - intros id' o w' Hrun.
    apply record_success_frame in Hrun as (Hr & Hl & Hi & _).
    apply (should_skip_mono w); [| done]. unfold skips_no_less.
    rewrite Hr, Hl, Hi. apply (skips_no_less_refl (ledger w)).
  - intros c v o w' Hrun. apply set_council_limit_grows in Hrun.
    by apply (should_skip_mono w).
  - intros c a b reason o w' Hrun.
    apply add_skip_range_grows in Hrun as [Hgrow _].
    by apply (should_skip_mono w).
Qed.

Lemma skipped_stays_skipped_witness :
  (should_skip "01000501"
     (exec (record_failure "02000001" "not_found") limited_run)).1
  = Returns true.
Proof.
  destruct (skipped_stays_skipped limited_run "01000501") as [Hfail _].
  - vm_compute. reflexivity.
  - apply (Hfail "02000001" "not_found"
             (record_failure "02000001" "not_found" limited_run).1).
    unfold exec. by destruct (record_failure _ _ _).
Defined.

(** An identifier whose failure was recorded is skipped from then on, also
    when the call that recorded it ended in a failed write. *)
Theorem recorded_failure_is_skipped (w w' : World.t) (id e : string)
    (n : Z) (o : outcome unit) :
  int (str_drop 2 id) = Some n →
  record_failure id e w = (o, w') →
  should_skip id w' = (Returns true, w').
Proof.
  intros Hint Hrun. apply record_failure_grows in Hrun as [_ Hin].
  destruct (should_skip_decision w' id n Hint) as (b & -> & Hb).
  f_equal. f_equal. apply Hb. right; right. apply Hin. by exists n.
Qed.

Lemma recorded_failure_is_skipped_witness :
  should_skip "01000005"
    (exec (record_failure "01000005" "not_found") failing_disk_run)
  = (Returns true,
     exec (record_failure "01000005" "not_found") failing_disk_run).
Proof.
  apply (recorded_failure_is_skipped failing_disk_run _ "01000005"
           "not_found" 5
           (record_failure "01000005" "not_found" failing_disk_run).1).
  - reflexivity.
  - unfold exec. by destruct (record_failure _ _ _).
Defined.

(** The three operations that take an identifier raise [ValueError] exactly
    when its characters after the second do not read as an integer, and then
    before they change anything.  With characters that read as an integer
    [should_skip] and [record_success] return, the former leaving everything
    as it was, and what [record_failure] can still raise is the [OSError] of
    a write, never [ValueError]. *)
Theorem malformed_identifier_changes_nothing (w : World.t) (id e : string) :
  (int (str_drop 2 id) = None →
   should_skip id w = (Raises ValueError, w)
   ∧ record_failure id e w = (Raises ValueError, w)
   ∧ record_success id w = (Raises ValueError, w))
  ∧ (∀ n, int (str_drop 2 id) = Some n →
     (∃ b, should_skip id w = (Returns b, w))
     ∧ (∃ w', record_success id w = (Returns tt, w'))
     ∧ ((∃ w', record_failure id e w = (Returns tt, w'))
        ∨ (∃ w', record_failure id e w = (Raises OSError, w'))))
  ∧ ((should_skip id w).1 = Raises ValueError
     ↔ int (str_drop 2 id) = None)
  ∧ ((record_failure id e w).1 = Raises ValueError
     ↔ int (str_drop 2 id) = None)
  ∧ ((record_success id w).1 = Raises ValueError
     ↔ int (str_drop 2 id) = None).
Proof.
  assert (Hnone : int (str_drop 2 id) = None →
    should_skip id w = (Raises ValueError, w)
    ∧ record_failure id e w = (Raises ValueError, w)
    ∧ record_success id w = (Raises ValueError, w)).
  { intros Hint. unfold should_skip, record_failure, record_success, int_of.
    rewrite Hint. done. }
  assert (Hsome : ∀ n, int (str_drop 2 id) = Some n →
    (∃ b, should_skip id w = (Returns b, w))
    ∧ (∃ w', record_success id w = (Returns tt, w'))
    ∧ ((∃ w', record_failure id e w = (Returns tt, w'))
       ∨ (∃ w', record_failure id e w = (Raises OSError, w')))).
  { intros n Hint. split; [| split].
    - destruct (should_skip_decision w id n Hint) as (b & Hb & _).
      by exists b.
    - unfold record_success, int_of. rewrite Hint. run. by eexists.
    - unfold record_failure, int_of, add_skip_range, _save_skip_ranges,
        write_file. rewrite Hint. run. cbn.
      destruct (_ >=? _); [| left; by eexists]. cbn.
      destruct (writes w) as [| [|] rest]; cbn;
        try destruct (logger (ledger w)); cbn;
        first [left; by eexists | right; by eexists]. }
  split; [exact Hnone |]. split; [exact Hsome |].
  destruct (int (str_drop 2 id)) as [n |] eqn:Hint.
  - destruct (Hsome n eq_refl) as ((b & Hskip) & (w1 & Hsuccess) & Hfailure).
    rewrite Hskip, Hsuccess.
    split; [done |]. split; [| done].
    split; [| done]. by destruct Hfailure as [[w2 ->] | [w2 ->]].
  - destruct (Hnone eq_refl) as (-> & -> & ->). done.
Qed.

Lemma malformed_identifier_changes_nothing_witness :
  (should_skip "01abc" first_run = (Raises ValueError, first_run)
   ∧ record_failure "01abc" "not_found" first_run
     = (Raises ValueError, first_run)
   ∧ record_success "01abc" first_run = (Raises ValueError, first_run))
  ∧ should_skip ("01" +:+ String (ascii_of_nat 31) "12345") first_run
    = (Raises ValueError, first_run)
  ∧ should_skip ("01" +:+ String (ascii_of_nat 160) "12345") first_run
    = (Returns false, first_run)
  ∧ (record_failure "01000007" "not_found" failing_disk_run).1
    ≠ Raises ValueError.
Proof.
  split; [| split; [| split]].
  - apply (malformed_identifier_changes_nothing first_run "01abc" "not_found").
    reflexivity.
  - apply (malformed_identifier_changes_nothing first_run
             ("01" +:+ String (ascii_of_nat 31) "12345") "not_found").
    reflexivity.
  - vm_compute. reflexivity.
  - intros Hraises.
    destruct (malformed_identifier_changes_nothing failing_disk_run
                "01000007" "not_found") as (_ & _ & _ & [Hiff _] & _).
    apply Hiff in Hraises. vm_compute in Hraises. discriminate Hraises.
Defined.

End LedgerGrowth.

(** ** Saving the skip ledger and loading it again *)

Section LedgerPersistence.
Import Py World CrawlerSkipManager.

(** [should_skip] reads the limits, the ranges and the invalid set, and
    nothing else. *)
Lemma should_skip_reads (w w' : World.t) (id : string) :
  council_limits (ledger w') = council_limits (ledger w) →
  skip_ranges (ledger w') = skip_ranges (ledger w) →
  invalid_patterns (ledger w') = invalid_patterns (ledger w) →
  (should_skip id w').1 = (should_skip id w).1.
Proof.
  intros Hl Hr Hi. unfold should_skip, int_of.
  destruct (int (str_drop 2 id)) as [n |]; run; [| done].
  cbn. rewrite Hl, Hr, Hi.
  by repeat (match goal with |- context [if ?b then _ else _] => destruct b end).
Qed.

Lemma save_all_returns (w w1 : World.t) :
  save_all w = (Returns tt, w1) →
  ledger w1 = ledger w
  ∧ skip_ranges_file (disk w1) = Some (skip_ranges (ledger w))
  ∧ council_limits_file (disk w1) = Some (council_limits (ledger w))
  ∧ invalid_patterns_file (disk w1) = Some (invalid_patterns (ledger w)).
Proof.
  unfold save_all, _save_skip_ranges, _save_council_limits,
    _save_invalid_patterns, write_file. run.
  destruct w as [l sv d wr lg sc fe rq ct]. cbn.
  destruct wr as [| [|] [| [|] [| [|] rest]]]; cbn; destruct (logger l); cbn;
    intros [= <-]; done.
Qed.

(** [save_all] writes the three files in the order skip ranges, limits,
    invalid set and stops at the first write that fails, a failed write being
    one whose [os.makedirs] or [open] raises.  When the first write fails no
    file is changed; when the second fails the ranges file holds the ranges
    of the ledger and the two other files are as they were; when the third
    fails the ranges and the limits files hold their parts of the ledger and
    the invalid-set file is as it was; in the three cases [OSError] leaves
    the method and nothing is logged.  When none of the three fails the
    method returns, the three files hold their parts of the ledger and the
    line "Saved all skip data to files" is logged if there is a logger.  The
    ledger itself and the files of the result sink are never changed. *)
Theorem save_all_stops_at_the_first_failed_write (w : World.t) :
  let o := (save_all w).1 in
  let w' := exec save_all w in
  let ranges := Some (skip_ranges (ledger w)) in
  let limits := Some (council_limits (ledger w)) in
  let patterns := Some (invalid_patterns (ledger w)) in
  let files (r : option (gmap string (list skip_range)))
      (l : option (gmap string Z)) (p : option (gset string)) :=
    {| skip_ranges_file := r; council_limits_file := l;
       invalid_patterns_file := p;
       json_file := json_file (disk w); csv_file := csv_file (disk w);
       summary_file := summary_file (disk w) |} in
  ledger w' = ledger w
  ∧ saver w' = saver w
  ∧ (writes w !! 0%nat = Some false →
     o = Raises OSError ∧ disk w' = disk w ∧ log w' = log w
     ∧ writes w' = drop 1 (writes w))
  ∧ (writes w !! 0%nat ≠ Some false → writes w !! 1%nat = Some false →
     o = Raises OSError
     ∧ disk w' = files ranges (council_limits_file (disk w))
                   (invalid_patterns_file (disk w))
     ∧ log w' = log w
     ∧ writes w' = drop 2 (writes w))
  ∧ (writes w !! 0%nat ≠ Some false → writes w !! 1%nat ≠ Some false →
     writes w !! 2%nat = Some false →
     o = Raises OSError
     ∧ disk w' = files ranges limits (invalid_patterns_file (disk w))
     ∧ log w' = log w
     ∧ writes w' = drop 3 (writes w))
  ∧ (writes w !! 0%nat ≠ Some false → writes w !! 1%nat ≠ Some false →
     writes w !! 2%nat ≠ Some false →
     o = Returns tt
     ∧ disk w' = files ranges limits patterns
     ∧ log w'
       = log w ++ (if logger (ledger w)
                   then [(INFO, "Saved all skip data to files")] else [])
     ∧ writes w' = drop 3 (writes w)).
Proof.
  unfold exec, save_all, _save_skip_ranges, _save_council_limits,
    _save_invalid_patterns, write_file. run.
  destruct w as [l sv [f1 f2 f3 f4 f5 f6] wr lg sc fe rq ct]. cbn.
  destruct wr as [| [|] [| [|] [| [|] rest]]]; cbn; destruct (logger l); cbn;
    (split; [done |]); (split; [done |]);
    (split; [intros H0 | split; [intros H0 H1 | split; [intros H0 H1 H2 |
       intros H0 H1 H2]]]);
    try done; try (by rewrite app_nil_r).
Qed.

Lemma save_all_stops_at_the_first_failed_write_witness :
  ((save_all (set_writes (λ _, [false]) limited_run)).1 = Raises OSError
   ∧ disk (exec save_all (set_writes (λ _, [false]) limited_run))
     = disk limited_run)
  ∧ ((save_all (set_writes (λ _, [true; false]) limited_run)).1
     = Raises OSError
     ∧ skip_ranges_file
         (disk (exec save_all (set_writes (λ _, [true; false]) limited_run)))
       = Some (skip_ranges (ledger limited_run))
     ∧ council_limits_file
         (disk (exec save_all (set_writes (λ _, [true; false]) limited_run)))
       = None)
  ∧ ((save_all (set_writes (λ _, [true; true; false]) limited_run)).1
     = Raises OSError
     ∧ council_limits_file
         (disk (exec save_all
                  (set_writes (λ _, [true; true; false]) limited_run)))
       = Some (council_limits (ledger limited_run))
     ∧ invalid_patterns_file
         (disk (exec save_all
                  (set_writes (λ _, [true; true; false]) limited_run)))
       = None).
Proof.
  split; [| split].
  - destruct (save_all_stops_at_the_first_failed_write
                (set_writes (λ _, [false]) limited_run))
      as (_ & _ & Hfirst & _).
    destruct Hfirst as (Hraises & Hdisk & _); [reflexivity |].
    split; [exact Hraises | exact Hdisk].
  - destruct (save_all_stops_at_the_first_failed_write
                (set_writes (λ _, [true; false]) limited_run))
      as (_ & _ & _ & Hsecond & _).
    destruct Hsecond as (Hraises & Hdisk & _); [discriminate | reflexivity |].
    split; [exact Hraises |]. rewrite Hdisk. split; reflexivity.
  - destruct (save_all_stops_at_the_first_failed_write
                (set_writes (λ _, [true; true; false]) limited_run))
      as (_ & _ & _ & _ & Hthird & _).
    destruct Hthird as (Hraises & Hdisk & _);
      [discriminate | discriminate | reflexivity |].
    split; [exact Hraises |]. rewrite Hdisk. split; reflexivity.
Defined.

(** A process that starts on the files a successful [save_all] left builds
    a ledger with the saved ranges, limits and invalid set, with empty
    failure counters and last valid numbers and the threshold 100; it gives
    every identifier the answer the saved ledger gave, and reads the files
    without changing them. *)
Theorem restart_restores_the_saved_ledger
    (w w1 w2 : World.t) (lg : bool) :
  save_all w = (Returns tt, w1) →
  disk w2 = disk w1 →
  ∃ w3,
    __init__ lg w2 = (Returns tt, w3)
    ∧ skip_ranges (ledger w3) = skip_ranges (ledger w)
    ∧ council_limits (ledger w3) = council_limits (ledger w)
    ∧ invalid_patterns (ledger w3) = invalid_patterns (ledger w)
    ∧ consecutive_failures (ledger w3) = ∅
    ∧ last_valid_number (ledger w3) = ∅
    ∧ failure_threshold (ledger w3) = 100
    ∧ disk w3 = disk w2
    ∧ ∀ id, (should_skip id w3).1 = (should_skip id w).1.
Proof.
  intros Hsave Hdisk.
  apply save_all_returns in Hsave as (_ & Hr & Hl & Hi).
  rewrite <- Hdisk in Hr, Hl, Hi.
  assert (Hrun : ∃ w3, __init__ lg w2 = (Returns tt, w3)
            ∧ skip_ranges (ledger w3) = skip_ranges (ledger w)
            ∧ council_limits (ledger w3) = council_limits (ledger w)
            ∧ invalid_patterns (ledger w3) = invalid_patterns (ledger w)
            ∧ consecutive_failures (ledger w3) = ∅
            ∧ last_valid_number (ledger w3) = ∅
            ∧ failure_threshold (ledger w3) = 100
            ∧ disk w3 = disk w2).
  { unfold __init__, _load_skip_ranges, _load_council_limits,
      _load_invalid_patterns. run.
    destruct w2 as [l sv d wr lg2 sc fe rq ct]. cbn in *.
    rewrite Hr. destruct lg; cbn; rewrite Hl; cbn; rewrite Hi; cbn;
      eexists; (split; [reflexivity |]); done. }
  destruct Hrun as (w3 & Hinit & Hr3 & Hl3 & Hi3 & Hrest).
  exists w3. split; [done |]. repeat (split; [tauto |]).
  intros id. by apply should_skip_reads.
Qed.

Lemma restart_restores_the_saved_ledger_witness :
  ∃ w3,
    __init__ true (exec save_all limited_run) = (Returns tt, w3)
    ∧ council_limits (ledger w3) = {["01" := 500]}.
Proof.
  destruct (restart_restores_the_saved_ledger limited_run
              (exec save_all limited_run) (exec save_all limited_run) true)
    as (w3 & Hinit & _ & Hl & _).
  - vm_compute. reflexivity.
  - reflexivity.
  - exists w3. split; [exact Hinit | exact Hl].
Defined.

(** [record_failure] adds the identifier to the invalid set in memory but
    never writes the invalid-set file, which only [save_all] does: a process
    that starts after a recorded failure finds the invalid set of the file as
    it was before the failure. *)
Theorem unsaved_failures_are_forgotten
    (w : World.t) (id e : string) (lg : bool) :
  let w' := exec (record_failure id e) w in
  invalid_patterns_file (disk w') = invalid_patterns_file (disk w)
  ∧ invalid_patterns (ledger (exec (__init__ lg) w'))
    = default ∅ (invalid_patterns_file (disk w)).
Proof.
  cbv zeta.
  assert (Hfile : invalid_patterns_file (disk (exec (record_failure id e) w))
                  = invalid_patterns_file (disk w)).
  { unfold exec, record_failure, int_of.
    destruct (int (str_drop 2 id)) as [n |]; run; [| done].
    unfold add_skip_range, _save_skip_ranges, write_file. run.
    generalize (str_take 2 id +:+ "_" +:+ str n). intros key.
    generalize (str_take 2 id). intros c.
    destruct w as [l sv d wr lg' sc fe rq ct]. cbn.
    destruct (_ >=? _); [| done].
    destruct wr as [| [|] rest]; cbn; try destruct (logger l); done. }
  split; [done |]. rewrite <- Hfile.
  generalize (exec (record_failure id e) w). intros w'.
  unfold exec, __init__, _load_skip_ranges, _load_council_limits,
    _load_invalid_patterns. run.
  destruct w' as [l sv d wr lg' sc fe rq ct]. cbn.
  destruct d as [f1 f2 f3 f4 f5 f6]. cbn.
  destruct f1, lg; cbn; destruct f2; cbn; destruct f3; done.
Qed.

(** The sum that [get_skip_stats] reports, split at one council. *)
Lemma total_skip_ranges_split (m : gmap string (list skip_range)) (c : string) :
  map_fold (λ _ ranges n, (length ranges + n)%nat) 0%nat m
  = (length (default [] (m !! c))
     + map_fold (λ _ ranges n, (length ranges + n)%nat) 0%nat (delete c m))%nat.
Proof.
  destruct (m !! c) as [ranges |] eqn:Hc; cbn.
  - rewrite <- (insert_delete_id m c ranges Hc) at 1.
    rewrite map_fold_insert_L; [done | intros; lia | apply lookup_delete_eq].
  - by rewrite delete_id.
Qed.

(** After [add_skip_range], whether or not its write succeeded,
    [get_skip_stats] reports one skip range more and the other counts as
    before. *)
Theorem add_skip_range_adds_one_to_the_statistics
    (w : World.t) (c reason : string) (a b : Z) :
  let w' := exec (add_skip_range c a b reason) w in
  ∃ st st',
    get_skip_stats w = (Returns st, w)
    ∧ get_skip_stats w' = (Returns st', w')
    ∧ total_skip_ranges st' = S (total_skip_ranges st)
    ∧ councils_with_limits st' = councils_with_limits st
    ∧ invalid_patterns_count st' = invalid_patterns_count st
    ∧ consecutive_failures_tracked st' = consecutive_failures_tracked st
    ∧ last_valid_numbers st' = last_valid_numbers st.
Proof.
  cbv zeta. unfold get_skip_stats. run. do 2 eexists.
  split; [reflexivity |]. split; [reflexivity |]. cbn.
  assert (Hledger : ledger (exec (add_skip_range c a b reason) w)
            = set_skip_ranges
                (<[c := default [] (skip_ranges (ledger w) !! c)
                        ++ [{| start := a; end_ := b; reason := reason;
                               added_at := ctime w |}]]>
                   (skip_ranges (ledger w))) (ledger w)).
  { unfold exec, add_skip_range, _save_skip_ranges, write_file. run.
    destruct w as [l sv d wr lg sc fe rq ct]. cbn.
    by destruct wr as [| [|] rest]. }
  rewrite Hledger. cbn. split; [| done].
  rewrite (total_skip_ranges_split (<[c := _]> _) c).
  rewrite (total_skip_ranges_split (skip_ranges (ledger w)) c).
  rewrite lookup_insert_eq, delete_insert_eq. cbn. rewrite length_app. cbn. lia.
Qed.

End LedgerPersistence.

(** ** The counters of [main] *)

Section Counters.
Import Py World Main.

(** What a turn of the loop does to the counters: one more identifier is
    processed, and it is either a success, which resets the consecutive
    failures, or a failure, which adds one to them. *)
Lemma iteration_counts (council_code : string) (l l' : locals)
    (w w' : World.t) :
  iteration council_code l w = (Returns l', w') →
  total_processed l' = total_processed l + 1
  ∧ student_number l' = student_number l + 1
  ∧ ((total_successful l' = total_successful l + 1
      ∧ total_failed l' = total_failed l
      ∧ consecutive_failures l' = 0)
     ∨ (total_successful l' = total_successful l
        ∧ total_failed l' = total_failed l + 1
        ∧ consecutive_failures l' = consecutive_failures l + 1)).
Proof.
  unfold iteration. intros Hrun.
  apply bind_returns in Hrun as (result & w1 & _ & Hrun).
  apply bind_returns in Hrun as (l1 & w2 & Hbranch & Hrun).
  apply bind_returns in Hrun as ([] & w3 & _ & Hrun).
  apply ret_returns in Hrun as [<- _]. cbn.
  destruct result as [| d |].
  - apply ret_returns in Hbranch as [<- _]. cbn. lia.
  - apply bind_returns in Hbranch as ([] & w4 & _ & Hbranch).
    cbv zeta in Hbranch.
    match type of Hbranch with
    | (if ?c then _ else _) _ = _ => destruct c
    end.
    + apply bind_returns in Hbranch as ([] & w5 & _ & Hbranch).
      apply bind_returns in Hbranch as ([] & w6 & _ & Hbranch).
      apply bind_returns in Hbranch as ([] & w7 & _ & Hbranch).
      apply ret_returns in Hbranch as [<- _]. cbn. lia.
    + apply ret_returns in Hbranch as [<- _]. cbn. lia.
  - apply ret_returns in Hbranch as [<- _]. cbn. lia.
Qed.

Ltac unfold_turn :=
  repeat progress
    (cbn -[str format_comma];
     unfold mbind, M_bind, mret, M_ret, when, logging, modify).

(** A turn that runs all its statements before the interrupt arrives is a
    turn of the loop. *)
Lemma interrupted_iteration_whole (point : nat) (council_code : string)
    (l : locals) (w : World.t) :
  (11 ≤ point)%nat →
  interrupted_iteration point council_code l w = iteration council_code l w.
Proof.
  intros Hpoint.
  do 11 (destruct point as [| point]; [lia |]). clear Hpoint.
  unfold interrupted_iteration, iteration. run.
  destruct (crawl_registration_number _ w) as [[[| d |] | e] w1]; [| | | done];
    destruct l; unfold_turn.
  - destruct (_ =? 0); unfold_turn; by destruct point.
  - destruct (_ >=? 100); unfold_turn.
    + match goal with
      | |- context [ResultsSaver.save_all ?w0] =>
          destruct (ResultsSaver.save_all w0) as [[[] | e] w2]
      end; unfold_turn; [| done].
      destruct (_ =? 0); unfold_turn; by destruct point.
    + destruct (_ =? 0); unfold_turn; by destruct point.
  - destruct (_ =? 0); unfold_turn; by destruct point.
Qed.

(** A turn that the interrupt cuts has counted its identifier as processed
    at most once, and as successful or failed at most once; the outcome can
    be counted while the identifier is not yet. *)
Lemma interrupted_iteration_counts (point : nat) (council_code : string)
    (l l' : locals) (w w' : World.t) :
  interrupted_iteration point council_code l w = (Returns l', w') →
  total_processed l <= total_processed l'
  ∧ total_successful l <= total_successful l'
  ∧ total_failed l <= total_failed l'
  ∧ 0 <= (total_successful l' - total_successful l)
         + (total_failed l' - total_failed l)
         - (total_processed l' - total_processed l) <= 1.
Proof.
  intros Hrun.
  apply interrupted_iteration_returns in Hrun as (first & mid & Hshape & ->).
  destruct Hshape as [[[d ->] [-> | ->]] | [-> ->]];
    do 12 (destruct point as [| point]; [cbn; lia |]); cbn; lia.
Qed.

(** The loop of one council: the processed total stays the sum of the
    successful and the failed totals, but for an interrupt inside a turn,
    which can leave the sum one ahead.  The loop is left without an interrupt
    only with ten consecutive failures, all of them counted in the failed
    total since the council began. *)
Lemma while_loop_counts (budget point : nat) (council_code : string)
    (l l' : locals) (w w' : World.t) (left : nat) (interrupted : bool) :
  while_loop budget point council_code l w
  = (Returns (l', left, interrupted), w') →
  total_processed l <= total_processed l'
  ∧ total_successful l <= total_successful l'
  ∧ total_failed l <= total_failed l'
  ∧ 0 <= (total_successful l' - total_successful l)
         + (total_failed l' - total_failed l)
         - (total_processed l' - total_processed l) <= 1
  ∧ (interrupted = false ∨ point = 0%nat →
     total_processed l' - total_processed l
     = (total_successful l' - total_successful l)
       + (total_failed l' - total_failed l))
  ∧ (interrupted = false → 0 <= consecutive_failures l →
     10 <= consecutive_failures l'
     ∧ consecutive_failures l' - consecutive_failures l
       <= total_failed l' - total_failed l).
Proof.
  revert l w. induction budget as [| budget IH]; intros l w; cbn [while_loop].
  - destruct (Z.ltb_spec (consecutive_failures l) 10).
    + destruct point as [| point]; intros Hrun.
      * apply ret_returns in Hrun as [[= <- _ <-] _].
        repeat split; try lia; intros; (lia || done).
      * apply bind_returns in Hrun as (l1 & w1 & Hturn & Hrun).
        apply ret_returns in Hrun as [[= <- _ <-] _].
        apply interrupted_iteration_counts in Hturn as (? & ? & ? & ?).
        repeat split; try lia; (by intros [? | ?]) || done.
    + intros Hrun. apply ret_returns in Hrun as [[= <- _ <-] _].
      repeat split; lia.
  - destruct (Z.ltb_spec (consecutive_failures l) 10).
    + intros Hrun. apply bind_returns in Hrun as (l1 & w1 & Hturn & Hrun).
      apply IH in Hrun as (Hp' & Hs' & Hf' & Hgap & Hsum & Hstop).
      apply iteration_counts in Hturn as (Hp & _ & Hcase).
      split; [lia |]. split; [lia |]. split; [lia |]. split; [lia |].
      split.
      * intros Hwhen. specialize (Hsum Hwhen). lia.
      * intros Hfalse Hnn. destruct Hstop as [? ?]; [done | lia |]. lia.
    + intros Hrun. apply ret_returns in Hrun as [[= <- _ <-] _].
      repeat split; lia.
Qed.

Lemma councils_counts (todo : list Z) (budget point : nat) (l l' : locals)
    (w w' : World.t) (interrupted : bool) :
  councils budget point todo l w = (Returns (l', interrupted), w') →
  total_processed l <= total_processed l'
  ∧ total_successful l <= total_successful l'
  ∧ total_failed l <= total_failed l'
  ∧ 0 <= (total_successful l' - total_successful l)
         + (total_failed l' - total_failed l)
         - (total_processed l' - total_processed l) <= 1
  ∧ (interrupted = false ∨ point = 0%nat →
     total_processed l' - total_processed l
     = (total_successful l' - total_successful l)
       + (total_failed l' - total_failed l))
  ∧ (interrupted = false →
     total_failed l + 10 * Z.of_nat (length todo) <= total_failed l').
Proof.
  revert budget l w. induction todo as [| council_num rest IH];
    intros budget l w; cbn [councils].
  - intros Hrun. apply ret_returns in Hrun as [[= <- _] _]. cbn.
    repeat split; lia.
  - intros Hrun. cbv zeta in Hrun.
    apply bind_returns in Hrun as ([] & w1 & _ & Hrun).
    apply bind_returns in Hrun as ([[l1 left] stop] & w2 & Hloop & Hrun).
    apply while_loop_counts in Hloop as (Hp & Hs & Hf & Hgap & Hsum & Hstop).
    cbn in Hp, Hs, Hf, Hgap, Hsum, Hstop.
    destruct stop.
    + apply ret_returns in Hrun as [[= <- <-] _].
      split; [lia |]. split; [lia |]. split; [lia |]. split; [lia |].
      split; [| done]. intros [? | Hpoint]; [done |].
      apply Hsum. by right.
    + apply bind_returns in Hrun as ([] & w3 & _ & Hrun).
      apply bind_returns in Hrun as ([] & w4 & _ & Hrun).
      apply bind_returns in Hrun as ([] & w5 & _ & Hrun).
      apply bind_returns in Hrun as ([] & w6 & _ & Hrun).
      apply bind_returns in Hrun as ([] & w7 & _ & Hrun).
      apply IH in Hrun as (Hp' & Hs' & Hf' & Hgap' & Hsum' & Hall).
      cbn in *.
      specialize (Hsum (or_introl eq_refl)).
      destruct Hstop as [Hten Hcf]; [done | lia |].
      split; [lia |]. split; [lia |]. split; [lia |]. split; [lia |].
      split.
      * intros Hwhen. specialize (Hsum' Hwhen). lia.
      * intros ->. specialize (Hall eq_refl). lia.
Qed.

(** A percentage of a part in a whole that it exceeds by [over] at most. *)
Lemma rate_bounds (part whole over : Z) :
  0 <= part <= whole + over → 0 <= whole → 0 <= over <= 1 →
  (0 <= inject_Z part / inject_Z (Z.max 1 whole) * 100
   <= 100 + 100 * inject_Z over)%Q.
Proof.
  intros Hpart Hwhole Hover.
  assert (Hmax : 1 <= Z.max 1 whole
                 ∧ part <= Z.max 1 whole + over * Z.max 1 whole) by nia.
  destruct (Z.max 1 whole) as [| m | m]; [lia | | lia].
  unfold Qle, Qdiv, Qmult, Qplus, Qinv, inject_Z. cbn. nia.
Qed.

(** Whenever [main] gets to its final statistics, no total is negative and
    the sum of the successful and the failed totals is the processed total
    or one more: it is the processed total when the interrupt, if there was
    one, arrived between two turns, and one more only when it arrived inside
    a turn, after the outcome was counted and before the identifier was.
    The success rate reported lies between 0 and 200, and between 0 and 100
    when the sum is the processed total. *)
Theorem main_statistics_add_up
    (budget point : nat) (w w' : World.t) (stats : final_statistics) :
  main budget point w = (Returns stats, w') →
  0 <= stat_total_processed stats
  ∧ 0 <= stat_total_successful stats
  ∧ 0 <= stat_total_failed stats
  ∧ stat_total_processed stats
    <= stat_total_successful stats + stat_total_failed stats
    <= stat_total_processed stats + 1
  ∧ (point = 0%nat ∨ (INFO, "Crawler interrupted by user") ∉ log w' →
     stat_total_processed stats
     = stat_total_successful stats + stat_total_failed stats)
  ∧ (0 <= overall_success_rate stats <= 200)%Q
  ∧ (stat_total_processed stats
     = stat_total_successful stats + stat_total_failed stats →
     (overall_success_rate stats <= 100)%Q).
Proof.
  intros Hrun.
  apply main_returns in Hrun
    as (l & stop & w1 & w2 & w3 & w4 & Hcouncils & _ & _ & _ & _ & _
        & Hstats & Hline).
  pose proof (councils_total_skipped _ _ _ _ _ _ _ _ Hcouncils) as Hskipped.
  apply councils_counts in Hcouncils as (Hp & Hs & Hf & Hgap & Hsum & _).
  cbn in Hskipped, Hp, Hs, Hf, Hgap, Hsum.
  unfold final_stats in Hstats. rewrite truediv_max_returns in Hstats.
  injection Hstats as <-. cbn. rewrite Hskipped, Z.sub_0_r.
  split; [lia |]. split; [lia |]. split; [lia |]. split; [lia |].
  split; [| split].
  - intros [-> | Hnot].
    + specialize (Hsum (or_intror eq_refl)). lia.
    + destruct stop; [by destruct Hnot; apply Hline |].
      specialize (Hsum (or_introl eq_refl)). lia.
  - pose proof (rate_bounds (total_successful l) (total_processed l) 1)
      as [Hlo Hhi]; [lia | lia | lia |].
    split; [exact Hlo |]. apply (Qle_trans _ _ _ Hhi). by vm_compute.
  - intros Heq.
    pose proof (rate_bounds (total_successful l) (total_processed l) 0)
      as [_ Hhi]; [lia | lia | lia |].
    apply (Qle_trans _ _ _ Hhi). by vm_compute.
Qed.

Lemma main_statistics_add_up_witness :
  (∃ (stats : final_statistics) (w' : World.t),
     main 25 0 first_run = (Returns stats, w')
     ∧ stat_total_processed stats
       = stat_total_successful stats + stat_total_failed stats)
  ∧ (∃ (stats : final_statistics) (w' : World.t),
       main 1 5 two_found_run = (Returns stats, w')
       ∧ stat_total_processed stats = 1
       ∧ stat_total_successful stats = 2
       ∧ stat_total_failed stats = 0
       ∧ (overall_success_rate stats == 200)%Q).
Proof.
  split.
  - assert (Hrun : ∃ stats w', main 25 0 first_run = (Returns stats, w')).
    { eexists _, _. vm_compute. reflexivity. }
    destruct Hrun as (stats & w' & Hrun). exists stats, w'. split; [done |].
    destruct (main_statistics_add_up _ _ _ _ _ Hrun)
      as (_ & _ & _ & _ & Hsum & _).
    apply Hsum. by left.
  - eexists _, _. split; [vm_compute; reflexivity |]. by vm_compute.
Defined.

(** A run of the councils that no interrupt ends has left every council
    after ten consecutive failures: it counts at least ten failures for each
    council on its list. *)
Theorem uninterrupted_councils_count_ten_failures_each
    (todo : list Z) (budget point : nat) (l l' : locals) (w w' : World.t) :
  councils budget point todo l w = (Returns (l', false), w') →
  total_failed l + 10 * Z.of_nat (length todo) <= total_failed l'
  ∧ total_processed l + 10 * Z.of_nat (length todo) <= total_processed l'.
Proof.
  intros Hrun.
  apply councils_counts in Hrun as (Hp & Hs & Hf & _ & Hsum & Hall).
  specialize (Hall eq_refl). specialize (Hsum (or_introl eq_refl)). lia.
Qed.

Lemma uninterrupted_councils_count_ten_failures_each_witness :
  ∃ (l' : locals) (w' : World.t),
    councils 30 0 (range 1 4) council_start first_run
    = (Returns (l', false), w')
    ∧ 30 <= total_failed l'.
Proof.
  assert (Hrun : ∃ l' w', councils 30 0 (range 1 4) council_start first_run
                          = (Returns (l', false), w')).
  { eexists _, _. vm_compute. reflexivity. }
  destruct Hrun as (l' & w' & Hrun). exists l', w'. split; [done |].
  by destruct (uninterrupted_councils_count_ten_failures_each _ _ _ _ _ _ _ Hrun)
    as [? _].
Defined.

End Counters.

(** ** Probing one identifier, and a batch of them *)

Section Probes.
Import Py World Main.

(** The ledger operations send nothing to a backend and leave the result
    sink alone, whatever their outcome. *)
Lemma record_failure_sends_nothing (id e : string) (w : World.t) :
  requests (exec (CrawlerSkipManager.record_failure id e) w) = requests w
  ∧ saver (exec (CrawlerSkipManager.record_failure id e) w) = saver w.
Proof.
  unfold exec, CrawlerSkipManager.record_failure, int_of.
  destruct (int (str_drop 2 id)) as [n |]; run; [| done].
  unfold CrawlerSkipManager.add_skip_range,
    CrawlerSkipManager._save_skip_ranges, write_file. run.
  generalize (str_take 2 id +:+ "_" +:+ str n). intros key.
  generalize (str_take 2 id). intros c.
  destruct w as [l sv d wr lg' sc fe rq ct]. cbn.
  destruct (_ >=? _); [| done].
  destruct wr as [| [|] rest]; cbn; try destruct (logger l); done.
Qed.

Lemma record_success_sends_nothing (id : string) (w : World.t) :
  requests (exec (CrawlerSkipManager.record_success id) w) = requests w
  ∧ saver (exec (CrawlerSkipManager.record_success id) w) = saver w.
Proof.
  unfold exec, CrawlerSkipManager.record_success, int_of.
  destruct (int (str_drop 2 id)) as [n |]; run; done.
Qed.

Lemma quiet_ret {A} (a : A) : quiet (mret a : M A).
Proof. done. Qed.

Lemma quiet_logging (lvl : level) (message : string) :
  quiet (logging lvl message).
Proof. done. Qed.

Lemma quiet_bind {A B} (m : M A) (f : A → M B) :
  quiet m → (∀ a, quiet (f a)) → quiet (m ≫= f).
Proof.
  intros Hm Hf w. specialize (Hm w). unfold exec, mbind, M_bind in *.
  destruct (m w) as [[a | e] w1]; cbn in *; [| done].
  specialize (Hf a w1). unfold exec in Hf. destruct (f a w1) as [o w2].
  cbn in *. destruct Hm, Hf. split; congruence.
Qed.

Lemma quiet_record_failure (id e : string) :
  quiet (CrawlerSkipManager.record_failure id e).
Proof. intros w. apply record_failure_sends_nothing. Qed.

Lemma quiet_record_success (id : string) :
  quiet (CrawlerSkipManager.record_success id).
Proof. intros w. apply record_success_sends_nothing. Qed.

Lemma quiet_should_skip (id : string) :
  quiet (CrawlerSkipManager.should_skip id).
Proof.
  intros w. unfold exec. by rewrite (should_skip_reads_only id w).
Qed.

Lemma sends_quiet {A} (id : string) (m : M A) : quiet m → sends 0 0 id m.
Proof.
  intros Hm w. exists 0%nat. destruct (Hm w) as [-> ->].
  split; [lia |]. cbn. by rewrite app_nil_r.
Qed.

Lemma sends_weaken {A} (lo hi lo' hi' : nat) (id : string) (m : M A) :
  (lo' <= lo)%nat → (hi <= hi')%nat → sends lo hi id m → sends lo' hi' id m.
Proof.
  intros Hlo Hhi Hm w. destruct (Hm w) as (k & Hk & Hsent).
  exists k. split; [lia | done].
Qed.

Lemma sends_bind {A B} (lo hi hi' : nat) (id : string) (m : M A)
    (f : A → M B) :
  sends lo hi id m → (∀ a, sends 0 hi' id (f a)) →
  sends lo (hi + hi') id (m ≫= f).
Proof.
  intros Hm Hf w. destruct (Hm w) as (k & Hk & Hreq & Hsaver).
  unfold exec, mbind, M_bind in *.
  destruct (m w) as [[a | e] w1]; cbn in *.
  - destruct (Hf a w1) as (k' & Hk' & Hreq' & Hsaver'). unfold exec in *.
    destruct (f a w1) as [o w2]. cbn in *. exists (k + k')%nat.
    split; [lia |]. rewrite replicate_add, app_assoc. split; congruence.
  - exists k. split; [lia | done].
Qed.

Lemma sends_try_except {A} (lo hi hi' : nat) (id : string) (body : M A)
    (handler : exn → M A) :
  sends lo hi id body → (∀ e, sends 0 hi' id (handler e)) →
  sends lo (hi + hi') id (try_except body handler).
Proof.
  intros Hm Hf w. destruct (Hm w) as (k & Hk & Hreq & Hsaver).
  unfold exec, try_except in *.
  destruct (body w) as [[a | e] w1]; cbn in *.
  - exists k. split; [lia | done].
  - destruct (is_exception e); cbn; [| exists k; split; [lia | done]].
    destruct (Hf e w1) as (k' & Hk' & Hreq' & Hsaver'). unfold exec in *.
    destruct (handler e w1) as [o w2]. cbn in *. exists (k + k')%nat.
    split; [lia |]. rewrite replicate_add, app_assoc. split; congruence.
Qed.

Lemma sends_scrape (id : string) :
  sends 1 1 id (scrape_registration_number id).
Proof.
  intros w. exists 1%nat. split; [lia |].
  unfold exec, scrape_registration_number.
  by destruct (scrapes w) as [| [r | e] rest].
Qed.

(** The retry loop sends the identifier once per attempt it makes. *)
Lemma attempts_sends (id : string) (todo : list Z) :
  sends (Nat.min 1 (length todo)) (length todo) id (attempts id todo).
Proof.
  induction todo as [| attempt rest IH].
  - apply sends_quiet, quiet_ret.
  - cbn [attempts length]. change (Nat.min 1 (S (length rest))) with 1%nat.
    replace (S (length rest)) with (1 + 0 + length rest)%nat by lia.
    apply sends_try_except.
    + apply sends_bind; [apply sends_scrape |]. intros [d |].
      * apply sends_quiet, quiet_bind; [apply quiet_record_success |].
        intros _. apply quiet_bind; [apply quiet_logging |]. intros _.
        apply quiet_ret.
      * apply sends_quiet, quiet_bind; [apply quiet_record_failure |].
        intros _. apply quiet_bind; [apply quiet_logging |]. intros _.
        apply quiet_ret.
    + intros e.
      replace (length rest) with (0 + length rest)%nat by lia.
      apply sends_bind; [apply sends_quiet, quiet_logging |]. intros _.
      destruct (attempt <? max_retries - 1).
      * eapply sends_weaken; [| | exact IH]; lia.
      * eapply sends_weaken; [| | apply sends_quiet]; [lia | lia |].
        apply quiet_bind; [apply quiet_record_failure |].
        intros _. apply quiet_bind; [apply quiet_logging |]. intros _.
        apply quiet_ret.
Qed.

Lemma crawl_registration_number_sends (id : string) :
  sends 0 2 id (crawl_registration_number id).
Proof.
  unfold crawl_registration_number.
  change 2%nat with (0 + 2)%nat.
  apply sends_bind; [apply sends_quiet, quiet_should_skip |].
  intros [|].
  - eapply sends_weaken; [| | apply sends_quiet]; [lia | lia |].
    apply quiet_bind; [apply quiet_logging |]. intros _. apply quiet_ret.
  - eapply sends_weaken; [| | apply attempts_sends]; [lia | done].
Qed.

(** [crawl_registration_number] asks the backend for the given identifier
    and for nothing else, at most twice, and whatever its outcome: not at all
    when the ledger says to skip the identifier or rejects it, at least once
    otherwise.  It never adds to the result sink. *)
Theorem crawl_registration_number_asks_at_most_twice
    (id : string) (w : World.t) :
  let w' := exec (crawl_registration_number id) w in
  ∃ k, (k <= 2)%nat
       ∧ requests w' = requests w ++ replicate k [id]
       ∧ saver w' = saver w
       ∧ (k = 0%nat
          ↔ (CrawlerSkipManager.should_skip id w).1 ≠ Returns false).
Proof.
  cbv zeta. unfold crawl_registration_number, exec, mbind, M_bind.
  pose proof (should_skip_reads_only id w) as Hsame.
  destruct (CrawlerSkipManager.should_skip id w) as [[[|] | e] w1];
    cbn in Hsame |- *; subst w1.
  - exists 0%nat. cbn. rewrite app_nil_r. split; [lia |].
    do 2 (split; [done |]). split; [by intros _ | done].
  - pose proof (attempts_sends id (range 0 max_retries) w) as Hsends.
    change (length (range 0 max_retries)) with 2%nat in Hsends.
    destruct Hsends as (k & Hk & Hreq & Hsaver).
    exists k. cbn in Hk. unfold exec in *. split; [lia |].
    do 2 (split; [done |]). split; [intros ->; lia | intros Hne; by destruct Hne].
  - exists 0%nat. cbn. rewrite app_nil_r. split; [lia |].
    do 2 (split; [done |]). split; [by intros _ | done].
Qed.




End Probes.

(** ** The result sink *)

Section Sink.
Import Py World ResultsSaver.

(** Adding the results of a list, one after the other. *)
Lemma add_results_counts (rs : list (option student)) (w : World.t) :
  for_each rs add_result w
  = (Returns tt,
     set_saver (λ s,
       {| results := results s ++ omap id rs;
          total_processed := total_processed s + Z.of_nat (length rs);
          successful := successful s + Z.of_nat (length (omap id rs));
          failed := failed s |}) w).
Proof.
  revert w. induction rs as [| r rs IH]; intros w.
  - destruct w as [l [res p s f] d wr lg sc fe rq ct]. cbn.
    unfold set_saver. cbn. by rewrite app_nil_r, !Z.add_0_r.
  - cbn [for_each]. run.
    assert (Hadd : add_result r w = (Returns tt, (add_result r w).2)) by done.
    rewrite Hadd, IH. clear Hadd.
    destruct w as [l [res p s f] d wr lg sc fe rq ct].
    unfold set_saver. destruct r as [d' |]; cbn;
      rewrite <- ?app_assoc; cbn; do 3 f_equal; lia.
Qed.

(** From a new sink, [add_result] for each outcome of a list and then
    [save_summary]: the sink holds the records in the order they came, the
    processed count is the number of calls and the successful count the
    number of records; [add_result] never touches the failed count, which
    [save_summary] sets to the number of calls that brought no record,
    whether or not its write succeeds; a write that succeeds puts these
    counts in the summary file. *)
Theorem summary_counts_the_added_results
    (rs : list (option student)) (w : World.t) :
  saver w = ResultsSaver.new →
  let w1 := exec (for_each rs add_result) w in
  let w2 := exec save_summary w1 in
  results (saver w1) = omap id rs
  ∧ total_processed (saver w1) = Z.of_nat (length rs)
  ∧ successful (saver w1) = Z.of_nat (length (results (saver w1)))
  ∧ failed (saver w1) = 0
  ∧ results (saver w2) = results (saver w1)
  ∧ total_processed (saver w2) = successful (saver w2) + failed (saver w2)
  ∧ failed (saver w2) = Z.of_nat (length (filter (λ r, r = None) rs))
  ∧ (head (writes w) ≠ Some false →
     ∃ s, summary_file (disk w2) = Some s
          ∧ summary_total_processed s = Z.of_nat (length rs)
          ∧ summary_successful s = Z.of_nat (length (omap id rs))
          ∧ summary_failed s = Z.of_nat (length (filter (λ r, r = None) rs))).
Proof.
  intros Hnew. cbv zeta.
  assert (Hw1 : exec (for_each rs add_result) w
                = (for_each rs add_result w).2) by done.
  rewrite add_results_counts in Hw1. rewrite Hw1. clear Hw1.
  assert (Hnone : Z.of_nat (length rs)
                  = Z.of_nat (length (omap id rs))
                    + Z.of_nat (length (filter (λ r, r = None) rs))).
  { clear. induction rs as [| [d |] rs IH]; [done | |].
    - rewrite filter_cons_False by done. revert IH.
      generalize (filter (λ r : option student, r = None) rs).
      intros nones IH. cbn in *. lia.
    - rewrite filter_cons_True by done. revert IH.
      generalize (filter (λ r : option student, r = None) rs).
      intros nones IH. cbn in *. lia. }
  destruct w as [l sv d wr lg sc fe rq ct]. cbn in Hnew. subst sv.
  unfold exec, save_summary, write_file. run. cbn.
  rewrite success_rate_returns. cbn.
  destruct wr as [| [|] rest]; cbn;
    repeat split; try (lia || done); intros _; eexists;
    (split; [reflexivity |]); cbn; repeat split; lia.
Qed.

Lemma summary_counts_the_added_results_witness :
  failed
    (saver
       (exec save_summary
          (exec (for_each
                   [None; Some {| registration_number := "01000002";
                                  scores := [] |}; None] add_result)
             first_run)))
  = 2.
Proof.
  destruct (summary_counts_the_added_results
              [None; Some {| registration_number := "01000002";
                             scores := [] |}; None] first_run eq_refl)
    as (_ & _ & _ & _ & _ & _ & Hfailed & _).
  exact Hfailed.
Defined.

End Sink.

(** ** Fetching a batch *)

Section Fetching.
Import Py World MainEnhanced.

(** What [record_failure] and [record_success] leave alone, and how they can
    end. *)
Lemma record_failure_frame (id e : string) (w : World.t) :
  requests (exec (CrawlerSkipManager.record_failure id e) w) = requests w
  ∧ saver (exec (CrawlerSkipManager.record_failure id e) w) = saver w
  ∧ fetches (exec (CrawlerSkipManager.record_failure id e) w) = fetches w
  ∧ ((CrawlerSkipManager.record_failure id e w).1 = Returns tt
     ∨ (CrawlerSkipManager.record_failure id e w).1 = Raises OSError
     ∨ (CrawlerSkipManager.record_failure id e w).1 = Raises ValueError).
Proof.
  unfold exec, CrawlerSkipManager.record_failure, int_of.
  destruct (int (str_drop 2 id)) as [n |]; run; [| cbn; tauto].
  unfold CrawlerSkipManager.add_skip_range,
    CrawlerSkipManager._save_skip_ranges, write_file. run.
  generalize (str_take 2 id +:+ "_" +:+ str n). intros key.
  generalize (str_take 2 id). intros c.
  destruct w as [l sv d wr lg' sc fe rq ct]. cbn.
  destruct (_ >=? _); [| cbn; tauto].
  destruct wr as [| [|] rest]; cbn; try destruct (logger l); cbn; tauto.
Qed.

Lemma record_success_frame_fetches (id : string) (w : World.t) :
  requests (exec (CrawlerSkipManager.record_success id) w) = requests w
  ∧ saver (exec (CrawlerSkipManager.record_success id) w) = saver w
  ∧ fetches (exec (CrawlerSkipManager.record_success id) w) = fetches w
  ∧ ((CrawlerSkipManager.record_success id w).1 = Returns tt
     ∨ (CrawlerSkipManager.record_success id w).1 = Raises OSError
     ∨ (CrawlerSkipManager.record_success id w).1 = Raises ValueError).
Proof.
  unfold exec, CrawlerSkipManager.record_success, int_of.
  destruct (int (str_drop 2 id)) as [n |]; run; cbn; tauto.
Qed.

(** The reconciliation loop of [crawl_batch_api]. *)
Lemma reconcile_frame (found_numbers : gset string) (valid : list string)
    (w : World.t) :
  let m := for_each valid (λ num,
             if bool_decide (num ∈ found_numbers)
             then CrawlerSkipManager.record_success num
             else CrawlerSkipManager.record_failure num "not_found") in
  requests (exec m w) = requests w
  ∧ saver (exec m w) = saver w
  ∧ fetches (exec m w) = fetches w
  ∧ ((m w).1 = Returns tt ∨ (m w).1 = Raises OSError
     ∨ (m w).1 = Raises ValueError).
Proof.
  cbv zeta. revert w. induction valid as [| num valid IH]; intros w.
  - cbn. tauto.
  - cbn [for_each]. unfold exec, mbind, M_bind in *.
    assert (Hstep :
      let m := if bool_decide (num ∈ found_numbers)
               then CrawlerSkipManager.record_success num
               else CrawlerSkipManager.record_failure num "not_found" in
      requests (m w).2 = requests w ∧ saver (m w).2 = saver w
      ∧ fetches (m w).2 = fetches w
      ∧ ((m w).1 = Returns tt ∨ (m w).1 = Raises OSError
         ∨ (m w).1 = Raises ValueError)).
    { cbv zeta. destruct (bool_decide _).
      - apply record_success_frame_fetches.
      - apply record_failure_frame. }
    cbv zeta in Hstep. revert Hstep.
    generalize (if bool_decide (num ∈ found_numbers)
                then CrawlerSkipManager.record_success num
                else CrawlerSkipManager.record_failure num "not_found").
    intros m Hstep. destruct (m w) as [[[] | e] w1]; cbn in *.
    + destruct Hstep as (Hr & Hs & Hf & _). rewrite <- Hr, <- Hs, <- Hf.
      apply IH.
    + tauto.
Qed.

(** The filter of [crawl_batch_api]: the identifiers the ledger does not
    tell to skip, in the order of the batch; nothing is changed. *)
Lemma valid_numbers_of_filter (batch : list string) (w : World.t) :
  Forall well_formed batch →
  valid_numbers_of batch w
  = (Returns (filter (λ id, unskipped w id = true) batch), w).
Proof.
  induction 1 as [| id batch [n Hint] _ IH]; [done |].
  cbn [valid_numbers_of]. run.
  destruct (should_skip_decision w id n Hint) as (b & Hrun & _).
  rewrite Hrun, IH.
  assert (Hb : unskipped w id = negb b)
    by (unfold unskipped; rewrite Hrun; by destruct b).
  destruct b; cbn in Hb.
  - by rewrite filter_cons_False by (rewrite Hb; done).
  - by rewrite filter_cons_True by (rewrite Hb; done).
Qed.

(** The filter is outside the [try]: the first malformed identifier of the
    batch ends it with [ValueError]. *)
Lemma valid_numbers_of_malformed (batch : list string) (w : World.t) :
  Exists (λ id, ¬ well_formed id) batch →
  valid_numbers_of batch w = (Raises ValueError, w).
Proof.
  induction batch as [| id batch IH]; intros Hbad; [by inversion Hbad |].
  cbn [valid_numbers_of]. run.
  destruct (int (str_drop 2 id)) as [n |] eqn:Hint.
  - destruct (should_skip_decision w id n Hint) as (b & Hrun & _).
    rewrite Hrun, IH; [done |].
    apply Exists_cons in Hbad as [Hid | Hrest]; [| done].
    destruct Hid. unfold well_formed. by rewrite Hint.
  - unfold CrawlerSkipManager.should_skip, int_of. by rewrite Hint.
Qed.

Lemma crawl_batch_api_returns (self : api_crawler) (batch : list string)
    (w : World.t) :
  Forall well_formed batch →
  ∃ results w',
    crawl_batch_api self batch w = (Returns results, w')
    ∧ saver w' = saver w
    ∧ (results = [] ∨ head (fetches w) = Some results)
    ∧ ((api_scraper self = false
        ∨ filter (λ id, unskipped w id = true) batch = []) →
       results = [] ∧ requests w' = requests w ∧ fetches w' = fetches w)
    ∧ (api_scraper self = true →
       filter (λ id, unskipped w id = true) batch ≠ [] →
       requests w'
       = requests w ++ [filter (λ id, unskipped w id = true) batch]
       ∧ fetches w' = tail (fetches w)).
Proof.
  intros Hwf. unfold crawl_batch_api.
  destruct (api_scraper self); cbn [negb].
  2: { exists [], w. split; [done |]. split; [done |]. split; [by left |].
       split; [done | by intros [=]]. }
  run. rewrite (valid_numbers_of_filter batch w Hwf).
  destruct (filter (λ id, unskipped w id = true) batch) as [| num valid]
    eqn:Hvalid.
  { exists [], w. split; [done |]. split; [done |]. split; [by left |].
    split; [done | by intros _ ?]. }
  unfold try_except, fetch_batch. run.
  match goal with
  | |- context [for_each ?l ?body ?w1] =>
      pose proof (reconcile_frame
                    (list_to_set (registration_number
                                    <$> default [] (head (fetches w))))
                    (num :: valid) w1) as Hframe;
      cbv zeta in Hframe; unfold exec in Hframe;
      destruct (for_each l body w1) as [[[] | e] w2]
  end; cbn in Hframe; destruct Hframe as (Hreq & Hsaver & Hfetches & Hout).
  - eexists _, _. split; [reflexivity |]. split; [done |].
    split; [destruct (fetches w); [by left | by right] |].
    split; [by intros [[=] | [=]] | done].
  - assert (He : is_exception e = true)
      by (destruct Hout as [[=] | [[= ->] | [= ->]]]; done).
    rewrite He. cbn. eexists _, _. split; [reflexivity |]. cbn.
    split; [done |]. split; [by left |].
    split; [by intros [[=] | [=]] | done].
Qed.

(** Recording the outcome of a well-formed identifier can only fail in a
    write, and does not fail when no write does. *)
Lemma record_outcome_well_formed (id : string) (found : bool) (w : World.t) :
  well_formed id →
  let m := if found then CrawlerSkipManager.record_success id
           else CrawlerSkipManager.record_failure id "not_found" in
  ((m w).1 = Returns tt ∨ (m w).1 = Raises OSError)
  ∧ (false ∉ writes w → (m w).1 = Returns tt ∧ false ∉ writes (m w).2).
Proof.
  intros [n Hint]. cbv zeta. destruct found.
  - unfold CrawlerSkipManager.record_success, int_of. rewrite Hint. run.
    cbn. split; [by left | done].
  - unfold CrawlerSkipManager.record_failure, int_of. rewrite Hint. run.
    unfold CrawlerSkipManager.add_skip_range,
      CrawlerSkipManager._save_skip_ranges, write_file. run.
    generalize (str_take 2 id +:+ "_" +:+ str n). intros key.
    generalize (str_take 2 id). intros c.
    destruct w as [l sv d wr lg' sc fe rq ct]. cbn.
    destruct (_ >=? _); [| cbn; split; [by left | done]].
    destruct wr as [| [|] rest]; cbn; try destruct (logger l); cbn;
      (split; [tauto |]); intros Hnot; try done.
    + split; [done |]. by apply not_elem_of_cons in Hnot as [_ ?].
    + split; [done |]. by apply not_elem_of_cons in Hnot as [_ ?].
    + by destruct Hnot; left.
    + by destruct Hnot; left.
Qed.

Lemma record_results_well_formed (results : list student)
    (valid : list string) (w : World.t) :
  Forall well_formed valid →
  ((record_results results valid w).1 = Returns tt
   ∨ (record_results results valid w).1 = Raises OSError)
  ∧ (false ∉ writes w → (record_results results valid w).1 = Returns tt).
Proof.
  unfold record_results. intros Hwf. revert w.
  induction Hwf as [| num valid Hnum _ IH]; intros w.
  - cbn. split; [by left | done].
  - cbn [for_each]. unfold mbind, M_bind.
    pose proof (record_outcome_well_formed num
                  (bool_decide (num ∈ (list_to_set
                     (registration_number <$> results) : gset string)))
                  w Hnum) as Hstep.
    cbv zeta in Hstep. revert Hstep.
    generalize (if bool_decide (num ∈ (list_to_set
                     (registration_number <$> results) : gset string))
                then CrawlerSkipManager.record_success num
                else CrawlerSkipManager.record_failure num "not_found").
    intros m [Hout Hwrites]. destruct (m w) as [[[] | e] w1]; cbn in *.
    + destruct (IH w1) as [Hout1 Hwrites1]. split; [done |].
      intros Hnot. apply Hwrites1. by apply Hwrites.
    + split; [tauto |]. intros Hnot. by destruct (Hwrites Hnot).
Qed.

(** The identifiers that pass the filter of a well-formed batch are
    well-formed. *)
Lemma unskipped_well_formed (batch : list string) (w : World.t) :
  Forall well_formed batch →
  Forall well_formed (filter (λ id, unskipped w id = true) batch).
Proof.
  rewrite !Forall_forall. intros Hwf id Hin.
  apply list_elem_of_filter in Hin as [_ Hin]. by apply Hwf.
Qed.

(** What [crawl_batch_api] returns once it has asked the backend: the
    answer itself when recording the outcomes returned, and the empty list,
    with an error line, when it raised. *)
Lemma crawl_batch_api_answer (self : api_crawler) (batch : list string)
    (w : World.t) :
  api_scraper self = true →
  Forall well_formed batch →
  filter (λ id, unskipped w id = true) batch ≠ [] →
  crawl_batch_api self batch w
  = match record_results (default [] (head (fetches w)))
            (filter (λ id, unskipped w id = true) batch)
            (exec (fetch_batch (filter (λ id, unskipped w id = true) batch))
               w) with
    | (Returns _, w2) => (Returns (default [] (head (fetches w))), w2)
    | (Raises e, w2) =>
        (Returns [],
         set_log (λ l, l ++ [(ERROR,
                              "Batch API crawl failed: " +:+ str_exn e)]) w2)
    end.
Proof.
  intros Hscraper Hwf Hvalid. unfold crawl_batch_api. rewrite Hscraper.
  cbn [negb]. run. rewrite (valid_numbers_of_filter batch w Hwf).
  pose proof (unskipped_well_formed batch w Hwf) as Hwf'.
  destruct (filter (λ id, unskipped w id = true) batch) as [| num valid]
    eqn:Hfilter; [done |].
  unfold try_except, fetch_batch, exec. run. cbn [snd].
  pose proof (record_results_well_formed (default [] (head (fetches w)))
                (num :: valid)
                (set_requests (λ l, l ++ [num :: valid])
                   (set_fetches (λ l, tail l) w)) Hwf') as [Hout _].
  unfold record_results in *.
  match goal with
  | |- context [for_each ?l ?body ?w1] =>
      destruct (for_each l body w1) as [[[] | e] w2]
  end; [done |].
  cbn in Hout. destruct Hout as [[=] | [= ->]]. done.
Qed.

(** With the scraper initialised and a batch of well-formed identifiers,
    [crawl_batch_api] always returns and never adds to the result sink.
    When the ledger tells to skip the whole batch it returns the empty list
    and changes nothing.  Otherwise it sends the backend one request, the
    identifiers of the batch that the ledger does not tell to skip, in their
    order, and records the outcome of each; it returns the answer of the
    backend when recording returned, which it does whenever no write fails,
    and the empty list, after an error line, when recording raised, which
    only the [OSError] of a write can make it do.  A malformed identifier in
    the batch ends the call with [ValueError] before anything is sent. *)
Theorem crawl_batch_api_asks_for_the_unskipped
    (self : api_crawler) (batch : list string) (w : World.t) :
  api_scraper self = true →
  let valid := filter (λ id, unskipped w id = true) batch in
  let answer := default [] (head (fetches w)) in
  let recorded := record_results answer valid (exec (fetch_batch valid) w) in
  (Forall well_formed batch →
   ∃ results w',
     crawl_batch_api self batch w = (Returns results, w')
     ∧ requests w'
       = requests w ++ match valid with [] => [] | _ => [valid] end
     ∧ saver w' = saver w
     ∧ (valid = [] → results = [] ∧ w' = w)
     ∧ (valid ≠ [] →
        (recorded.1 = Returns tt ∧ results = answer ∧ w' = recorded.2)
        ∨ (recorded.1 = Raises OSError ∧ results = []
           ∧ w' = set_log
                    (λ l, l ++ [(ERROR, "Batch API crawl failed: OSError")])
                    recorded.2))
     ∧ (valid ≠ [] → false ∉ writes w → results = answer))
  ∧ (Exists (λ id, ¬ well_formed id) batch →
     crawl_batch_api self batch w = (Raises ValueError, w)).
Proof.
  intros Hscraper. cbv zeta. split.
  - intros Hwf.
    destruct (crawl_batch_api_returns self batch w Hwf)
      as (results & w' & Hrun & Hsaver & _ & Hnone & Hsome).
    exists results, w'. split; [done |].
    pose proof (crawl_batch_api_answer self batch w Hscraper Hwf) as Hanswer.
    pose proof (unskipped_well_formed batch w Hwf) as Hwf'.
    destruct (filter (λ id, unskipped w id = true) batch) as [| num valid]
      eqn:Hfilter.
    + destruct Hnone as (-> & Hreq & _); [by right |].
      split; [by rewrite app_nil_r |]. split; [done |].
      split; [| done]. intros _. split; [done |].
      unfold crawl_batch_api in Hrun. rewrite Hscraper in Hrun.
      cbn [negb] in Hrun. revert Hrun. run.
      rewrite (valid_numbers_of_filter batch w Hwf), Hfilter.
      by intros [= <-].
    + destruct (Hsome Hscraper) as [Hreq _]; [done |].
      split; [done |]. split; [done |]. split; [done |].
      specialize (Hanswer ltac:(done)). rewrite Hrun in Hanswer.
      pose proof (record_results_well_formed (default [] (head (fetches w)))
                    (num :: valid)
                    (exec (fetch_batch (num :: valid)) w) Hwf')
        as [Hout Hwrites].
      destruct (record_results _ _ _) as [[[] | e] w2]; cbn in *.
      * injection Hanswer as -> ->. split; [by left |]. done.
      * destruct Hout as [[=] | [= ->]]. injection Hanswer as -> ->.
        split; [by right |]. intros _ Hnot. by specialize (Hwrites Hnot).
  - intros Hbad. unfold crawl_batch_api. rewrite Hscraper. cbn [negb]. run.
    by rewrite (valid_numbers_of_malformed batch w Hbad).
Qed.

Lemma crawl_batch_api_asks_for_the_unskipped_witness :
  ∃ results w',
    crawl_batch_api new ["01000001"; "01000002"; "01000003"]
      (set_fetches
         (λ _, [[{| registration_number := "01000003"; scores := [] |}]])
         skipping_run)
    = (Returns results, w')
    ∧ requests w' = [["01000002"; "01000003"]]
    ∧ results = [{| registration_number := "01000003"; scores := [] |}].
Proof.
  destruct (crawl_batch_api_asks_for_the_unskipped new
              ["01000001"; "01000002"; "01000003"]
              (set_fetches
                 (λ _, [[{| registration_number := "01000003";
                            scores := [] |}]])
                 skipping_run) eq_refl)
    as [Hreturns _].
  destruct Hreturns as (results & w' & Hrun & Hreq & _ & _ & _ & Hanswer).
  - repeat constructor; by eexists.
  - exists results, w'. split; [exact Hrun |]. split.
    + rewrite Hreq. vm_compute. reflexivity.
    + apply Hanswer.
      * vm_compute. discriminate.
      * apply (bool_decide_unpack _). vm_compute. exact I.
Defined.

End Fetching.

(** ** The batched loop of one council *)

Section FastCouncil.
Import Py World MainEnhanced.

(** The batch loop appends the identifiers of consecutive numbers. *)
Lemma create_batch_ids (todo : list Z) (council_code : string)
    (failures number : Z) (batch : list string) :
  failures < 1000 →
  create_batch todo council_code failures number batch
  = (batch ++ ((λ k, council_code +:+ format_0d 6 k)
               <$> seqZ number (Z.of_nat (length todo))),
     number + Z.of_nat (length todo)).
Proof.
  intros Hlt. revert number batch.
  induction todo as [| i rest IH]; intros number batch; cbn [create_batch].
  - cbn. by rewrite app_nil_r, Z.add_0_r.
  - destruct (Z.geb_spec failures 1000); [lia |].
    rewrite IH. cbn [length]. rewrite Nat2Z.inj_succ, (seqZ_cons number) by lia.
    rewrite <- app_assoc. cbn. rewrite Z.pred_succ.
    replace (Z.succ number) with (number + 1) by lia.
    f_equal. lia.
Qed.

(** Under the guard of the loop, the batch that [crawl_council_fast] builds
    is never cut short and never empty: it holds the identifiers that the
    generator gives the next hundred numbers, whether or not they are within
    the configured bounds, and the number advances by a hundred. *)
Theorem create_batch_is_the_next_hundred
    (council_code : string) (failures number : Z) :
  failures < 1000 →
  create_batch (range 0 batch_size) council_code failures number []
  = (RegistrationNumberGenerator.generate_single
       RegistrationNumberGenerator.new council_code
     <$> range number (number + 100),
     number + 100).
Proof.
  intros Hlt. rewrite create_batch_ids by done.
  change (Z.of_nat (length (range 0 batch_size))) with 100.
  unfold range. by replace (number + 100 - number) with 100 by lia.
Qed.

Lemma create_batch_is_the_next_hundred_witness :
  (create_batch (range 0 batch_size) "48" 0 34201 []).2 = 34301.
Proof.
  rewrite (create_batch_is_the_next_hundred "48" 0 34201); [done | lia].
Defined.

Lemma batch_well_formed (council_code : string) (number count : Z) :
  String.length council_code = 2%nat → 0 <= number →
  Forall well_formed
    ((λ k, council_code +:+ format_0d 6 k) <$> seqZ number count).
Proof.
  intros Hlen Hnn. apply Forall_fmap, Forall_forall. intros k Hk.
  apply elem_of_seqZ in Hk. unfold compose, well_formed.
  rewrite (str_drop_append council_code _ 2 Hlen), int_format_0d by lia.
  by eexists.
Qed.

(** A turn of the loop whose batch brings no record. *)
Lemma process_batch_without_results (council_code : string)
    (batch : list string) (l : locals) (w : World.t) :
  Forall well_formed batch →
  fetches w = [] →
  total_successful (self l) - last_save_count (self l) < 10000 →
  ∃ l' w',
    process_batch council_code batch l w = (Returns l', w')
    ∧ consecutive_failures l'
      = consecutive_failures l + Z.of_nat (length batch)
    ∧ student_number l' = student_number l
    ∧ council_successful l' = council_successful l
    ∧ total_processed (self l')
      = total_processed (self l) + Z.of_nat (length batch)
    ∧ total_failed (self l') = total_failed (self l) + Z.of_nat (length batch)
    ∧ total_successful (self l') = total_successful (self l)
    ∧ last_save_count (self l') = last_save_count (self l)
    ∧ fetches w' = [] ∧ saver w' = saver w
    ∧ (length (requests w') <= S (length (requests w)))%nat.
Proof.
  intros Hwf Hfetches Hsave.
  destruct (crawl_batch_api_returns (self l) batch w Hwf)
    as (results & w1 & Hrun & Hsaver & Hresults & Hnone & Hsome).
  assert (results = []) as -> by (rewrite Hfetches in Hresults; by destruct Hresults).
  assert (Hw1 : fetches w1 = []
                ∧ (length (requests w1) <= S (length (requests w)))%nat).
  { destruct (api_scraper (self l)) eqn:Hscraper.
    - destruct (filter (λ id, unskipped w id = true) batch) eqn:Hvalid.
      + destruct Hnone as (_ & -> & ->); [by right |]. split; [done | lia].
      + destruct Hsome as [-> ->]; [done | done |].
        rewrite Hfetches, length_app. cbn. split; [done | lia].
    - destruct Hnone as (_ & -> & ->); [by left |]. split; [done | lia]. }
  destruct Hw1 as [Hfetches1 Hreq1].
  unfold process_batch. run. rewrite Hrun. cbn.
  destruct (Z.geb_spec (total_successful (self l) - last_save_count (self l))
              10000) as [? | _]; [lia |].
  destruct (_ =? 0); cbn; do 2 eexists; (split; [reflexivity |]); cbn;
    repeat split; done.
Qed.

(** The loop over a council for which the backend never answers with a
    record. *)
Lemma while_loop_without_results (council_code : string) (j : nat) :
  String.length council_code = 2%nat →
  ∀ (fuel : nat) (l : locals) (w : World.t),
    (j <= fuel)%nat →
    consecutive_failures l = 1000 - 100 * Z.of_nat j →
    (j <= 10)%nat →
    0 <= student_number l →
    fetches w = [] →
    total_successful (self l) - last_save_count (self l) < 10000 →
    ∃ l' w',
      while_loop fuel council_code l w = (Returns (Some l'), w')
      ∧ student_number l' = student_number l + 100 * Z.of_nat j
      ∧ council_successful l' = council_successful l
      ∧ total_processed (self l')
        = total_processed (self l) + 100 * Z.of_nat j
      ∧ total_failed (self l') = total_failed (self l) + 100 * Z.of_nat j
      ∧ total_successful (self l') = total_successful (self l)
      ∧ saver w' = saver w
      ∧ (length (requests w') <= length (requests w) + j)%nat.
Proof.
  intros Hlen. induction j as [| j IH];
    intros fuel l w Hfuel Hcf Hj Hnn Hfetches Hsave.
  - exists l, w.
    assert (Hrun : while_loop fuel council_code l w = (Returns (Some l), w)).
    { destruct fuel; cbn [while_loop];
        (destruct (Z.ltb_spec (consecutive_failures l) 1000); [lia | done]). }
    split; [done |]. repeat split; lia.
  - destruct fuel as [| fuel]; [lia |]. cbn [while_loop].
    destruct (Z.ltb_spec (consecutive_failures l) 1000); [| lia].
    rewrite create_batch_ids by done.
    change (Z.of_nat (length (range 0 batch_size))) with 100.
    remember ((λ k, council_code +:+ format_0d 6 k)
              <$> seqZ (student_number l) 100) as batch eqn:Hdef.
    assert (Hbatch : length batch = 100%nat)
      by (subst batch; by rewrite length_fmap, length_seqZ).
    assert (Hwf : Forall well_formed batch)
      by (subst batch; by apply batch_well_formed).
    clear Hdef. cbn [app]. destruct batch as [| id batch']; [done |].
    set (l1 := {| self := self l;
                  consecutive_failures := consecutive_failures l;
                  student_number := student_number l + 100;
                  council_successful := council_successful l |}).
    destruct (process_batch_without_results council_code (id :: batch') l1 w)
      as (l2 & w2 & Hturn & Hcf2 & Hn2 & Hcs2 & Hp2 & Hf2 & Hs2 & Hlast2
          & Hfetches2 & Hsaver2 & Hreq2); [done | done | done |].
    rewrite Hbatch in *. cbn in Hcf2, Hn2, Hcs2, Hp2, Hf2, Hs2, Hlast2.
    unfold mbind, M_bind. rewrite Hturn.
    destruct (IH fuel l2 w2)
      as (l' & w' & Hrun & Hn' & Hcs' & Hp' & Hf' & Hs' & Hsaver' & Hreq');
      [lia | lia | lia | lia | done | lia |].
    exists l', w'. split; [done |]. repeat split; try lia; congruence.
Qed.

(** A council for which the backend never answers with a record is left
    after exactly ten batches, a thousand identifiers, all counted as
    processed and failed: [crawl_council_fast] returns 0 found, whatever the
    ledger held and whether or not its writes succeed, provided no auto-save
    is due; at most ten requests are sent and the result sink is not
    touched. *)
Theorem council_without_results_ends_after_a_thousand
    (fuel : nat) (c : api_crawler) (council_code : string)
    (start_number : Z) (w : World.t) :
  String.length council_code = 2%nat →
  0 <= start_number →
  fetches w = [] →
  total_successful c - last_save_count c < 10000 →
  (10 <= fuel)%nat →
  ∃ c' w',
    crawl_council_fast fuel c council_code start_number w
    = (Returns (Some (c', 0)), w')
    ∧ total_processed c' = total_processed c + 1000
    ∧ total_failed c' = total_failed c + 1000
    ∧ total_successful c' = total_successful c
    ∧ saver w' = saver w
    ∧ (length (requests w') <= length (requests w) + 10)%nat.
Proof.
  intros Hlen Hnn Hfetches Hsave Hfuel. unfold crawl_council_fast. run.
  match goal with
  | |- context [while_loop fuel council_code ?l0 ?w0] =>
      destruct (while_loop_without_results council_code 10 Hlen fuel l0 w0)
        as (l' & w' & Hrun & Hn' & Hcs' & Hp' & Hf' & Hs' & Hsaver' & Hreq');
        [lia | done | lia | done | done | done |]
  end.
  rewrite Hrun. cbn in *. do 2 eexists.
  rewrite Hcs'. split; [reflexivity |]. cbn. repeat split; (lia || done).
Qed.

Lemma council_without_results_ends_after_a_thousand_witness :
  ∃ c' w',
    crawl_council_fast 10 new "48" 34201 first_run
    = (Returns (Some (c', 0)), w')
    ∧ total_processed c' = 1000.
Proof.
  destruct (council_without_results_ends_after_a_thousand
              10 new "48" 34201 first_run)
    as (c' & w' & Hrun & Hp & _); [done | lia | done | cbn; lia | lia |].
  exists c', w'. split; [exact Hrun | exact Hp].
Defined.

End FastCouncil.

(** ** The rates of the final report *)

Section FinalReport.
Import Py World Main.

(** The probe leaves the sink alone. *)
Lemma crawl_registration_number_sink (id : string) (w w' : World.t)
    (o : outcome crawled) :
  crawl_registration_number id w = (o, w') → saver w' = saver w.
Proof.
  intros Hrun. destruct (crawl_registration_number_sends id w)
    as (k & _ & _ & Hsaver).
  unfold exec in Hsaver. by rewrite Hrun in Hsaver.
Qed.

(** [main] hands the sink found records only, so the sink never sees a
    failure: through the statements of a turn, ... *)
Lemma run_steps_sink (todo : list statement) :
  Forall (λ s, match s with
               | Assign _ => True
               | Call m => ∀ l w o w', m l w = (o, w') →
                             sink_sees_no_failure w → sink_sees_no_failure w'
               end) todo →
  ∀ (n : nat) (l : locals) (w w' : World.t) (x : locals * nat),
    run_steps n todo l w = (Returns x, w') →
    sink_sees_no_failure w → sink_sees_no_failure w'.
Proof.
  induction 1 as [| s rest Hs _ IH]; intros n l w w' x Hrun Hinv.
  - destruct n; by apply ret_returns in Hrun as [_ <-].
  - destruct n as [| n]; [by apply ret_returns in Hrun as [_ <-] |].
    cbn [run_steps] in Hrun. destruct s as [f | m].
    + by eapply IH.
    + apply bind_returns in Hrun as ([] & w1 & Hm & Hrun).
      eapply IH; [exact Hrun |]. by eapply Hs.
Qed.

Lemma add_result_sink (d : student) (w w' : World.t) (o : outcome unit) :
  ResultsSaver.add_result (Some d) w = (o, w') →
  sink_sees_no_failure w → sink_sees_no_failure w'.
Proof.
  unfold sink_sees_no_failure, sink_counts. intros [= <- <-]. cbn. lia.
Qed.

Lemma save_all_sink (w w' : World.t) (o : outcome unit) :
  ResultsSaver.save_all w = (o, w') →
  sink_sees_no_failure w → sink_sees_no_failure w'.
Proof.
  intros Hrun. apply results_save_all_counts in Hrun as [Hcounts _].
  unfold sink_sees_no_failure. by rewrite Hcounts.
Qed.

Lemma logging_sink (lvl : level) (msg : string) (w w' : World.t)
    (o : outcome unit) :
  logging lvl msg w = (o, w') →
  sink_sees_no_failure w → sink_sees_no_failure w'.
Proof. by intros [= <- <-]. Qed.

(** ... through a whole turn, ... *)
Lemma iteration_sink (council_code : string) (l l' : locals)
    (w w' : World.t) :
  iteration council_code l w = (Returns l', w') →
  sink_sees_no_failure w → sink_sees_no_failure w'.
Proof.
  unfold iteration. intros Hrun Hinv.
  apply bind_returns in Hrun as (result & w1 & Hprobe & Hrun).
  apply crawl_registration_number_sink in Hprobe.
  assert (Hinv1 : sink_sees_no_failure w1)
    by (unfold sink_sees_no_failure, sink_counts in *; by rewrite Hprobe).
  clear Hinv Hprobe.
  apply bind_returns in Hrun as (l1 & w2 & Hbranch & Hrun).
  apply bind_returns in Hrun as ([] & w3 & Hlog & Hrun).
  apply ret_returns in Hrun as [_ <-].
  assert (Hinv2 : sink_sees_no_failure w2).
  { destruct result as [| d |].
    - by apply ret_returns in Hbranch as [_ <-].
    - apply bind_returns in Hbranch as ([] & w4 & Hadd & Hbranch).
      apply add_result_sink in Hadd; [| done].
      cbv zeta in Hbranch.
      match type of Hbranch with
      | (if ?c then _ else _) _ = _ => destruct c
      end.
      + apply bind_returns in Hbranch as ([] & w5 & Hl1 & Hbranch).
        apply bind_returns in Hbranch as ([] & w6 & Hsave & Hbranch).
        apply bind_returns in Hbranch as ([] & w7 & Hl2 & Hbranch).
        apply ret_returns in Hbranch as [_ <-].
        eapply logging_sink; [exact Hl2 |].
        eapply save_all_sink; [exact Hsave |].
        by eapply logging_sink.
      + by apply ret_returns in Hbranch as [_ <-].
    - by apply ret_returns in Hbranch as [_ <-]. }
  revert Hlog. unfold when. destruct (_ =? 0).
  - intros Hlog. by eapply logging_sink.
  - by intros [= <-].
Qed.

(** ... through a turn that the interrupt cuts, ... *)
Lemma interrupted_iteration_sink (point : nat) (council_code : string)
    (l l' : locals) (w w' : World.t) :
  interrupted_iteration point council_code l w = (Returns l', w') →
  sink_sees_no_failure w → sink_sees_no_failure w'.
Proof.
  unfold interrupted_iteration. intros Hrun Hinv.
  apply bind_returns in Hrun as (result & w1 & Hprobe & Hrun).
  apply crawl_registration_number_sink in Hprobe.
  assert (Hinv1 : sink_sees_no_failure w1)
    by (unfold sink_sees_no_failure, sink_counts in *; by rewrite Hprobe).
  clear Hinv Hprobe.
  apply bind_returns in Hrun as ([l2 n2] & w2 & Hbranch & Hrun).
  apply bind_returns in Hrun as ([l3 n3] & w3 & Hclosing & Hrun).
  apply ret_returns in Hrun as [_ <-].
  assert (Hfound : ∀ d, Forall (λ s, match s with
      | Assign _ => True
      | Call m => ∀ l w o w', m l w = (o, w') →
                    sink_sees_no_failure w → sink_sees_no_failure w'
      end) (found_steps d)).
  { intros d. repeat constructor. intros ? ? ? ?. apply add_result_sink. }
  assert (Hauto : Forall (λ s, match s with
      | Assign _ => True
      | Call m => ∀ l w o w', m l w = (o, w') →
                    sink_sees_no_failure w → sink_sees_no_failure w'
      end) auto_save_steps).
  { repeat constructor.
    - intros ? ? ? ?. apply logging_sink.
    - intros ? ? ? ?. apply save_all_sink.
    - intros ? ? ? ?. apply logging_sink. }
  assert (Hmissed : Forall (λ s, match s with
      | Assign _ => True
      | Call m => ∀ l w o w', m l w = (o, w') →
                    sink_sees_no_failure w → sink_sees_no_failure w'
      end) missed_steps) by repeat constructor.
  assert (Hclose : Forall (λ s, match s with
      | Assign _ => True
      | Call m => ∀ l w o w', m l w = (o, w') →
                    sink_sees_no_failure w → sink_sees_no_failure w'
      end) (closing_steps council_code)).
  { repeat constructor. intros l0 w0 o0 w0'. unfold when.
    destruct (_ =? 0); [apply logging_sink | by intros [= <- <-]]. }
  eapply run_steps_sink; [exact Hclose | exact Hclosing |].
  destruct result as [| d |].
  - by eapply run_steps_sink; [exact Hmissed | exact Hbranch |].
  - apply bind_returns in Hbranch as ([l1 n1] & w4 & Hfirst & Hbranch).
    assert (Hinv4 : sink_sees_no_failure w4)
      by (by eapply run_steps_sink; [apply Hfound | exact Hfirst |]).
    match type of Hbranch with
    | (if ?c then _ else _) _ = _ => destruct c
    end.
    + by eapply run_steps_sink; [exact Hauto | exact Hbranch |].
    + by apply ret_returns in Hbranch as [_ <-].
  - by eapply run_steps_sink; [exact Hmissed | exact Hbranch |].
Qed.

(** ... and through the loops. *)
Lemma while_loop_sink (budget point : nat) (council_code : string)
    (l : locals) (w w' : World.t) (x : locals * nat * bool) :
  while_loop budget point council_code l w = (Returns x, w') →
  sink_sees_no_failure w → sink_sees_no_failure w'.
Proof.
  revert l w. induction budget as [| budget IH]; intros l w; cbn [while_loop].
  - destruct (_ <? 10).
    + destruct point as [| point]; intros Hrun Hinv.
      * by apply ret_returns in Hrun as [_ <-].
      * apply bind_returns in Hrun as (l1 & w1 & Hturn & Hrun).
        apply ret_returns in Hrun as [_ <-].
        by eapply interrupted_iteration_sink.
    + intros Hrun Hinv. by apply ret_returns in Hrun as [_ <-].
  - destruct (_ <? 10).
    + intros Hrun Hinv.
      apply bind_returns in Hrun as (l1 & w1 & Hturn & Hrun).
      eapply IH; [exact Hrun |]. by eapply iteration_sink.
    + intros Hrun Hinv. by apply ret_returns in Hrun as [_ <-].
Qed.

Lemma councils_sink (todo : list Z) (budget point : nat) (l : locals)
    (w w' : World.t) (x : locals * bool) :
  councils budget point todo l w = (Returns x, w') →
  sink_sees_no_failure w → sink_sees_no_failure w'.
Proof.
  revert budget l w. induction todo as [| council_num rest IH];
    intros budget l w; cbn [councils]; intros Hrun Hinv.
  - by apply ret_returns in Hrun as [_ <-].
  - cbv zeta in Hrun.
    apply bind_returns in Hrun as ([] & w1 & Hl1 & Hrun).
    apply bind_returns in Hrun as ([[l1 left] stop] & w2 & Hloop & Hrun).
    assert (Hinv2 : sink_sees_no_failure w2).
    { eapply while_loop_sink; [exact Hloop |]. by eapply logging_sink. }
    destruct stop.
    + by apply ret_returns in Hrun as [_ <-].
    + apply bind_returns in Hrun as ([] & w3 & Hl3 & Hrun).
      apply bind_returns in Hrun as ([] & w4 & Hl4 & Hrun).
      apply bind_returns in Hrun as ([] & w5 & Hsave & Hrun).
      apply bind_returns in Hrun as ([] & w6 & Hl6 & Hrun).
      apply bind_returns in Hrun as ([] & w7 & Hl7 & Hrun).
      eapply IH; [exact Hrun |].
      assert (Hinv6 : sink_sees_no_failure w6).
      { eapply logging_sink; [exact Hl6 |].
        eapply save_all_sink; [exact Hsave |].
        eapply logging_sink; [exact Hl4 |].
        by eapply logging_sink. }
      revert Hl7. unfold when. destruct (_ <? 65).
      * intros Hl7. by eapply logging_sink.
      * by intros [= <-].
Qed.

(** The rate of a whole that grows by one goes down. *)
Lemma rate_goes_down (part whole : Z) :
  0 < part → 1 <= whole →
  (inject_Z part / inject_Z (Z.max 1 (whole + 1)) * 100
   < inject_Z part / inject_Z (Z.max 1 whole) * 100)%Q.
Proof.
  intros Hpart Hwhole.
  rewrite (Z.max_r 1 (whole + 1)), (Z.max_r 1 whole) by lia.
  destruct whole as [| m | m]; [lia | | lia].
  replace (Z.pos m + 1) with (Z.pos (m + 1)) by lia.
  unfold Qlt, Qdiv, Qmult, Qinv, inject_Z. cbn. nia.
Qed.

(** The rate of a part that is the whole. *)
Lemma rate_of_all (n : Z) :
  0 < n → (inject_Z n / inject_Z (Z.max 1 n) * 100 == 100)%Q.
Proof.
  intros Hn. rewrite (Z.max_r 1 n) by lia.
  destruct n as [| m | m]; [lia | | lia].
  unfold Qeq, Qdiv, Qmult, Qinv, inject_Z. cbn. nia.
Qed.

(** C9 fails on the code.  In every run that gets to its final statistics
    the rate reported is the successful total over the larger of 1 and the
    processed total, as a percentage (the skipped total that the expression
    subtracts is zero in every run), and the guard makes the expression
    return for every value of the counters, with a rate of 0 for a run
    interrupted before its first turn, where the bare quotient raises.  But
    the totals are not counts of probes.  A turn whose identifier the ledger
    tells to skip sends nothing to the backend and gives the sink nothing,
    yet adds one to the processed total and so lowers the rate.  An
    interrupt that arrives in a turn after the successful total was raised
    and before the processed total was finds more successes than identifiers
    processed, and a rate of 200.  And the summary of the sink, written by
    the final save, computes its rate from counts that no failure ever
    reaches: its failed count is 0 and its rate 100 as soon as one record
    was found. *)
Theorem final_report_rate_counts_unprobed_identifiers :
  (∀ (budget point : nat) (w w' : World.t) (stats : final_statistics),
     main budget point w = (Returns stats, w') →
     stat_total_skipped stats = 0
     ∧ overall_success_rate stats
       = (inject_Z (stat_total_successful stats)
          / inject_Z (Z.max 1 (stat_total_processed stats)) * 100)%Q)
  ∧ (∀ l : locals, ∃ stats, final_stats l = Returns stats)
  ∧ (∃ (stats : final_statistics) (w' : World.t),
       main 0 0 first_run = (Returns stats, w')
       ∧ stat_total_processed stats = 0
       ∧ (overall_success_rate stats == 0)%Q
       ∧ truediv (stat_total_successful stats) (stat_total_processed stats)
         = Raises ZeroDivisionError)
  ∧ (∀ (council_code : string) (l : locals) (w : World.t),
       (CrawlerSkipManager.should_skip
          (council_code +:+ format_0d 6 (student_number l)) w).1
       = Returns true →
       0 < total_successful l → 1 <= total_processed l →
       total_skipped l = 0 →
       ∃ l' w' stats stats',
         iteration council_code l w = (Returns l', w')
         ∧ requests w' = requests w
         ∧ saver w' = saver w
         ∧ final_stats l = Returns stats
         ∧ final_stats l' = Returns stats'
         ∧ stat_total_successful stats' = stat_total_successful stats
         ∧ stat_total_processed stats' = stat_total_processed stats + 1
         ∧ stat_total_skipped stats' = 0
         ∧ (overall_success_rate stats' < overall_success_rate stats)%Q)
  ∧ (∃ (stats : final_statistics) (w' : World.t),
       main 1 5 two_found_run = (Returns stats, w')
       ∧ stat_total_successful stats = 2
       ∧ stat_total_processed stats = 1
       ∧ (overall_success_rate stats == 200)%Q)
  ∧ (∀ (budget point : nat) (w w' : World.t) (stats : final_statistics),
       sink_sees_no_failure w →
       main budget point w = (Returns stats, w') →
       ∃ s, summary_file (disk w') = Some s
            ∧ summary_total_processed s = summary_successful s
            ∧ summary_failed s = 0
            ∧ summary_success_rate s
              = (inject_Z (summary_successful s)
                 / inject_Z (Z.max 1 (summary_total_processed s)) * 100)%Q
            ∧ (0 < summary_successful s →
               (summary_success_rate s == 100)%Q)).
Proof.
  split; [| split; [| split; [| split; [| split]]]].
  - intros budget point w w' stats Hrun.
    apply main_returns in Hrun
      as (l & stop & w1 & w2 & w3 & w4 & Hcouncils & _ & _ & _ & _ & _
          & Hstats & _).
    apply councils_total_skipped in Hcouncils. cbn in Hcouncils.
    rewrite final_stats_returns in Hstats. injection Hstats as <-. cbn.
    split; [done |]. by rewrite Hcouncils, Z.sub_0_r.
  - intros l. eexists. apply final_stats_returns.
  - eexists _, _. split; [vm_compute; reflexivity |].
    split; [reflexivity |]. split; reflexivity.
  - intros council_code l w Hskip Hs Hp Hk.
    apply should_skip_returns in Hskip.
    unfold iteration, crawl_registration_number. run. rewrite Hskip. cbn.
    destruct (_ =? 0); do 4 eexists; (split; [reflexivity |]); cbn;
      (split; [done |]); (split; [done |]);
      (split; [apply final_stats_returns |]);
      (split; [apply final_stats_returns |]); cbn; (split; [done |]);
      (split; [done |]); (split; [done |]); rewrite Hk, !Z.sub_0_r;
      by apply rate_goes_down.
  - eexists _, _. split; [vm_compute; reflexivity |].
    split; [reflexivity |]. split; reflexivity.
  - intros budget point w w' stats Hinv Hrun.
    apply main_returns in Hrun
      as (l & stop & w1 & w2 & w3 & w4 & Hcouncils & Hsaver & Hsave & Hcounts
          & Hsummary & _ & _ & _).
    assert (Hinv1 : sink_sees_no_failure w1)
      by (unfold sink_sees_no_failure, sink_counts in *; by rewrite Hsaver).
    apply councils_sink in Hcouncils; [| done].
    assert (Hinv3 : sink_sees_no_failure w3)
      by (unfold sink_sees_no_failure; by rewrite Hcounts).
    apply results_save_all_summary in Hsave
      as (s & Hfile & Hprocessed & Hsuccessful & Hfailed & Hrate).
    unfold sink_sees_no_failure, sink_counts in Hinv3. cbn in Hinv3.
    exists s. rewrite Hsummary. split; [done |].
    split; [congruence |]. split; [lia |].
    split; [by rewrite Hrate, Hprocessed, Hsuccessful |].
    intros Hpos. rewrite Hrate, Hinv3. apply rate_of_all. lia.
Qed.

Lemma final_report_rate_counts_unprobed_identifiers_witness :
  ∃ (stats : final_statistics) (w' : World.t) (s : summary),
    main 2 0 skipped_then_found_run = (Returns stats, w')
    ∧ requests w' = [["01000002"]]
    ∧ results (saver w')
      = [{| registration_number := "01000002"; scores := [] |}]
    ∧ stat_total_processed stats = 2
    ∧ stat_total_successful stats = 1
    ∧ stat_total_failed stats = 1
    ∧ stat_total_skipped stats = 0
    ∧ (overall_success_rate stats == 50)%Q
    ∧ summary_file (disk w') = Some s
    ∧ summary_total_processed s = 1
    ∧ summary_failed s = 0
    ∧ (summary_success_rate s == 100)%Q.
Proof.
  destruct final_report_rate_counts_unprobed_identifiers
    as (Hrate & _ & _ & _ & _ & Hsink).
  assert (Hrun : ∃ stats w',
             main 2 0 skipped_then_found_run = (Returns stats, w')
             ∧ requests w' = [["01000002"]]
             ∧ results (saver w')
               = [{| registration_number := "01000002"; scores := [] |}]
             ∧ stat_total_processed stats = 2
             ∧ stat_total_successful stats = 1
             ∧ stat_total_failed stats = 1).
  { eexists _, _. split; [vm_compute; reflexivity |]. by repeat split. }
  destruct Hrun as (stats & w' & Hrun & Hreq & Hres & Hp & Hs & Hf).
  destruct (Hrate _ _ _ _ _ Hrun) as [Hskipped Hvalue].
  destruct (Hsink 2%nat 0%nat skipped_then_found_run w' stats eq_refl Hrun)
    as (s & Hfile & Hcounts & Hfailed & Hsrate & Hall).
  exists stats, w', s.
  split; [exact Hrun |]. split; [exact Hreq |]. split; [exact Hres |].
  split; [exact Hp |]. split; [exact Hs |]. split; [exact Hf |].
  split; [exact Hskipped |].
  split; [rewrite Hvalue, Hp, Hs; reflexivity |].
  split; [exact Hfile |].
  assert (Hone : summary_total_processed s = 1).
  { revert Hfile. replace w' with (main 2 0 skipped_then_found_run).2
      by (by rewrite Hrun).
    vm_compute. by intros [= <-]. }
  split; [exact Hone |]. split; [exact Hfailed |].
  apply Hall. lia.
Defined.

End FinalReport.
